(** * portfolio-daily: the AI learning ledger (src/diff.js, lines 579-1425)

    A shallow embedding of the prediction extractor, the outcome resolver,
    the accuracy aggregator, the insight generator and the ledger update
    cycle, followed by the properties of the specification.

    The modules [Trends], [Health] and [Diff] embed the helpers of the trend
    engine, the portfolio health score and the day-over-day diff report
    (src/diff.js, lines 1-567), and [Scorecard] the bar of the scorecard
    (src/aiScorecard.js); their properties are in the last part.

    Conventions of the embedding.
    - A JavaScript number is an exact rational [Q]; [null], [undefined] and
      [NaN] in a numeric position are [None].  Arithmetic is exact, so the
      binary rounding, overflow and underflow of IEEE doubles are not part of
      the model.
    - A date string [YYYY-MM-DD] is the day number since 1970-01-01 ([Z]).
      On well-formed dates the string comparisons of the source are the
      comparisons of day numbers and [setUTCDate(getUTCDate() + n)] is the
      addition of [n]; [isoDate] prints a day number back.  A file name
      that matches the pattern of a date without being a calendar date
      (2026-13-45), on which [toISOString] raises a RangeError, is outside
      the model.
    - A JavaScript [Map] is an association list in insertion order; an object
      used as a dictionary is the list of its properties in creation order,
      with [objectEntries] giving the enumeration order.  The object that
      [groupAccuracy] fills under computed keys has no own property named
      [__proto__] ([isOwnKey]).
    - An analyst document is an untyped JSON value ([JsValue]).  Factual
      reports and the stored ledger are typed records: a file that does not
      hold one is unreadable.  [JSON.stringify] followed by [JSON.parse] is
      the identity on a ledger.  A ledger file with a truthy [version] is a
      ledger as [saveLedger] writes it; other JSON with a truthy [version],
      on which the cycle raises a TypeError, is outside the model.
    - The wallet label of a prediction is a string, as every top-level key
      of a document is.  A label that an entry of [wallets] gives as a
      number, a boolean or an object is read in its string form; that the
      [Map] of [groupAccuracy] keeps such a label apart from the string is
      outside the model.
    - Strings are byte strings; case conversion and [trim] act on ASCII.
      A glyph of a bar is its UTF-8 byte sequence.
    - A function that can throw returns a [Result]. *)

From Stdlib Require Import ZArith QArith Qround Qabs Qpower List String Ascii Bool Lia.
From Stdlib Require Import DecimalString Sorted Lqa.
Import ListNotations.
Open Scope Q_scope.

(** ** Numbers *)

Definition Qltb (a b : Q) : bool := negb (Qle_bool b a).
Definition Qgtb (a b : Q) : bool := Qltb b a.
Definition Qgeb (a b : Q) : bool := Qle_bool b a.

(** [Math.round]: the nearest integer, ties towards plus infinity. *)
Definition mathRound (x : Q) : Z := Qfloor (x + (1 # 2)).

(** [round4(v)] on a finite number: [Math.round(v * 10000) / 10000]. *)
Definition round4 (v : Q) : Q := Qmake (mathRound (v * 10000)) 10000.

(** [round4(v)] where [v] may be [null] or [NaN]:
    [if (!Number.isFinite(v)) return null]. *)
Definition round4_nullable (v : option Q) : option Q := option_map round4 v.

(** Truthiness of a number. *)
Definition numTruthy (q : Q) : bool := negb (Qeq_bool q 0).

(** ** Dates *)

Definition Date := Z.

(** ** JavaScript [Map], in insertion order *)

Section JsMap.
Variables K V : Type.
Variable eqb : K -> K -> bool.

Fixpoint assoc_get (k : K) (m : list (K * V)) : option V :=
  match m with
  | [] => None
  | (k', v) :: rest => if eqb k' k then Some v else assoc_get k rest
  end.

(** [m.set(k, v)]: an existing key keeps its place, a new one goes last. *)
Fixpoint assoc_set (k : K) (v : V) (m : list (K * V)) : list (K * V) :=
  match m with
  | [] => [(k, v)]
  | (k', v') :: rest =>
      if eqb k' k then (k', v) :: rest else (k', v') :: assoc_set k v rest
  end.
End JsMap.
Arguments assoc_get {K V} eqb k m.
Arguments assoc_set {K V} eqb k v m.

(** Maps with string keys. *)
Definition map_get {V : Type} : string -> list (string * V) -> option V :=
  assoc_get String.eqb.
Definition map_set {V : Type} : string -> V -> list (string * V) -> list (string * V) :=
  assoc_set String.eqb.
Definition map_values {V : Type} (m : list (string * V)) : list V := map snd m.

(** ** Sorting *)

Section Sorting.
Variable A : Type.
Variable leb : A -> A -> bool.

Fixpoint insertBy (x : A) (l : list A) : list A :=
  match l with
  | [] => [x]
  | y :: rest => if leb x y then x :: y :: rest else y :: insertBy x rest
  end.

(** A stable ascending sort, as [Array.prototype.sort] is. *)
Definition sortBy (l : list A) : list A := fold_right insertBy [] l.
End Sorting.
Arguments insertBy {A} leb x l.
Arguments sortBy {A} leb l.

(** ** Records *)

Record Position := mkPosition {
  pos_symbol : string;
  marketValue : Q;
  pnl : Q;
  pnlPct : Q;
  spent : Q;
  quantity : Q
}.

Definition PositionMap := list (string * Position).

Record Outcome := mkOutcome {
  resolvedDate : Date;
  actualDirection : string;
  pnlPctChange : Q;
  mvChange : Q;
  correct : bool;
  stopHit : bool;
  positionExited : bool;
  positionEntered : bool
}.

Record Prediction := mkPrediction {
  date : Date;
  symbol : string;
  wallet : string;
  action : string;
  confidence : option Q;
  horizon : string;
  expectedDirection : option string;
  triggerLevel : option Q;
  stopLevel : option Q;
  sizeChangePct : option Q;
  scenarioLabel : option string;
  resolved : bool;
  outcome : option Outcome
}.

(** [{ ...prediction, resolved: true, outcome: o }] *)
Definition withOutcome (p : Prediction) (o : Outcome) : Prediction :=
  {| date := date p; symbol := symbol p; wallet := wallet p; action := action p;
     confidence := confidence p; horizon := horizon p;
     expectedDirection := expectedDirection p; triggerLevel := triggerLevel p;
     stopLevel := stopLevel p; sizeChangePct := sizeChangePct p;
     scenarioLabel := scenarioLabel p; resolved := true; outcome := Some o |}.

(** [prediction.expectedDirection === d] *)
Definition expects (p : Prediction) (d : string) : bool :=
  match expectedDirection p with
  | Some e => String.eqb e d
  | None => false
  end.

(** ** Outcome resolution *)

(** The dead zone shared by both resolvers. *)
Definition directionOf (change : Q) : string :=
  if Qgtb change 0.005 then "up"%string
  else if Qltb change (-0.005) then "down"%string
  else "flat"%string.

Definition sumQ (l : list Q) : Q := fold_left Qplus l 0.

Definition resolveScenarioPrediction (prediction : Prediction)
    (beforePositions afterPositions : PositionMap) (resolvedDate : Date) : Prediction :=
  if resolved prediction then prediction else
  let totalMvBefore := sumQ (map marketValue (map_values beforePositions)) in
  let totalMvAfter := sumQ (map marketValue (map_values afterPositions)) in
  let mvChange := totalMvAfter - totalMvBefore in
  let mvChangePct := if Qgtb totalMvBefore 0 then mvChange / totalMvBefore else 0 in
  let actualDirection := directionOf mvChangePct in
  let correct := expects prediction actualDirection in
  withOutcome prediction
    {| resolvedDate := resolvedDate; actualDirection := actualDirection;
       pnlPctChange := round4 mvChangePct; mvChange := round4 mvChange;
       correct := correct; stopHit := false;
       positionExited := false; positionEntered := false |}.

Definition isSome {A : Type} (o : option A) : bool :=
  match o with Some _ => true | None => false end.

(** [pos?.pnlPct ?? 0] and [pos?.marketValue ?? 0] *)
Definition pnlPctOf (pos : option Position) : Q :=
  match pos with Some x => pnlPct x | None => 0 end.

Definition marketValueOf (pos : option Position) : Q :=
  match pos with Some x => marketValue x | None => 0 end.

(** "Determine if prediction was correct": the three-way comparison, then the
    HOLD rule ("it's correct if position didn't crash"). *)
Definition judge (prediction : Prediction) (actualDirection : string)
    (after : option Position) : bool :=
  let correct :=
    if expects prediction "up" && String.eqb actualDirection "up" then true
    else if expects prediction "down"
            && (String.eqb actualDirection "down" || negb (isSome after)) then true
    else if expects prediction "flat" && String.eqb actualDirection "flat" then true
    else false in
  if String.eqb (action prediction) "HOLD"
     && negb (String.eqb actualDirection "down") then true else correct.

(** "Check if stop level was hit". *)
Definition checkStop (prediction : Prediction) (after : option Position) : bool :=
  match stopLevel prediction, after with
  | Some stop, Some a =>
      if numTruthy stop then
        let impliedPrice :=
          if Qgtb (quantity a) 0 then marketValue a / quantity a else 0 in
        (expects prediction "up" && Qltb impliedPrice stop)
        || (expects prediction "down" && Qgtb impliedPrice stop)
      else false
  | _, _ => false
  end.

Definition resolvePrediction (prediction : Prediction)
    (beforePositions afterPositions : PositionMap) (resolvedDate : Date) : Prediction :=
  if resolved prediction then prediction else
  if String.eqb (action prediction) "SCENARIO" then
    resolveScenarioPrediction prediction beforePositions afterPositions resolvedDate
  else
  let before := map_get (symbol prediction) beforePositions in
  let after := map_get (symbol prediction) afterPositions in
  if negb (isSome before) && negb (isSome after) then prediction else
  let pnlPctChange := round4 (pnlPctOf after - pnlPctOf before) in
  let mvChange := round4 (marketValueOf after - marketValueOf before) in
  let actualDirection := directionOf pnlPctChange in
  withOutcome prediction
    {| resolvedDate := resolvedDate; actualDirection := actualDirection;
       pnlPctChange := pnlPctChange; mvChange := mvChange;
       correct := judge prediction actualDirection after;
       stopHit := checkStop prediction after;
       positionExited := isSome before && negb (isSome after);
       positionEntered := negb (isSome before) && isSome after |}.

(** ** Strings *)

Definition charCode (c : ascii) : nat := nat_of_ascii c.

Definition toUpperChar (c : ascii) : ascii :=
  let n := charCode c in
  if (97 <=? n)%nat && (n <=? 122)%nat then ascii_of_nat (n - 32) else c.

Definition toLowerChar (c : ascii) : ascii :=
  let n := charCode c in
  if (65 <=? n)%nat && (n <=? 90)%nat then ascii_of_nat (n + 32) else c.

Fixpoint mapString (f : ascii -> ascii) (s : string) : string :=
  match s with
  | EmptyString => EmptyString
  | String c rest => String (f c) (mapString f rest)
  end.

Definition toUpperCase : string -> string := mapString toUpperChar.
Definition toLowerCase : string -> string := mapString toLowerChar.

(** White space removed by [trim]: TAB, LF, VT, FF, CR and SPACE. *)
Definition isWhiteSpace (c : ascii) : bool :=
  let n := charCode c in ((9 <=? n)%nat && (n <=? 13)%nat) || (n =? 32)%nat.

Fixpoint trimStart (s : string) : string :=
  match s with
  | String c rest => if isWhiteSpace c then trimStart rest else s
  | EmptyString => EmptyString
  end.

Fixpoint revString (s acc : string) : string :=
  match s with
  | EmptyString => acc
  | String c rest => revString rest (String c acc)
  end.

Definition trimEnd (s : string) : string :=
  revString (trimStart (revString s EmptyString)) EmptyString.

Definition trim (s : string) : string := trimEnd (trimStart s).

Definition startsWith (s p : string) : bool := String.prefix p s.

Fixpoint includes (s sub : string) : bool :=
  String.prefix sub s
  || match s with
     | EmptyString => false
     | String _ rest => includes rest sub
     end.

Definition strTruthy (s : string) : bool :=
  match s with EmptyString => false | _ => true end.

Definition digitChar (d : Z) : ascii := ascii_of_nat (48 + Z.to_nat d).

Definition isDigit (c : ascii) : bool :=
  let n := charCode c in (48 <=? n)%nat && (n <=? 57)%nat.

Definition digitValue (c : ascii) : Z := Z.of_nat (charCode c - 48).

Definition natToString (n : nat) : string := NilZero.string_of_uint (Nat.to_uint n).
Definition intToString (z : Z) : string := NilZero.string_of_int (Z.to_int z).

(** Decimal digits of [r / d] after the point, at most [fuel] of them. *)
Fixpoint fractionDigits (fuel : nat) (r d : Z) : string :=
  match fuel with
  | O => EmptyString
  | S fuel' =>
      if (r =? 0)%Z then EmptyString
      else String (digitChar (r * 10 / d)) (fractionDigits fuel' ((r * 10) mod d) d)
  end.

(** [String(x)] for a number, in positional notation (the exponent form
    that JavaScript switches to below 1e-6 and from 1e21 is not modelled). *)
Definition numberToString (q : Q) : string :=
  let n := Z.abs (Qnum q) in
  let d := Zpos (Qden q) in
  let sign := if (Qnum q <? 0)%Z then "-"%string else EmptyString in
  let frac := fractionDigits 20 (n mod d) d in
  (sign ++ intToString (n / d)
   ++ match frac with EmptyString => EmptyString | _ => String "."%char frac end)%string.

(** [x.toFixed(0)]: the nearest integer to the absolute value, ties upwards,
    with the sign put back in front. *)
Definition toFixed0 (q : Q) : string :=
  if Qltb q 0 then ("-" ++ intToString (mathRound (- q)))%string
  else intToString (mathRound q).

(** Percentages as the templates print them: [(x * 100).toFixed(0)]. *)
Definition pct0 (x : Q) : string := toFixed0 (x * 100).

(** ** Dates as text *)

(** Civil date of a day number (Gregorian calendar, days since 1970-01-01). *)
Definition civilFromDays (z : Z) : Z * Z * Z :=
  let z := (z + 719468)%Z in
  let era := (z / 146097)%Z in
  let doe := (z - era * 146097)%Z in
  let yoe := ((doe - doe / 1460 + doe / 36524 - doe / 146096) / 365)%Z in
  let y := (yoe + era * 400)%Z in
  let doy := (doe - (365 * yoe + yoe / 4 - yoe / 100))%Z in
  let mp := ((5 * doy + 2) / 153)%Z in
  let d := (doy - (153 * mp + 2) / 5 + 1)%Z in
  let m := (if (mp <? 10)%Z then mp + 3 else mp - 9)%Z in
  ((if (m <=? 2)%Z then y + 1 else y)%Z, m, d).

(** Day number of a civil date. *)
Definition ymd (y m d : Z) : Date :=
  let y := (if (m <=? 2)%Z then y - 1 else y)%Z in
  let era := (y / 400)%Z in
  let yoe := (y - era * 400)%Z in
  let doy := ((153 * (if (m >? 2)%Z then m - 3 else m + 9) + 2) / 5 + d - 1)%Z in
  let doe := (yoe * 365 + yoe / 4 - yoe / 100 + doy)%Z in
  (era * 146097 + doe - 719468)%Z.

Definition pad2 (z : Z) : string :=
  String (digitChar (z / 10 mod 10)) (String (digitChar (z mod 10)) EmptyString).

Definition pad4 (z : Z) : string :=
  (pad2 (z / 100) ++ pad2 z)%string.

(** [YYYY-MM-DD] *)
Definition isoDate (d : Date) : string :=
  let '(y, m, dd) := civilFromDays d in
  (pad4 y ++ "-" ++ pad2 m ++ "-" ++ pad2 dd)%string.

(** [d.setUTCDate(d.getUTCDate() + days)] on the date [dateStr]. *)
Definition addDays (d : Date) (days : Z) : Date := (d + days)%Z.

(** ** JavaScript values of an analyst document *)

(** A parsed JSON document.  [JUndefined] is the value of a missing
    property; the fields of an object are listed in enumeration order and
    a key occurs once. *)
#[warnings="-register-all"] Inductive JsValue : Type :=
| JUndefined
| JNull
| JBool (b : bool)
| JNum (q : Q)
| JStr (s : string)
| JArr (items : list JsValue)
| JObj (fields : list (string * JsValue)).

Definition truthy (v : JsValue) : bool :=
  match v with
  | JUndefined | JNull => false
  | JBool b => b
  | JNum q => numTruthy q
  | JStr s => strTruthy s
  | JArr _ | JObj _ => true
  end.

(** [typeof v === "object"] *)
Definition isObjectType (v : JsValue) : bool :=
  match v with
  | JNull | JArr _ | JObj _ => true
  | _ => false
  end.

(** [v && typeof v === "object"] *)
Definition isObjectValue (v : JsValue) : bool := truthy v && isObjectType v.

(** [a || b] *)
Definition jsOr (a b : JsValue) : JsValue := if truthy a then a else b.
Notation "a ||| b" := (jsOr a b) (at level 50, left associativity).

(** [v.k] and [v[k]] for a string key. *)
Definition get (v : JsValue) (k : string) : JsValue :=
  match v with
  | JObj fields =>
      match map_get k fields with Some x => x | None => JUndefined end
  | _ => JUndefined
  end.

(** [String(v)] *)
Fixpoint jsString (v : JsValue) : string :=
  match v with
  | JUndefined => "undefined"
  | JNull => "null"
  | JBool true => "true"
  | JBool false => "false"
  | JNum q => numberToString q
  | JStr s => s
  | JArr items =>
      String.concat ","
        (map (fun x => match x with
                       | JUndefined | JNull => EmptyString
                       | _ => jsString x
                       end) items)
  | JObj _ => "[object Object]"
  end%string.

(** *** [parseFloat] *)

Fixpoint takeDigits (s : string) : string * string :=
  match s with
  | String c rest =>
      if isDigit c then let '(ds, r) := takeDigits rest in (String c ds, r)
      else (EmptyString, s)
  | EmptyString => (EmptyString, EmptyString)
  end.

Fixpoint digitsValue (ds : string) (acc : Z) : Z :=
  match ds with
  | EmptyString => acc
  | String c rest => digitsValue rest (acc * 10 + digitValue c)%Z
  end.

Definition readSign (s : string) : bool * string :=
  match s with
  | String "-"%char rest => (true, rest)
  | String "+"%char rest => (false, rest)
  | _ => (false, s)
  end.

(** The exponent part, when it is complete; otherwise it is not read. *)
Definition readExponent (s : string) : Z :=
  match s with
  | String c rest =>
      if Ascii.eqb c "e" || Ascii.eqb c "E" then
        let '(neg, r) := readSign rest in
        let '(ds, _) := takeDigits r in
        match ds with
        | EmptyString => 0%Z
        | _ => if neg then (- digitsValue ds 0)%Z else digitsValue ds 0
        end
      else 0%Z
  | EmptyString => 0%Z
  end.

(** [parseFloat(s)]: the longest decimal literal after leading white space.
    [None] stands for [NaN] and for the infinities, which every caller
    turns into [null]. *)
Definition parseFloatString (s : string) : option Q :=
  let '(neg, s0) := readSign (trimStart s) in
  let '(ip, s1) := takeDigits s0 in
  let '(fp, s2) :=
    match s1 with
    | String "."%char rest => takeDigits rest
    | _ => (EmptyString, s1)
    end in
  match (ip ++ fp)%string with
  | EmptyString => None
  | ds =>
      let mantissa := inject_Z (digitsValue ds 0) / (10 ^ Z.of_nat (String.length fp)) in
      let value := mantissa * 10 ^ readExponent s2 in
      Some (if neg then - value else value)
  end.

(** [parseFloat(v)]: a number is its own reading. *)
Definition parseFloat (v : JsValue) : option Q :=
  match v with
  | JNum q => Some q
  | _ => parseFloatString (jsString v)
  end.

(** *** [parseProb] *)

Definition isDigitOrDot (c : ascii) : bool := isDigit c || Ascii.eqb c ".".

Fixpoint takeRun (s : string) : string :=
  match s with
  | String c rest => if isDigitOrDot c then String c (takeRun rest) else EmptyString
  | EmptyString => EmptyString
  end.

(** [raw.match(/([\d.]+)/)]: the leftmost longest run of digits and dots. *)
Fixpoint firstNumericRun (s : string) : option string :=
  match s with
  | EmptyString => None
  | String c rest => if isDigitOrDot c then Some (takeRun s) else firstNumericRun rest
  end.

Definition percentToFraction (num : Q) : Q := if Qgtb num 1 then num / 100 else num.

Definition parseProb (raw : JsValue) : option Q :=
  match raw with
  | JNum q => Some (percentToFraction q)
  | JStr s =>
      match firstNumericRun s with
      | None => None
      | Some m =>
          match parseFloatString m with
          | None => None
          | Some num => Some (percentToFraction num)
          end
      end
  | _ => None
  end.

(** ** Prediction extraction *)

Definition normalizeAction (raw : JsValue) : string :=
  if negb (truthy raw) then "UNKNOWN"%string else
  let upper := trim (toUpperCase (jsString raw)) in
  if startsWith upper "BUY" || String.eqb upper "ADD" then "BUY"%string
  else if startsWith upper "SELL" || String.eqb upper "EXIT" || String.eqb upper "CLOSE"
  then "SELL"%string
  else if startsWith upper "HOLD" || String.eqb upper "MAINTAIN" || String.eqb upper "KEEP"
  then "HOLD"%string
  else if startsWith upper "TRIM" || String.eqb upper "REDUCE" || String.eqb upper "LIGHTEN"
  then "TRIM"%string
  else "UNKNOWN"%string.

Definition normalizeHorizon (raw : JsValue) : string :=
  if negb (truthy raw) then "24h"%string else
  let s := trim (toLowerCase (jsString raw)) in
  if includes s "24" || includes s "1 day" || includes s "1d" || includes s "day"
  then "24h"%string
  else if includes s "2 week" || includes s "2w" || includes s "14d" || includes s "2-week"
  then "2w"%string
  else if includes s "1 week" || includes s "1w" || includes s "7d" || includes s "week"
  then "1w"%string
  else if includes s "month" || includes s "30d" || includes s "4w"
  then "1m"%string
  else "24h"%string.

Definition horizonToDays (horizon : string) : Z :=
  if String.eqb horizon "24h" then 1
  else if String.eqb horizon "1w" then 7
  else if String.eqb horizon "2w" then 14
  else if String.eqb horizon "1m" then 30
  else 1.

(** [parseFloat(v) || null], then kept only when finite. *)
Definition parseLevel (v : JsValue) : option Q :=
  match parseFloat v with
  | Some q => if numTruthy q then Some q else None
  | None => None
  end.

(** The direction that [parseActionItem] derives from the action. *)
Definition directionOfAction (action : string) : option string :=
  if String.eqb action "BUY" then Some "up"%string
  else if String.eqb action "SELL" || String.eqb action "TRIM" then Some "down"%string
  else if String.eqb action "HOLD" then Some "flat"%string
  else None.

Definition parseActionItem (item : JsValue) (date : Date) (wallet : string)
  : option Prediction :=
  if negb (isObjectValue item) then None else
  let symbol :=
    trim (toUpperCase (jsString
      (get item "symbol" ||| get item "ticker" ||| get item "name" ||| JStr EmptyString))) in
  if negb (strTruthy symbol) then None else
  let action :=
    normalizeAction (get item "action" ||| get item "actionNow"
                     ||| get item "action_now" ||| get item "recommendation") in
  let confidence :=
    parseProb (get item "confidence" ||| get item "probability" ||| get item "prob") in
  let triggerLevel :=
    parseLevel (get item "triggerLevel" ||| get item "trigger"
                ||| get item "entry" ||| get item "triggerPrice") in
  let stopLevel :=
    parseLevel (get item "stopLevel" ||| get item "stop"
                ||| get item "invalidation" ||| get item "stopLoss") in
  Some {| date := date; symbol := symbol; wallet := wallet; action := action;
          confidence := round4_nullable confidence;
          horizon := normalizeHorizon (get item "horizon" ||| get item "timeframe"
                                       ||| JStr "24h");
          expectedDirection := directionOfAction action;
          triggerLevel := triggerLevel; stopLevel := stopLevel;
          sizeChangePct :=
            parseProb (get item "sizeChange" ||| get item "size_change"
                       ||| get item "sizing");
          scenarioLabel := None; resolved := false; outcome := None |}.

(** [for (const item of v) { const pred = parseActionItem(...); if (pred) push }]
    when [v] is an array. *)
Definition parseActionArray (v : JsValue) (date : Date) (wallet : string)
  : list Prediction :=
  match v with
  | JArr items =>
      flat_map (fun item => match parseActionItem item date wallet with
                            | Some pred => [pred]
                            | None => []
                            end) items
  | _ => []
  end.

Definition scenarioOfEntry (scenario : JsValue) (date : Date) (wallet : string)
  : list Prediction :=
  if negb (isObjectValue scenario) then [] else
  let label :=
    toLowerCase (jsString (get scenario "name" ||| get scenario "label"
                           ||| get scenario "scenario" ||| JStr "unknown")) in
  let prob :=
    parseProb (get scenario "probability" ||| get scenario "prob"
               ||| get scenario "likelihood") in
  match prob with
  | None => []
  | Some pr =>
      [ {| date := date; symbol := "__SCENARIO__"; wallet := wallet;
           action := "SCENARIO"; confidence := Some (round4 pr);
           horizon := normalizeHorizon (get scenario "horizon"
                                        ||| get scenario "timeframe" ||| JStr "2w");
           expectedDirection :=
             Some (if includes label "bull" then "up"
                   else if includes label "bear" then "down" else "flat")%string;
           triggerLevel := None; stopLevel := None; sizeChangePct := None;
           scenarioLabel := Some label; resolved := false; outcome := None |} ]
  end.

Definition extractWalletScenarios (scenarioData : JsValue) (date : Date)
    (wallet : string) : list Prediction :=
  if negb (isObjectValue scenarioData) then [] else
  let scenarioList :=
    match scenarioData with
    | JArr items => items
    | JObj fields => map snd fields
    | _ => []
    end in
  flat_map (fun scenario => scenarioOfEntry scenario date wallet) scenarioList.

Definition extractScenarios (data : JsValue) (date : Date) : list Prediction :=
  flat_map (fun field =>
              if isObjectValue (get data field)
              then extractWalletScenarios (get data field) date "portfolio"
              else [])
           ["scenarioMatrix"; "scenario_matrix"; "scenarios"]%string.

Definition extractActionsFromWallet (wallet : JsValue) (walletName : string)
    (date : Date) : list Prediction :=
  flat_map (fun field => parseActionArray (get wallet field) date walletName)
           ["actions"; "actionPlan"; "action_plan"; "recommendations";
            "holdings"; "positions"; "holdingActions"; "holding_actions"]%string
  ++ (let scenarioData :=
        get wallet "scenarios" ||| get wallet "scenarioMatrix"
        ||| get wallet "scenario_matrix" in
      if truthy scenarioData
      then extractWalletScenarios scenarioData date walletName else []).

Record WalletSection := mkWalletSection {
  key : string;
  walletValue : JsValue;
  walletName : string
}.

Definition looksLikeWallet (key : string) : bool :=
  let lower := toLowerCase key in
  includes lower "wallet" || includes lower "us_equit" || includes lower "crypto"
  || includes lower "egx" || includes lower "thndr" || includes lower "equities".

(** [Object.keys(data)] paired with the values; an array has index keys only,
    none of which looks like a wallet. *)
Definition ownEntries (data : JsValue) : list (string * JsValue) :=
  match data with
  | JObj fields => fields
  | _ => []
  end.

(** A wallet label is kept as its string form. *)
Definition findWalletSections (data : JsValue) : list WalletSection :=
  if negb (isObjectValue data) then [] else
  flat_map (fun '(k, val) =>
              if looksLikeWallet k && isObjectValue val
              then [ {| key := k; walletValue := val; walletName := k |} ] else [])
           (ownEntries data)
  ++ match get data "wallets" with
     | JArr ws =>
         flat_map (fun w =>
                     if isObjectValue w then
                       let name := jsString (get w "walletName" ||| get w "wallet"
                                             ||| get w "name" ||| JStr "unknown") in
                       [ {| key := name; walletValue := w; walletName := name |} ]
                     else []) ws
     | _ => []
     end.

(** The identity key of the deduplication. *)
Definition predictionKey (p : Prediction) : string :=
  let scenarioSuffix :=
    match scenarioLabel p with
    | Some l => if strTruthy l then (":" ++ l)%string else EmptyString
    | None => EmptyString
    end in
  (isoDate (date p) ++ ":" ++ symbol p ++ ":" ++ horizon p ++ ":" ++ wallet p
   ++ scenarioSuffix)%string.

(** [predictions.filter(p => { if (seen.has(key)) return false; seen.add(key); ... })] *)
Fixpoint dedupe (seen : list string) (predictions : list Prediction) : list Prediction :=
  match predictions with
  | [] => []
  | p :: rest =>
      let k := predictionKey p in
      if existsb (String.eqb k) seen then dedupe seen rest
      else p :: dedupe (k :: seen) rest
  end.

Definition extractPredictions (aiData : JsValue) (date : Date) : list Prediction :=
  if negb (isObjectValue aiData) then [] else
  let fromWallets :=
    flat_map (fun ws => extractActionsFromWallet (walletValue ws) (walletName ws) date)
             (findWalletSections aiData) in
  let fromTop :=
    flat_map (fun field => parseActionArray (get aiData field) date "combined")
             ["actions"; "recommendations"; "actionPlan"; "action_plan"]%string in
  let scenarios := extractScenarios aiData date in
  dedupe [] (fromWallets ++ fromTop ++ scenarios).

(** ** Accuracy and calibration *)

Record Tally := mkTally { tallyTotal : nat; tallyCorrect : nat }.

Record GroupStats := mkGroupStats {
  total : nat;
  correctCount : nat;
  accuracy : Q
}.

Record Band := mkBand {
  predictedProb : Q;
  actualRate : Q;
  sampleSize : nat;
  gap : Q
}.

(** [p.resolved && p.outcome] *)
Definition isResolved (p : Prediction) : bool := resolved p && isSome (outcome p).

(** [p.outcome.correct], read on members of the [resolved] filter only. *)
Definition isCorrect (p : Prediction) : bool :=
  match outcome p with
  | Some o => correct o
  | None => false
  end.

(** [c / t] for two counts. *)
Definition ratio (c t : nat) : Q := inject_Z (Z.of_nat c) / inject_Z (Z.of_nat t).

Section Tallies.
Variable K : Type.
Variable eqb : K -> K -> bool.
(** The grouping key; [None] is the [continue] of the loop. *)
Variable keyFn : Prediction -> option K.

(** [if (!groups.has(key)) groups.set(key, { total: 0, correct: 0 });
     const g = groups.get(key); g.total += 1;
     if (p.outcome.correct) g.correct += 1;] *)
Definition tallyStep (groups : list (K * Tally)) (p : Prediction) : list (K * Tally) :=
  match keyFn p with
  | None => groups
  | Some k =>
      let g := match assoc_get eqb k groups with
               | Some g => g
               | None => mkTally 0 0
               end in
      assoc_set eqb k
        (mkTally (tallyTotal g + 1)
                 (if isCorrect p then tallyCorrect g + 1 else tallyCorrect g))
        groups
  end.

Definition tallyBy (resolved : list Prediction) : list (K * Tally) :=
  fold_left tallyStep resolved [].
End Tallies.
Arguments tallyStep {K} eqb keyFn groups p.
Arguments tallyBy {K} eqb keyFn resolved.

(** [result[key] = value] on the plain object [result]: every key names an
    own property but ["__proto__"], whose assignment sets the prototype of
    [result] and creates no property, so that neither [Object.entries] nor
    [JSON.stringify] shows it. *)
Definition isOwnKey (key : string) : bool := negb (String.eqb key "__proto__").

(** The own properties of [result] after
    [for (const [key, g] of groups) result[key] = { total, correct, accuracy }]. *)
Definition groupAccuracy (resolved : list Prediction) (keyFn : Prediction -> string)
  : list (string * GroupStats) :=
  map (fun '(k, g) =>
         (k, {| total := tallyTotal g; correctCount := tallyCorrect g;
                accuracy := round4 (ratio (tallyCorrect g) (tallyTotal g)) |}))
      (filter (fun e => isOwnKey (fst e))
              (tallyBy String.eqb (fun p => Some (keyFn p)) resolved)).

(** [Math.round(p.confidence * 10) / 10] *)
Definition bandOf (c : Q) : Q := Qmake (mathRound (c * 10)) 10.

Definition computeCalibration (resolved : list Prediction) : list Band :=
  map (fun '(band, data) =>
         {| predictedProb := band;
            actualRate := round4 (ratio (tallyCorrect data) (tallyTotal data));
            sampleSize := tallyTotal data;
            gap := round4 (Qabs (band - ratio (tallyCorrect data) (tallyTotal data))) |})
      (sortBy (fun a b => Qle_bool (fst a) (fst b))
              (tallyBy Qeq_bool (fun p => option_map bandOf (confidence p)) resolved)).

Record Accuracy := mkAccuracy {
  totalPredictions : nat;
  resolvedCount : nat;
  unresolvedCount : nat;
  overall : option Q;
  byAction : list (string * GroupStats);
  byHorizon : list (string * GroupStats);
  byWallet : list (string * GroupStats);
  bySymbol : list (string * GroupStats);
  calibration : list Band
}.

Definition computeAccuracy (predictions : list Prediction) : Accuracy :=
  let resolved := filter isResolved predictions in
  match resolved with
  | [] =>
      {| totalPredictions := List.length predictions; resolvedCount := 0;
         unresolvedCount := List.length predictions; overall := None;
         byAction := []; byHorizon := []; byWallet := []; bySymbol := [];
         calibration := [] |}
  | _ =>
      let correct := filter isCorrect resolved in
      {| totalPredictions := List.length predictions;
         resolvedCount := List.length resolved;
         unresolvedCount := List.length predictions - List.length resolved;
         overall := Some (round4 (ratio (List.length correct) (List.length resolved)));
         byAction := groupAccuracy resolved action;
         byHorizon := groupAccuracy resolved horizon;
         byWallet := groupAccuracy resolved wallet;
         bySymbol := groupAccuracy resolved symbol;
         calibration := computeCalibration resolved |}
  end.

(** ** Property order of a JavaScript object *)

(** An array index: a canonical decimal numeral below [2^32 - 1]. *)
Fixpoint allDigits (s : string) : bool :=
  match s with
  | EmptyString => true
  | String c rest => isDigit c && allDigits rest
  end.

Definition isArrayIndex (s : string) : bool :=
  match s with
  | EmptyString => false
  | String c rest =>
      allDigits s
      && (negb (Ascii.eqb c "0") || match rest with EmptyString => true | _ => false end)
      && (digitsValue s 0 <? 4294967295)%Z
  end.

(** [Object.entries(o)] of an object whose properties were created in the
    order of [o]: array indices first, ascending, then the other keys in
    creation order. *)
Definition objectEntries {V : Type} (o : list (string * V)) : list (string * V) :=
  sortBy (fun a b => (digitsValue (fst a) 0 <=? digitsValue (fst b) 0)%Z)
         (filter (fun e => isArrayIndex (fst e)) o)
  ++ filter (fun e => negb (isArrayIndex (fst e))) o.

(** ** Insights *)

Definition dquote : string := String (ascii_of_nat 34) EmptyString.

(** Overall accuracy assessment. *)
Definition overallInsights (acc : Accuracy) : list string :=
  match overall acc with
  | None => []
  | Some o =>
      if Qgeb o 0.7 then
        ["Overall accuracy is strong at " ++ pct0 o
         ++ "%. Maintain current analytical approach."]%string
      else if Qgeb o 0.5 then
        ["Overall accuracy is moderate at " ++ pct0 o
         ++ "%. Look for patterns in incorrect predictions to improve."]%string
      else
        ["Overall accuracy is below 50% at " ++ pct0 o
         ++ "%. Consider inverting or re-evaluating the analytical framework."]%string
  end.

(** Action-specific insights. *)
Definition actionInsights (acc : Accuracy) : list string :=
  flat_map (fun '(action, stats) =>
    if (total stats <? 2)%nat then []
    else if String.eqb action "SCENARIO" then []
    else if Qltb (accuracy stats) 0.4 then
      [action ++ " recommendations have low accuracy (" ++ pct0 (accuracy stats)
       ++ "% over " ++ natToString (total stats)
       ++ " calls). Consider raising the conviction threshold before issuing "
       ++ action ++ " calls."]%string
    else if Qgeb (accuracy stats) 0.75 then
      [action ++ " recommendations are highly reliable (" ++ pct0 (accuracy stats)
       ++ "% over " ++ natToString (total stats)
       ++ " calls). Lean into this strength."]%string
    else [])
    (objectEntries (byAction acc)).

(** Symbol-specific insights. *)
Definition symbolNames (entries : list (string * GroupStats)) : string :=
  String.concat ", "
    (map (fun '(s, st) => (s ++ " (" ++ pct0 (accuracy st) ++ "%)")%string) entries).

Definition symbolInsights (acc : Accuracy) : list string :=
  let symbolEntries :=
    filter (fun e => negb (String.eqb (fst e) "__SCENARIO__"))
           (objectEntries (bySymbol acc)) in
  let poorSymbols :=
    filter (fun e => (3 <=? total (snd e))%nat && Qltb (accuracy (snd e)) 0.4)
           symbolEntries in
  let strongSymbols :=
    filter (fun e => (3 <=? total (snd e))%nat && Qgeb (accuracy (snd e)) 0.75)
           symbolEntries in
  match poorSymbols with
  | [] => []
  | _ => [("Consistently poor accuracy on: " ++ symbolNames poorSymbols
           ++ ". These symbols may need a different analytical lens or more conservative sizing.")%string]
  end
  ++ match strongSymbols with
     | [] => []
     | _ => [("Strong track record on: " ++ symbolNames strongSymbols
              ++ ". Higher conviction warranted on these symbols.")%string]
     end.

(** Calibration insights. *)
Definition miscalibrationNote (avgGap : Q) : string :=
  ("Confidence calibration is off by " ++ pct0 avgGap
   ++ "pp on average. Predicted probabilities don't match actual hit rates.")%string.

Definition overconfidenceNote : string :=
  "Tendency toward overconfidence detected. When stating high-confidence predictions, actual accuracy is lower than claimed.".

Definition underconfidenceNote : string :=
  "Tendency toward under-confidence detected. Some cautious predictions actually perform better than expected. Consider sizing up on these.".

Definition averageGap (calibration : list Band) : Q :=
  sumQ (map gap calibration) / inject_Z (Z.of_nat (List.length calibration)).

Definition isOverconfident (c : Band) : bool :=
  Qgtb (predictedProb c) (actualRate c + 0.1) && (3 <=? sampleSize c)%nat.

Definition isUnderconfident (c : Band) : bool :=
  Qgtb (actualRate c) (predictedProb c + 0.1) && (3 <=? sampleSize c)%nat.

Definition calibrationInsights (acc : Accuracy) : list string :=
  if (2 <=? List.length (calibration acc))%nat then
    let avgGap := averageGap (calibration acc) in
    (if Qgtb avgGap 0.15 then [miscalibrationNote avgGap] else [])
    ++ match filter isOverconfident (calibration acc) with
       | [] => []
       | _ => [overconfidenceNote]
       end
    ++ match filter isUnderconfident (calibration acc) with
       | [] => []
       | _ => [underconfidenceNote]
       end
  else [].

(** Direction bias. *)
Definition directionInsights (resolved : list Prediction) : list string :=
  let upPredictions := filter (fun p => expects p "up") resolved in
  let downPredictions := filter (fun p => expects p "down") resolved in
  if (0 <? List.length upPredictions)%nat && (0 <? List.length downPredictions)%nat then
    let upRate :=
      ratio (List.length (filter isCorrect upPredictions)) (List.length upPredictions) in
    let downRate :=
      ratio (List.length (filter isCorrect downPredictions)) (List.length downPredictions) in
    (if Qltb upRate 0.4 && Qgeb downRate 0.5 then
       ["Bullish bias detected: bearish calls are more accurate than bullish ones. Apply extra skepticism to BUY recommendations."]%string
     else [])
    ++ (if Qltb downRate 0.4 && Qgeb upRate 0.5 then
          ["Bearish bias detected: bullish calls are more accurate than bearish ones. Apply extra skepticism to SELL/TRIM recommendations."]%string
        else [])
  else [].

(** Wallet-specific insights. *)
Definition walletInsights (acc : Accuracy) : list string :=
  flat_map (fun '(wallet, stats) =>
    if (total stats <? 3)%nat then []
    else if Qltb (accuracy stats) 0.4 then
      ["Wallet " ++ dquote ++ wallet ++ dquote ++ " analysis underperforms ("
       ++ pct0 (accuracy stats)
       ++ "% accuracy). Reevaluate the analytical approach for this market/asset class."]%string
    else [])
    (objectEntries (byWallet acc)).

Definition notEnoughNote : string :=
  "Not enough resolved predictions yet to generate meaningful insights. Keep running daily analyses.".

Definition generateInsights (acc : Accuracy) (predictions : list Prediction)
  : list string :=
  let resolved := filter isResolved predictions in
  if (List.length resolved <? 3)%nat then [notEnoughNote]
  else
    overallInsights acc ++ actionInsights acc ++ symbolInsights acc
    ++ calibrationInsights acc ++ directionInsights resolved ++ walletInsights acc.

(** ** Learning recommendations *)

Record Recommendation := mkRecommendation {
  priority : string;
  category : string;
  recommendation : string
}.

Definition generateRecommendations (acc : Accuracy) (insights : list string)
  : list Recommendation :=
  if (resolvedCount acc <? 5)%nat then
    [ {| priority := "high"; category := "data";
         recommendation := "Continue running daily AI analysis to build up a meaningful prediction history. At least 5-10 resolved predictions needed for reliable insights." |} ]
  else
    (if existsb (fun c => Qgtb (gap c) 0.2 && (3 <=? sampleSize c)%nat) (calibration acc)
     then [ {| priority := "high"; category := "calibration";
               recommendation := "Adjust confidence levels in predictions. Large gap between stated confidence and actual accuracy detected. Use past accuracy rates as priors." |} ]
     else [])
    ++ flat_map (fun '(action, stats) =>
         if String.eqb action "SCENARIO" || (total stats <? 3)%nat then []
         else if Qltb (accuracy stats) 0.4 then
           [ {| priority := "high"; category := "action_type";
                recommendation :=
                  ("Reduce " ++ action
                   ++ " frequency or raise conviction threshold. Current accuracy: "
                   ++ pct0 (accuracy stats) ++ "% over " ++ natToString (total stats)
                   ++ " calls.")%string |} ]
         else [])
         (objectEntries (byAction acc))
    ++ match overall acc with
       | Some o =>
           if Qltb o 0.5 then
             [ {| priority := "critical"; category := "strategy";
                  recommendation := "Overall prediction accuracy below 50%. Consider: (1) narrowing prediction scope to highest-conviction calls only, (2) increasing use of HOLD over active BUY/SELL, (3) using wider stop levels." |} ]
           else []
       | None => []
       end.

(** ** Factual reports *)

(** A position of a factual report; a missing number is [None]. *)
Record RawPosition := mkRawPosition {
  rawSymbol : string;
  rawMarketValue : option Q;
  rawPnl : option Q;
  rawPnlPct : option Q;
  rawSpent : option Q;
  rawQuantity : option Q
}.

(** A parsed factual report: [report?.combined?.positions], when present. *)
Record Report := mkReport { combinedPositions : option (list RawPosition) }.

(** [x ?? 0] *)
Definition orZero (x : option Q) : Q := match x with Some q => q | None => 0 end.

Definition buildPositionMap (report : Report) : PositionMap :=
  match combinedPositions report with
  | None => []
  | Some positions =>
      fold_left (fun m pos =>
                   map_set (rawSymbol pos)
                     {| pos_symbol := rawSymbol pos;
                        marketValue := orZero (rawMarketValue pos);
                        pnl := orZero (rawPnl pos);
                        pnlPct := orZero (rawPnlPct pos);
                        spent := orZero (rawSpent pos);
                        quantity := orZero (rawQuantity pos) |} m)
                positions []
  end.

(** ** The ledger and the reports directory *)

Record DailyScore := mkDailyScore {
  scoreDate : Date;
  scoreTotal : nat;
  scoreCorrect : nat;
  scoreAccuracy : Q
}.

Record Ledger := mkLedger {
  version : Z;
  lastUpdated : option Date;
  predictions : list Prediction;
  ledgerAccuracy : option Accuracy;
  insights : list string;
  recommendations : list Recommendation;
  dailyScores : list DailyScore
}.

(** What [ai-learning.json] holds. *)
Inductive LedgerFile : Type :=
| LedgerMissing                (* no such file *)
| LedgerCorrupt                (* the file is not parseable JSON *)
| LedgerOther                  (* JSON without a truthy [version] *)
| LedgerStored (l : Ledger).   (* a ledger written by [saveLedger] *)

(** The reports directory.  A file whose content is [None] exists but
    cannot be read as JSON (or holds a falsy value). *)
Record Store := mkStore {
  reportFiles : list (Date * option Report);     (* YYYY-MM-DD.json *)
  aiFiles : list (Date * option JsValue);        (* YYYY-MM-DD.ai.json *)
  ledgerFile : LedgerFile;                       (* ai-learning.json *)
  writable : bool                                (* does [fs.writeFile] succeed *)
}.

Inductive Result (A : Type) : Type :=
| Ok (a : A)
| Throw (message : string).
Arguments Ok {A} a.
Arguments Throw {A} message.

Definition LEDGER_FILENAME : string := "ai-learning.json".

Definition listReportDates (st : Store) : list Date :=
  sortBy Z.leb (map fst (reportFiles st)).

Definition listAiDates (st : Store) : list Date :=
  sortBy Z.leb (map fst (aiFiles st)).

(** [loadJson] of a file of the directory: [null] on any failure. *)
Definition loadJson {A : Type} (files : list (Date * option A)) (d : Date) : option A :=
  match assoc_get Z.eqb d files with
  | Some content => content
  | None => None
  end.

Definition emptyLedger : Ledger :=
  {| version := 1; lastUpdated := None; predictions := []; ledgerAccuracy := None;
     insights := []; recommendations := []; dailyScores := [] |}.

Definition loadLedger (st : Store) : Ledger :=
  match ledgerFile st with
  | LedgerStored existing => if (version existing =? 0)%Z then emptyLedger else existing
  | _ => emptyLedger
  end.

(** [fs.writeFile] replaces the file or throws. *)
Definition saveLedger (st : Store) (ledger : Ledger) : Result (Store * string) :=
  if writable st then
    Ok ({| reportFiles := reportFiles st; aiFiles := aiFiles st;
           ledgerFile := LedgerStored ledger; writable := writable st |},
        LEDGER_FILENAME)
  else Throw "EACCES: permission denied, open 'ai-learning.json'".

(** ** The update cycle *)

(** Step 1: predictions of the analyst files whose date is not in the ledger. *)
Definition ingest (st : Store) (ledgerPredictions : list Prediction) : list Prediction :=
  let existingPredictionDates := map date ledgerPredictions in
  fold_left (fun preds aiDate =>
               if existsb (Z.eqb aiDate) existingPredictionDates then preds
               else match loadJson (aiFiles st) aiDate with
                    | Some aiData =>
                        if truthy aiData then preds ++ extractPredictions aiData aiDate
                        else preds
                    | None => preds
                    end)
            (listAiDates st) ledgerPredictions.

(** Step 2, the body of the loop for one prediction. *)
Definition resolveStep (st : Store) (allFactualDates : list Date) (currentDate : Date)
    (pred : Prediction) : Prediction :=
  if resolved pred then pred else
  let days := horizonToDays (horizon pred) in
  let targetDate := addDays (date pred) days in
  match find (fun d => (targetDate <=? d)%Z) allFactualDates with
  | None => pred
  | Some resolveDate =>
      if (resolveDate >? currentDate)%Z then pred else
      match loadJson (reportFiles st) (date pred), loadJson (reportFiles st) resolveDate with
      | Some beforeReport, Some afterReport =>
          resolvePrediction pred (buildPositionMap beforeReport)
                            (buildPositionMap afterReport) resolveDate
      | _, _ => pred
      end
  end.

(** Step 5: per-day scores of the resolved predictions. *)
Definition computeDailyScores (preds : list Prediction) : list DailyScore :=
  map (fun '(d, data) =>
         {| scoreDate := d; scoreTotal := tallyTotal data;
            scoreCorrect := tallyCorrect data;
            scoreAccuracy := round4 (ratio (tallyCorrect data) (tallyTotal data)) |})
      (sortBy (fun a b => (fst a <=? fst b)%Z)
              (tallyBy Z.eqb (fun p => Some (date p)) (filter isResolved preds))).

(** Steps 3 to 5 on the predictions after resolution. *)
Definition recompute (l : Ledger) (preds : list Prediction) (currentDate : Date) : Ledger :=
  let acc := computeAccuracy preds in
  let ins := generateInsights acc preds in
  {| version := version l; lastUpdated := Some currentDate; predictions := preds;
     ledgerAccuracy := Some acc; insights := ins;
     recommendations := generateRecommendations acc ins;
     dailyScores := computeDailyScores preds |}.

Definition updateLearningLedger (st : Store) (currentDate : Date)
  : Result (Store * (Ledger * string)) :=
  let ledger := loadLedger st in
  let allFactualDates := listReportDates st in
  let extracted := ingest st (predictions ledger) in
  let resolvedPreds := map (resolveStep st allFactualDates currentDate) extracted in
  let ledger' := recompute ledger resolvedPreds currentDate in
  match saveLedger st ledger' with
  | Ok (st', ledgerPath) => Ok (st', (ledger', ledgerPath))
  | Throw message => Throw message
  end.

(** ** Fixtures, after test/aiLearning.test.js *)

Definition aaplPosition (mv pl pct : Q) : Position :=
  {| pos_symbol := "AAPL"; marketValue := mv; pnl := pl; pnlPct := pct;
     spent := 2700; quantity := 10 |}.

Definition callOn (sym act : string) (dir : option string) (conf : Q) : Prediction :=
  {| date := ymd 2026 2 14; symbol := sym; wallet := "test"; action := act;
     confidence := Some conf; horizon := "24h"; expectedDirection := dir;
     triggerLevel := None; stopLevel := None; sizeChangePct := None;
     scenarioLabel := None; resolved := false; outcome := None |}.

Definition buyAapl : Prediction := callOn "AAPL" "BUY" (Some "up"%string) 0.7.

(** ** Vocabulary of the statements *)

Section Counting.
Variable K : Type.
Variable eqb : K -> K -> bool.
Variable keyFn : Prediction -> option K.

(** The prediction falls in the group of key [k]. *)
Definition keyMatches (k : K) (p : Prediction) : bool :=
  match keyFn p with
  | Some k' => eqb k' k
  | None => false
  end.

(** How many predictions of [l] fall in the group, and how many of those
    are correct. *)
Definition countIn (k : K) (l : list Prediction) : nat :=
  List.length (filter (keyMatches k) l).

Definition correctIn (k : K) (l : list Prediction) : nat :=
  List.length (filter (fun p => keyMatches k p && isCorrect p) l).
End Counting.
Arguments keyMatches {K} eqb keyFn k p.
Arguments countIn {K} eqb keyFn k l.
Arguments correctIn {K} eqb keyFn k l.

(** A group after some more predictions were counted into it. *)
Definition addCounts (g : option Tally) (n c : nat) : option Tally :=
  match g with
  | Some t => Some (mkTally (tallyTotal t + n) (tallyCorrect t + c))
  | None => if (n =? 0)%nat then None else Some (mkTally n c)
  end.




(** Correct predictions among the resolved ones. *)
Definition hits (preds : list Prediction) : nat :=
  List.length (filter isCorrect (filter isResolved preds)).




(** A resolved BUY call with the given confidence and verdict. *)
Definition scoredCall (sym : string) (conf : Q) (ok : bool) : Prediction :=
  withOutcome (callOn sym "BUY" (Some "up"%string) conf)
    {| resolvedDate := ymd 2026 2 15;
       actualDirection := if ok then "up" else "down";
       pnlPctChange := if ok then 0.1 else -0.1; mvChange := 0;
       correct := ok; stopHit := false;
       positionExited := false; positionEntered := false |}.

(** Three resolved calls at confidence 0.9, none correct: one band. *)
Definition threeMissesAt09 : list Prediction :=
  [scoredCall "A" 0.9 false; scoredCall "B" 0.9 false; scoredCall "C" 0.9 false].

(** Three resolved calls at confidence 0.7, two correct. *)
Definition threeCallsAt07 : list Prediction :=
  [scoredCall "A" 0.7 true; scoredCall "B" 0.7 true; scoredCall "C" 0.7 false].

(** The calibration key of a prediction, and the counts of a band. *)
Definition bandKey (p : Prediction) : option Q := option_map bandOf (confidence p).

Definition countBand (band : Q) (l : list Prediction) : nat :=
  countIn Qeq_bool bandKey band l.

Definition hitsBand (band : Q) (l : list Prediction) : nat :=
  correctIn Qeq_bool bandKey band l.

(** Keys of a map are pairwise different for the map's equality. *)
Fixpoint distinctKeys {K V : Type} (eqb : K -> K -> bool) (m : list (K * V)) : Prop :=
  match m with
  | [] => True
  | (k, _) :: rest =>
      existsb (fun e => eqb (fst e) k) rest = false /\ distinctKeys eqb rest
  end.

(** Three misses at 0.9 and two at 0.3: two bands. *)
Definition fiveMisses : list Prediction :=
  threeMissesAt09 ++ [scoredCall "D" 0.3 false; scoredCall "E" 0.3 false].

(** A probability source that [parseProb] reads into [0, 1]: a number
    between 0 and 100, a string whose first run of digits and dots reads as
    at most 100, or a value that is not read at all. *)
Definition readsAsPercent (s : string) : bool :=
  match firstNumericRun s with
  | Some m =>
      match parseFloatString m with
      | Some num => Qle_bool num 100
      | None => true
      end
  | None => true
  end.

Definition probInRange (v : JsValue) : bool :=
  match v with
  | JNum q => Qle_bool 0 q && Qle_bool q 100
  | JStr s => readsAsPercent s
  | _ => true
  end.

Definition isProbKey (k : string) : bool :=
  String.eqb k "confidence" || String.eqb k "probability"
  || String.eqb k "prob" || String.eqb k "likelihood".

(** Every value stored under a probability key, anywhere in the document,
    is in range. *)
Fixpoint probBounded (v : JsValue) : bool :=
  match v with
  | JArr items => forallb probBounded items
  | JObj fields =>
      forallb (fun kv => (if isProbKey (fst kv) then probInRange (snd kv) else true)
                         && probBounded (snd kv)) fields
  | _ => true
  end.

(** A flat action list with a confidence given as 150. *)
Definition overconfidentDoc : JsValue :=
  JObj [("actions"%string,
         JArr [JObj [("symbol"%string, JStr "AAPL"); ("action"%string, JStr "BUY");
                     ("confidence"%string, JNum 150)]])].

(** The document of the extraction test: two wallets, three calls. *)
Definition testAction (sym act : string) (conf : Q) (h : string) : JsValue :=
  JObj [("symbol"%string, JStr sym); ("action"%string, JStr act);
        ("confidence"%string, JNum conf); ("horizon"%string, JStr h);
        ("sizeChange"%string, JStr "+2%"); ("triggerLevel"%string, JNum 150);
        ("stopLevel"%string, JNum 140)].

Definition testWallet (name : string) (actions : list JsValue) : JsValue :=
  JObj [("walletName"%string, JStr name); ("actions"%string, JArr actions);
        ("scenarios"%string, JArr [])].

Definition testDoc : JsValue :=
  JObj [("wallets"%string,
         JArr [testWallet "Thndr US / Sheet1"
                 [testAction "AAPL" "BUY" 0.75 "24h"; testAction "MSFT" "HOLD" 0.6 "2w"];
               testWallet "Thndr US / Crypto" [testAction "BTC" "SELL" 0.55 "24h"]]);
        ("scenarioMatrix"%string, JArr [])].

(** The confidence is [null] or a number of the unit interval. *)
Definition confidenceInUnit (p : Prediction) : Prop :=
  match confidence p with
  | None => True
  | Some c => 0 <= c <= 1
  end.

(** ** Runs of the update cycle *)

(** What step 1 appends for one analyst date, given the dates already in
    the ledger. *)
Definition appended (st : Store) (existingPredictionDates : list Date) (aiDate : Date)
  : list Prediction :=
  if existsb (Z.eqb aiDate) existingPredictionDates then []
  else match loadJson (aiFiles st) aiDate with
       | Some aiData => if truthy aiData then extractPredictions aiData aiDate else []
       | None => []
       end.

(** The invariant of a prediction record: unresolved exactly when it has no
    outcome. *)
Definition wellFormed (p : Prediction) : Prop :=
  resolved p = false <-> outcome p = None.

(** The ledgers that the update cycle produces: the first run starts from
    the empty ledger, a later run from the ledger that the previous run
    stored, on whatever reports and analyst files the directory then holds. *)
Inductive Reachable : Ledger -> Prop :=
| reach_first (st : Store) (currentDate : Date) (st' : Store) (l : Ledger) (path : string) :
    loadLedger st = emptyLedger ->
    updateLearningLedger st currentDate = Ok (st', (l, path)) ->
    Reachable l
| reach_next (l : Ledger) (st : Store) (currentDate : Date) (st' : Store) (l' : Ledger)
    (path : string) :
    Reachable l ->
    ledgerFile st = LedgerStored l ->
    updateLearningLedger st currentDate = Ok (st', (l', path)) ->
    Reachable l'.

(** [Later l l']: the ledger [l'] comes from [l] by zero or more update
    cycles. *)
Inductive Later : Ledger -> Ledger -> Prop :=
| later_same (l : Ledger) : Later l l
| later_run (l : Ledger) (st : Store) (currentDate : Date) (st' : Store)
    (l' l'' : Ledger) (path : string) :
    loadLedger st = l ->
    updateLearningLedger st currentDate = Ok (st', (l', path)) ->
    Later l' l'' ->
    Later l l''.

(** ** A reports directory, after the integration tests *)

Definition rawPosition (sym : string) (q sp mv pl pct : Q) : RawPosition :=
  {| rawSymbol := sym; rawMarketValue := Some mv; rawPnl := Some pl;
     rawPnlPct := Some pct; rawSpent := Some sp; rawQuantity := Some q |}.

Definition dailyReport (aaplPct : Q) : Report :=
  {| combinedPositions :=
       Some [rawPosition "AAPL" 10 3000 3600 600 aaplPct;
             rawPosition "BTC" 0.5 4000 5000 1000 0.25;
             rawPosition "COMI" 100 3000 3400 400 0.1333] |}.

Definition feb14Doc : JsValue :=
  JObj [("wallets"%string, JArr [testWallet "W1" [testAction "AAPL" "BUY" 0.7 "24h"]])].

(** A directory with the analyst file of 2026-02-14 and the given factual
    reports. *)
Definition directoryWith (reports : list (Date * option Report)) (l : LedgerFile) : Store :=
  {| reportFiles := reports; aiFiles := [(ymd 2026 2 14, Some feb14Doc)];
     ledgerFile := l; writable := true |}.

Definition feb14Only : list (Date * option Report) :=
  [(ymd 2026 2 14, Some (dailyReport 0.1))].

Definition feb14AndFeb16 : list (Date * option Report) :=
  [(ymd 2026 2 16, Some (dailyReport 0.2)); (ymd 2026 2 14, Some (dailyReport 0.1))].

Definition feb14AndFeb15 : list (Date * option Report) :=
  [(ymd 2026 2 14, Some (dailyReport 0.1)); (ymd 2026 2 15, Some (dailyReport 0.2))].

(** The predictions that a run returns, [None] when it throws. *)
Definition predictionsAfter (st : Store) (currentDate : Date) : option (list Prediction) :=
  match updateLearningLedger st currentDate with
  | Ok (_, (l, _)) => Some (predictions l)
  | Throw _ => None
  end.

(** The directory as a successful run leaves it. *)
Definition storeAfter (st : Store) (currentDate : Date) : Store :=
  match updateLearningLedger st currentDate with
  | Ok (st', _) => st'
  | Throw _ => st
  end.

(** The ledger that a run returns, the empty one when it throws. *)
Definition ledgerAfter (st : Store) (currentDate : Date) : Ledger :=
  match updateLearningLedger st currentDate with
  | Ok (_, (l, _)) => l
  | Throw _ => emptyLedger
  end.

(** The single band of [threeCallsAt07]. *)
Definition band07 : Band :=
  {| predictedProb := 7 # 10; actualRate := 6667 # 10000;
     sampleSize := 3; gap := 333 # 10000 |}.

(** A later day of the same directory: the ledger of the first run is on
    disk, the report of 2026-02-15 is gone and one of 2026-02-16 is there. *)
Definition firstRun : Store := directoryWith feb14AndFeb15 LedgerMissing.

Definition laterRun : Store :=
  directoryWith feb14AndFeb16 (ledgerFile (storeAfter firstRun (ymd 2026 2 15))).

(** The scenario matrix of the extraction test. *)
Definition scenarioDoc : JsValue :=
  JObj [("wallets"%string, JArr []);
        ("scenarioMatrix"%string,
         JArr [JObj [("label"%string, JStr "bull"); ("probability"%string, JNum 0.3);
                     ("horizon"%string, JStr "2w")];
               JObj [("label"%string, JStr "base"); ("probability"%string, JNum 0.5);
                     ("horizon"%string, JStr "2w")];
               JObj [("label"%string, JStr "bear"); ("probability"%string, JNum 0.2);
                     ("horizon"%string, JStr "2w")]])].

(** The stored form of a report position: [{ symbol, marketValue: pos.marketValue ?? 0, ... }]. *)
Definition positionOf (pos : RawPosition) : Position :=
  {| pos_symbol := rawSymbol pos;
     marketValue := orZero (rawMarketValue pos);
     pnl := orZero (rawPnl pos);
     pnlPct := orZero (rawPnlPct pos);
     spent := orZero (rawSpent pos);
     quantity := orZero (rawQuantity pos) |}.

(** Total market value of a snapshot. *)
Definition portfolioValue (m : PositionMap) : Q :=
  sumQ (map marketValue (map_values m)).

(** A report that lists AAPL twice. *)
Definition aaplTwice : Report :=
  {| combinedPositions :=
       Some [rawPosition "AAPL" 10 2700 2750 50 0.0185;
             rawPosition "MSFT" 5 2000 2100 100 0.05;
             rawPosition "AAPL" 12 3200 3300 100 0.03125] |}.

(** A portfolio scenario issued 2026-02-14. *)
Definition bullScenario : Prediction :=
  {| date := ymd 2026 2 14; symbol := "__SCENARIO__"; wallet := "combined";
     action := "SCENARIO"; confidence := Some 0.5; horizon := "1w";
     expectedDirection := Some "up"%string; triggerLevel := None; stopLevel := None;
     sizeChangePct := None; scenarioLabel := Some "bull"%string;
     resolved := false; outcome := None |}.

(** ** Portfolio health score *)

Module Health.

(** [combined.snapshot], [combined.risk] and [combined] of a daily report, with
    the fields that the score reads.  A missing field is [None]; the arrays of
    the risk section are read for their length only. *)
Record Snapshot := mkSnapshot {
  totalMarketValue : option Q;
  totalPnlPct : option Q
}.

Record Risk := mkRisk {
  overweightPositions : option (list JsValue);
  top3ConcentrationBreached : bool;          (* truthiness of the field *)
  top3Concentration : option Q;
  bigLosers : option (list JsValue);
  weirdValues : option (list JsValue)
}.

Record Analysis := mkAnalysis {
  positions : option (list RawPosition);
  snapshot : option Snapshot;
  risk : option Risk;
  positionCount : option Q
}.

(** [configUsed.risk] *)
Record RiskConfig := mkRiskConfig {
  maxPositionWeight : Q;
  top3ConcentrationWarn : Q;
  drawdownWarnPct : Q;
  takeProfitWarnPct : Q;
  minPositionWeight : Q
}.

Record DailyReport := mkDailyReport {
  combined : option Analysis;
  configUsedRisk : option RiskConfig;        (* [dailyReport.configUsed?.risk] *)
  failures : option (list JsValue)
}.

Record Dimensions := mkDimensions {
  diversification : Z;
  riskExposure : Z;
  performance : Z;
  dataQuality : Z
}.

Record HealthScore := mkHealthScore {
  score : Z;
  label : string;
  bar : string;
  dimensions : Dimensions
}.

(** [Math.max] and [Math.min] of two numbers. *)
Definition mathMax (a b : Q) : Q := if Qle_bool a b then b else a.
Definition mathMin (a b : Q) : Q := if Qle_bool a b then a else b.

Definition clamp (value min max : Q) : Q := mathMax min (mathMin max value).

(** [xs?.length ?? 0] *)
Definition lengthOrZero (xs : option (list JsValue)) : Q :=
  match xs with
  | Some l => inject_Z (Z.of_nat (List.length l))
  | None => 0
  end.

Definition scoreDiversification (analysis : Analysis) (cfg : RiskConfig) : Z :=
  match positions analysis with
  | None => 0%Z
  | Some [] => 0%Z
  | Some ps =>
      let totalMV :=
        match snapshot analysis with
        | Some s => orZero (totalMarketValue s)
        | None => 0
        end in
      if Qle_bool totalMV 0 then 0%Z else
      let weights := map (fun p => orZero (rawMarketValue p) / totalMV) ps in
      let hhi := fold_left (fun sum w => sum + w * w) weights 0 in
      let n := inject_Z (Z.of_nat (List.length ps)) in
      let perfectHHI := if Qgtb n 0 then 1 / n else 1 in
      let hhiScore := if Qgtb n 1 then clamp ((1 - hhi) / (1 - perfectHHI)) 0 1 else 0 in
      let countScore := clamp (n / 15) 0 1 in
      let underweight :=
        inject_Z (Z.of_nat
          (List.length (filter (fun w => Qltb w (minPositionWeight cfg)) weights))) in
      let underweightPenalty := clamp (underweight / n) 0 0.5 in
      let raw := (hhiScore * 0.5 + countScore * 0.3 + (1 - underweightPenalty) * 0.2) * 25 in
      mathRound (clamp raw 0 25)
  end.

Definition scoreRiskExposure (analysis : Analysis) (cfg : RiskConfig) : Z :=
  let score := 25 in
  let overweight :=
    match risk analysis with Some r => lengthOrZero (overweightPositions r) | None => 0 end in
  let score := score - overweight * 3 in
  let breached :=
    match risk analysis with Some r => top3ConcentrationBreached r | None => false end in
  let score := if breached then score - 8 else score in
  let top3 :=
    match risk analysis with Some r => orZero (top3Concentration r) | None => 0 end in
  let score :=
    if negb breached && Qgtb top3 (top3ConcentrationWarn cfg * 0.8) then score - 3
    else score in
  let losers :=
    match risk analysis with Some r => lengthOrZero (bigLosers r) | None => 0 end in
  let score := score - losers * 2 in
  mathRound (clamp score 0 25).

Definition scorePerformance (analysis : Analysis) : Z :=
  let pnlPct :=
    match snapshot analysis with Some s => orZero (totalPnlPct s) | None => 0 end in
  let score :=
    if Qgeb pnlPct 0.15 then 25
    else if Qgeb pnlPct 0.05 then 20 + (pnlPct - 0.05) * 50
    else if Qgeb pnlPct 0 then 15 + pnlPct * 100
    else if Qgeb pnlPct (-0.05) then 10 + (pnlPct + 0.05) * 100
    else if Qgeb pnlPct (-0.15) then 5 + (pnlPct + 0.15) * 50
    else mathMax 0 (5 + (pnlPct + 0.15) * 20) in
  mathRound (clamp score 0 25).

Definition scoreDataQuality (analysis : Analysis) (failures : list JsValue) : Z :=
  let score := 25 in
  let weirdCount :=
    match risk analysis with Some r => lengthOrZero (weirdValues r) | None => 0 end in
  let score := score - mathMin (weirdCount * 1) 10 in
  let score := score - inject_Z (Z.of_nat (List.length failures)) * 5 in
  let score :=
    if Qeq_bool (orZero (positionCount analysis)) 0 then score - 15 else score in
  mathRound (clamp score 0 25).

Definition healthLabel (score : Z) : string :=
  if (score >=? 90)%Z then "Excellent"
  else if (score >=? 75)%Z then "Good"
  else if (score >=? 60)%Z then "Fair"
  else if (score >=? 40)%Z then "Needs Attention"
  else if (score >=? 20)%Z then "Poor"
  else "Critical".

(** The two glyphs of the bar, U+2588 and U+2591, as UTF-8 bytes. *)
Definition fullBlock : string :=
  String (ascii_of_nat 226) (String (ascii_of_nat 150) (String (ascii_of_nat 136) EmptyString)).
Definition lightShade : string :=
  String (ascii_of_nat 226) (String (ascii_of_nat 150) (String (ascii_of_nat 145) EmptyString)).

Fixpoint repeatString (s : string) (n : nat) : string :=
  match n with
  | O => EmptyString
  | S n' => (s ++ repeatString s n')%string
  end.

(** [s.repeat(count)] for an integer count: a negative count throws. *)
Definition repeat (s : string) (count : Z) : Result string :=
  if (count <? 0)%Z then Throw "RangeError: Invalid count value"
  else Ok (repeatString s (Z.to_nat count)).

Definition healthBar (score : Z) : Result string :=
  let filled := mathRound (inject_Z score / 5) in
  let empty := (20 - filled)%Z in
  match repeat fullBlock filled with
  | Throw e => Throw e
  | Ok full =>
      match repeat lightShade empty with
      | Throw e => Throw e
      | Ok rest =>
          Ok ("[" ++ full ++ rest ++ "] " ++ intToString score ++ "/100")%string
      end
  end.

Definition defaultRisk : RiskConfig :=
  {| maxPositionWeight := 0.2; top3ConcentrationWarn := 0.55; drawdownWarnPct := -0.15;
     takeProfitWarnPct := 0.25; minPositionWeight := 0.02 |}.

Definition computeHealthScore (dailyReport : DailyReport) : Result HealthScore :=
  match combined dailyReport with
  | None =>
      match healthBar 0 with
      | Throw e => Throw e
      | Ok b =>
          Ok {| score := 0; label := "No Data"; bar := b;
                dimensions := {| diversification := 0; riskExposure := 0;
                                 performance := 0; dataQuality := 0 |} |}
      end
  | Some analysis =>
      let cfg :=
        match configUsedRisk dailyReport with Some r => r | None => defaultRisk end in
      let diversification := scoreDiversification analysis cfg in
      let riskExposure := scoreRiskExposure analysis cfg in
      let performance := scorePerformance analysis in
      let dataQuality :=
        scoreDataQuality analysis
          (match failures dailyReport with Some f => f | None => [] end) in
      let score := (diversification + riskExposure + performance + dataQuality)%Z in
      match healthBar score with
      | Throw e => Throw e
      | Ok b =>
          Ok {| score := score; label := healthLabel score; bar := b;
                dimensions := {| diversification := diversification;
                                 riskExposure := riskExposure;
                                 performance := performance;
                                 dataQuality := dataQuality |} |}
      end
  end.

End Health.

(** The total P&L percentage that [scorePerformance] reads, and the score
    it gives before clamping and rounding. *)
Definition pnlPctRead (analysis : Health.Analysis) : Q :=
  match Health.snapshot analysis with
  | Some s => orZero (Health.totalPnlPct s)
  | None => 0
  end.

Definition performanceCurve (pnlPct : Q) : Q :=
  if Qgeb pnlPct 0.15 then 25
  else if Qgeb pnlPct 0.05 then 20 + (pnlPct - 0.05) * 50
  else if Qgeb pnlPct 0 then 15 + pnlPct * 100
  else if Qgeb pnlPct (-0.05) then 10 + (pnlPct + 0.05) * 100
  else if Qgeb pnlPct (-0.15) then 5 + (pnlPct + 0.15) * 50
  else Health.mathMax 0 (5 + (pnlPct + 0.15) * 20).

(** Number of entries of an optional array. *)
Definition entries (xs : option (list JsValue)) : Z :=
  match xs with
  | Some l => Z.of_nat (List.length l)
  | None => 0%Z
  end.

(** A daily report with four positions of equal weight. *)
Definition evenReport : Health.DailyReport :=
  {| Health.combined :=
       Some {| Health.positions :=
                 Some [rawPosition "AAPL" 10 900 1000 100 0.1;
                       rawPosition "MSFT" 10 900 1000 100 0.1;
                       rawPosition "BTC" 1 900 1000 100 0.1;
                       rawPosition "COMI" 50 900 1000 100 0.1];
               Health.snapshot :=
                 Some {| Health.totalMarketValue := Some 4000;
                         Health.totalPnlPct := Some 0.1 |};
               Health.risk :=
                 Some {| Health.overweightPositions := Some [JStr "AAPL"];
                         Health.top3ConcentrationBreached := true;
                         Health.top3Concentration := Some 0.75;
                         Health.bigLosers := Some [];
                         Health.weirdValues := None |};
               Health.positionCount := Some 4 |};
     Health.configUsedRisk := None;
     Health.failures := None |}.

(** ** Day-over-day diff report *)

Module Diff.

(** The parts of a daily report that the diff reads; a missing field is
    [None]. *)
Record Snapshot := mkSnapshot {
  totalMarketValue : option Q;
  totalPnl : option Q;
  totalPnlPct : option Q
}.

Record Combined := mkCombined {
  positions : option (list RawPosition);
  snapshot : option Snapshot;
  positionCount : option Q
}.

Record Report := mkReport { combined : option Combined }.

(** The reports directory: the dates that have a [YYYY-MM-DD.json] file; a
    file whose content is [None] cannot be read as JSON. *)
Definition Directory := list (Date * option Report).

Definition loadReport (dir : Directory) (d : Date) : option Report :=
  match assoc_get Z.eqb d dir with
  | Some content => content
  | None => None
  end.

(** The last report date before [currentDate]. *)
Definition findPreviousDate (dir : Directory) (currentDate : Date) : option Date :=
  let dates := sortBy Z.leb (filter (fun d => (d <? currentDate)%Z) (map fst dir)) in
  if (0 <? List.length dates)%nat then nth_error dates (List.length dates - 1)
  else None.

(** A value of the position map.  The weight is a finite number here, so
    [round4] never gives [null]. *)
Record Entry := mkEntry {
  symbol : string;
  marketValue : Q;
  pnl : Q;
  pnlPct : Q;
  spent : Q;
  quantity : Q;
  weight : Q
}.

Definition positionMap (report : Report) : list (string * Entry) :=
  match combined report with
  | None => []
  | Some c =>
      match positions c with
      | None => []
      | Some ps =>
          let totalMV :=
            match snapshot c with
            | Some s => match totalMarketValue s with Some t => t | None => 1 end
            | None => 1
            end in
          fold_left
            (fun m pos =>
               let w :=
                 if Qgtb totalMV 0 then orZero (rawMarketValue pos) / totalMV else 0 in
               map_set (rawSymbol pos)
                 {| symbol := rawSymbol pos;
                    marketValue := orZero (rawMarketValue pos);
                    pnl := orZero (rawPnl pos);
                    pnlPct := orZero (rawPnlPct pos);
                    spent := orZero (rawSpent pos);
                    quantity := orZero (rawQuantity pos);
                    weight := round4 w |} m)
            ps []
      end
  end.

Record NewPosition := mkNewPosition {
  np_symbol : string;
  np_marketValue : Q;
  np_weight : Q;
  np_pnl : Q
}.

Record ClosedPosition := mkClosedPosition {
  cp_symbol : string;
  lastMarketValue : Q;
  lastWeight : Q;
  finalPnl : Q
}.

Record Change := mkChange {
  ch_symbol : string;
  weightBefore : Q;
  weightAfter : Q;
  weightDelta : Q;
  pnlBefore : Q;
  pnlAfter : Q;
  pnlDelta : Q;
  pnlPctDelta : Q;
  mvDelta : Q
}.

Record PortfolioDelta := mkPortfolioDelta {
  marketValueBefore : Q;
  marketValueAfter : Q;
  marketValueDelta : Q;
  pd_pnlBefore : Q;
  pd_pnlAfter : Q;
  pd_pnlDelta : Q;
  pnlPctBefore : Q;
  pnlPctAfter : Q;
  pd_pnlPctDelta : Q;
  positionCountBefore : Q;
  positionCountAfter : Q
}.

Record DiffReport := mkDiffReport {
  currentDate : Date;
  previousDate : Date;
  portfolioDelta : PortfolioDelta;
  newPositions : list NewPosition;
  closedPositions : list ClosedPosition;
  changes : list Change;
  biggestWeightGainers : list Change;
  biggestWeightLosers : list Change;
  biggestPnlGainers : list Change;
  biggestPnlLosers : list Change
}.

Inductive DiffResult : Type :=
| Unavailable (reason : string)          (* [{ available: false, reason }] *)
| Available (report : DiffReport).

(** [new Set(keys)]: the keys in order of first occurrence. *)
Fixpoint setOf (seen : list string) (keys : list string) : list string :=
  match keys with
  | [] => []
  | k :: rest =>
      if existsb (String.eqb k) seen then setOf seen rest
      else k :: setOf (k :: seen) rest
  end.

(** The three arrays that the loop over the symbols fills. *)
Record Buckets := mkBuckets {
  bucketNew : list NewPosition;
  bucketClosed : list ClosedPosition;
  bucketChanges : list Change
}.

Definition classify (currMap prevMap : list (string * Entry)) (acc : Buckets)
    (s : string) : Buckets :=
  match map_get s currMap, map_get s prevMap with
  | Some curr, None =>
      {| bucketNew :=
           bucketNew acc
           ++ [ {| np_symbol := s; np_marketValue := marketValue curr;
                   np_weight := weight curr; np_pnl := pnl curr |} ];
         bucketClosed := bucketClosed acc;
         bucketChanges := bucketChanges acc |}
  | None, Some prev =>
      {| bucketNew := bucketNew acc;
         bucketClosed :=
           bucketClosed acc
           ++ [ {| cp_symbol := s; lastMarketValue := marketValue prev;
                   lastWeight := weight prev; finalPnl := pnl prev |} ];
         bucketChanges := bucketChanges acc |}
  | Some curr, Some prev =>
      {| bucketNew := bucketNew acc;
         bucketClosed := bucketClosed acc;
         bucketChanges :=
           bucketChanges acc
           ++ [ {| ch_symbol := s;
                   weightBefore := weight prev;
                   weightAfter := weight curr;
                   weightDelta := round4 (weight curr - weight prev);
                   pnlBefore := pnl prev;
                   pnlAfter := pnl curr;
                   pnlDelta := round4 (pnl curr - pnl prev);
                   pnlPctDelta := round4 (pnlPct curr - pnlPct prev);
                   mvDelta := round4 (marketValue curr - marketValue prev) |} ] |}
  | None, None => acc
  end.

(** [report.combined?.snapshot ?? {}], one field of it, [?? 0]. *)
Definition snapshotField (report : Report) (field : Snapshot -> option Q) : Q :=
  match combined report with
  | Some c => match snapshot c with Some s => orZero (field s) | None => 0 end
  | None => 0
  end.

Definition countOf (report : Report) : Q :=
  match combined report with
  | Some c => orZero (positionCount c)
  | None => 0
  end.

Definition buildDiffReport (dir : Directory) (currentDate : Date)
    (compareDate : option Date) : DiffResult :=
  let prevDate :=
    match compareDate with
    | Some d => Some d
    | None => findPreviousDate dir currentDate
    end in
  match prevDate with
  | None => Unavailable "no previous report found"
  | Some prevDate =>
      match loadReport dir currentDate, loadReport dir prevDate with
      | Some currentReport, Some previousReport =>
          let currMap := positionMap currentReport in
          let prevMap := positionMap previousReport in
          let allSymbols := setOf [] (map fst currMap ++ map fst prevMap) in
          let buckets :=
            fold_left (classify currMap prevMap) allSymbols (mkBuckets [] [] []) in
          let changes :=
            sortBy (fun a b => Qle_bool (Qabs (weightDelta b)) (Qabs (weightDelta a)))
                   (bucketChanges buckets) in
          Available
            {| currentDate := currentDate;
               previousDate := prevDate;
               portfolioDelta :=
                 {| marketValueBefore := snapshotField previousReport totalMarketValue;
                    marketValueAfter := snapshotField currentReport totalMarketValue;
                    marketValueDelta :=
                      round4 (snapshotField currentReport totalMarketValue
                              - snapshotField previousReport totalMarketValue);
                    pd_pnlBefore := snapshotField previousReport totalPnl;
                    pd_pnlAfter := snapshotField currentReport totalPnl;
                    pd_pnlDelta :=
                      round4 (snapshotField currentReport totalPnl
                              - snapshotField previousReport totalPnl);
                    pnlPctBefore := snapshotField previousReport totalPnlPct;
                    pnlPctAfter := snapshotField currentReport totalPnlPct;
                    pd_pnlPctDelta :=
                      round4 (snapshotField currentReport totalPnlPct
                              - snapshotField previousReport totalPnlPct);
                    positionCountBefore := countOf previousReport;
                    positionCountAfter := countOf currentReport |};
               newPositions := bucketNew buckets;
               closedPositions := bucketClosed buckets;
               changes := firstn 20 changes;
               biggestWeightGainers :=
                 firstn 5 (filter (fun c => Qgtb (weightDelta c) 0) changes);
               biggestWeightLosers :=
                 firstn 5 (filter (fun c => Qltb (weightDelta c) 0) changes);
               biggestPnlGainers :=
                 firstn 5 (sortBy (fun a b => Qle_bool (pnlDelta b) (pnlDelta a)) changes);
               biggestPnlLosers :=
                 firstn 5 (sortBy (fun a b => Qle_bool (pnlDelta a) (pnlDelta b)) changes)
            |}
      | _, _ => Unavailable "could not load one or both reports"
      end
  end.

End Diff.

(** The figures of a change are those of the two entries of its symbol,
    the deltas rounded to four decimals. *)
Definition changeOf (currMap prevMap : list (string * Diff.Entry)) (c : Diff.Change) : Prop :=
  exists curr prev : Diff.Entry,
    map_get (Diff.ch_symbol c) currMap = Some curr
    /\ map_get (Diff.ch_symbol c) prevMap = Some prev
    /\ Diff.weightBefore c = Diff.weight prev
    /\ Diff.weightAfter c = Diff.weight curr
    /\ Diff.weightDelta c = round4 (Diff.weight curr - Diff.weight prev)
    /\ Diff.pnlDelta c = round4 (Diff.pnl curr - Diff.pnl prev)
    /\ Diff.pnlPctDelta c = round4 (Diff.pnlPct curr - Diff.pnlPct prev)
    /\ Diff.mvDelta c = round4 (Diff.marketValue curr - Diff.marketValue prev).

(** Is the symbol a key of the position map. *)
Definition held (m : list (string * Diff.Entry)) (s : string) : bool :=
  isSome (map_get s m).

(** Two days of a directory: MSFT is closed, BTC is new, AAPL is in both. *)
Definition diffReportOf (total : Q) (ps : list RawPosition) : Diff.Report :=
  {| Diff.combined :=
       Some {| Diff.positions := Some ps;
               Diff.snapshot :=
                 Some {| Diff.totalMarketValue := Some total;
                         Diff.totalPnl := Some 100; Diff.totalPnlPct := Some 0.05 |};
               Diff.positionCount := Some 2 |} |}.

Definition twoDays : Diff.Directory :=
  [(ymd 2026 2 14,
    Some (diffReportOf 4000 [rawPosition "AAPL" 10 2700 3000 300 0.1;
                             rawPosition "MSFT" 5 900 1000 100 0.1]));
   (ymd 2026 2 15,
    Some (diffReportOf 5000 [rawPosition "AAPL" 10 2700 3300 600 0.2;
                             rawPosition "BTC" 1 1500 1700 200 0.13]))].

(** The diff that a call returns, empty when it is unavailable. *)
Definition diffOf (dir : Diff.Directory) (currentDate : Date) (compareDate : option Date)
  : option Diff.DiffReport :=
  match Diff.buildDiffReport dir currentDate compareDate with
  | Diff.Available d => Some d
  | Diff.Unavailable _ => None
  end.

(** ** The scorecard: bars *)

Module Scorecard.

(** [accuracyBar(accuracy, width)]: [None] is a value that is not a finite
    number ([null], [undefined], [NaN]); the width is an integer. *)
Definition accuracyBar (accuracy : option Q) (width : Z) : Result string :=
  match accuracy with
  | None => Health.repeat Health.lightShade width
  | Some a =>
      let filled := mathRound (a * inject_Z width) in
      match Health.repeat Health.fullBlock filled with
      | Throw e => Throw e
      | Ok full =>
          match Health.repeat Health.lightShade (width - filled) with
          | Throw e => Throw e
          | Ok rest => Ok (full ++ rest)%string
          end
      end
  end.

End Scorecard.

(** ** Historical trends *)

Module Trends.

(** [values.slice(-n)]; [slice(-0)] is the whole array. *)
Definition sliceLast {A : Type} (n : nat) (values : list A) : list A :=
  if (n =? 0)%nat then values else skipn (List.length values - n) values.

(** [null] below [window] values; the [NaN] of an empty slice ([0 / 0])
    reads as [None] too. *)
Definition computeMovingAverage (values : list Q) (window : nat) : option Q :=
  if (List.length values <? window)%nat then None
  else
    let slice := sliceLast window values in
    match slice with
    | [] => None
    | _ => Some (sumQ slice / inject_Z (Z.of_nat (List.length slice)))
    end.

Definition computeMomentum (values : list Q) : Q :=
  if (List.length values <? 2)%nat then 0
  else
    let recent := nth (List.length values - 1) values 0 in
    let previous := nth (List.length values - 2) values 0 in
    if Qeq_bool previous 0 then 0
    else (recent - previous) / Qabs previous.

(** [l.every((v, i) => i === 0 || rel(v, l[i - 1]))] *)
Fixpoint everyStep (rel : Q -> Q -> bool) (l : list Q) : bool :=
  match l with
  | previous :: rest =>
      match rest with
      | v :: _ => rel v previous && everyStep rel rest
      | [] => true
      end
  | [] => true
  end.

Definition classifyTrend (values : list Q) : string :=
  if (List.length values <? 3)%nat then "insufficient_data"%string
  else
    let recent3 := sliceLast 3 values in
    let allUp := everyStep Qgeb recent3 in
    let allDown := everyStep Qle_bool recent3 in
    if allUp then "uptrend"%string
    else if allDown then "downtrend"%string
    else "sideways"%string.

(** One position of one report: [{ symbol, marketValue, pnl, pnlPct, spent }],
    each missing number read as 0. *)
Record PositionData := mkPositionData {
  symbol : string;
  marketValue : Q;
  pnl : Q;
  pnlPct : Q;
  spent : Q
}.

Definition extractPositionMap (report : Diff.Report) : list (string * PositionData) :=
  match Diff.combined report with
  | None => []
  | Some c =>
      match Diff.positions c with
      | None => []
      | Some ps =>
          fold_left
            (fun m pos =>
               map_set (rawSymbol pos)
                 {| symbol := rawSymbol pos;
                    marketValue := orZero (rawMarketValue pos);
                    pnl := orZero (rawPnl pos);
                    pnlPct := orZero (rawPnlPct pos);
                    spent := orZero (rawSpent pos) |} m)
            ps []
      end
  end.

(** An entry of a symbol's history: [{ date, ...data }]. *)
Definition History := list (Date * PositionData).

Record PortfolioPoint := mkPortfolioPoint {
  pp_date : Date;
  pp_totalMarketValue : Q;
  pp_totalPnl : Q;
  pp_totalPnlPct : Q;
  pp_positionCount : Q
}.

(** [if (!symbolHistory.has(symbol)) symbolHistory.set(symbol, []);
     symbolHistory.get(symbol).push({ date, ...data })] *)
Definition pushHistory (date : Date) (symbolHistory : list (string * History))
    (entry : string * PositionData) : list (string * History) :=
  let existing :=
    match map_get (fst entry) symbolHistory with
    | Some h => h
    | None => []
    end in
  map_set (fst entry) (existing ++ [(date, snd entry)]) symbolHistory.

(** The body of the loop over the loaded reports. *)
Definition track (acc : list (string * History) * list PortfolioPoint)
    (dated : Date * Diff.Report) : list (string * History) * list PortfolioPoint :=
  let '(date, report) := dated in
  let symbolHistory := fold_left (pushHistory date) (extractPositionMap report) (fst acc) in
  let portfolioHistory :=
    match Diff.combined report with
    | Some c =>
        match Diff.snapshot c with
        | Some s =>
            snd acc
            ++ [ {| pp_date := date;
                    pp_totalMarketValue := orZero (Diff.totalMarketValue s);
                    pp_totalPnl := orZero (Diff.totalPnl s);
                    pp_totalPnlPct := orZero (Diff.totalPnlPct s);
                    pp_positionCount := orZero (Diff.positionCount c) |} ]
        | None => snd acc
        end
    | None => snd acc
    end in
  (symbolHistory, portfolioHistory).

(** [xs[xs.length - 1] ?? null] *)
Definition latest (xs : list Q) : option Q := nth_error xs (List.length xs - 1).

(** The momentum is a finite number here, so [round4] never gives [null]. *)
Record PositionTrend := mkPositionTrend {
  pt_symbol : string;
  dataPoints : nat;
  dates : list Date;
  pnlHistory : list Q;
  pnlPctHistory : list Q;
  marketValueHistory : list Q;
  trend : string;
  momentum : Q;
  movingAvgPnl3 : option Q;
  movingAvgPnl5 : option Q;
  latestPnl : option Q;
  latestPnlPct : option Q
}.

Record PortfolioTrend := mkPortfolioTrend {
  pf_dataPoints : nat;
  pf_dates : list Date;
  pf_marketValueHistory : list Q;
  pf_pnlHistory : list Q;
  pf_trend : string;
  pf_momentum : Q;
  movingAvgMV3 : option Q;
  movingAvgMV5 : option Q
}.

Definition positionTrend (entry : string * History) : PositionTrend :=
  let history := snd entry in
  let pnlValues := map (fun h => pnl (snd h)) history in
  let mvValues := map (fun h => marketValue (snd h)) history in
  let pnlPctValues := map (fun h => pnlPct (snd h)) history in
  {| pt_symbol := fst entry;
     dataPoints := List.length history;
     dates := map fst history;
     pnlHistory := pnlValues;
     pnlPctHistory := pnlPctValues;
     marketValueHistory := mvValues;
     trend := classifyTrend pnlValues;
     momentum := round4 (computeMomentum mvValues);
     movingAvgPnl3 := round4_nullable (computeMovingAverage pnlValues 3);
     movingAvgPnl5 := round4_nullable (computeMovingAverage pnlValues 5);
     latestPnl := latest pnlValues;
     latestPnlPct := latest pnlPctValues |}.

Record HistoricalTrends := mkHistoricalTrends {
  lookbackDays : nat;
  datesUsed : list Date;
  positions : list PositionTrend;
  portfolio : PortfolioTrend
}.

Inductive TrendsResult : Type :=
| Unavailable (reason : string) (dates : list Date)   (* [available: false] *)
| Available (trends : HistoricalTrends).

Definition buildHistoricalTrends (dir : Diff.Directory) (currentDate : Date)
    (lookbackDays : nat) : TrendsResult :=
  let allDates := sortBy Z.leb (map fst dir) in
  let cutoff := sliceLast lookbackDays (filter (fun d => (d <=? currentDate)%Z) allDates) in
  if (List.length cutoff <? 2)%nat then
    Unavailable "fewer than 2 historical reports" cutoff
  else
    let reports :=
      flat_map (fun date =>
                  match Diff.loadReport dir date with
                  | Some report => [(date, report)]
                  | None => []
                  end) cutoff in
    if (List.length reports <? 2)%nat then
      Unavailable "could not load enough reports" cutoff
    else
      let tracked := fold_left track reports ([], []) in
      let positionTrends := map positionTrend (fst tracked) in
      let portfolioHistory := snd tracked in
      let mvValues := map pp_totalMarketValue portfolioHistory in
      let pnlValues := map pp_totalPnl portfolioHistory in
      Available
        {| lookbackDays := lookbackDays;
           datesUsed := map fst reports;
           positions :=
             sortBy (fun a b => Qle_bool (Qabs (momentum b)) (Qabs (momentum a)))
                    positionTrends;
           portfolio :=
             {| pf_dataPoints := List.length portfolioHistory;
                pf_dates := map pp_date portfolioHistory;
                pf_marketValueHistory := mvValues;
                pf_pnlHistory := pnlValues;
                pf_trend := classifyTrend mvValues;
                pf_momentum := round4 (computeMomentum mvValues);
                movingAvgMV3 := round4_nullable (computeMovingAverage mvValues 3);
                movingAvgMV5 := round4_nullable (computeMovingAverage mvValues 5) |} |}.

End Trends.

(** Every history of the map is non-empty and made of dates of [D], and the
    symbols are distinct. *)
Definition historiesOver (D : list Date) (symbolHistory : list (string * Trends.History))
  : Prop :=
  distinctKeys String.eqb symbolHistory
  /\ forall s h, In (s, h) symbolHistory -> h <> [] /\ incl (map fst h) D.

(** A number with four decimals, as the report writer stores a position's
    [pnlPct] (src/googleSheets.js, [aggregatePositions]: [pnlPct: round(pnlPct)]
    with [round(value, digits = 4)], the same rounding as [round4]). *)
Definition fourDecimals (q : Q) : Prop := round4 q == q.


(** The directory with another content of [ai-learning.json]. *)
Definition withLedgerFile (st : Store) (f : LedgerFile) : Store :=
  {| reportFiles := reportFiles st; aiFiles := aiFiles st;
     ledgerFile := f; writable := writable st |}.




(* ================================================================== *)
(** * Properties *)

(** Sanity checks of the text helpers. *)
Example isoDate_demo : isoDate (ymd 2026 2 14) = "2026-02-14"%string
  /\ isoDate (addDays (ymd 2026 2 28) 1) = "2026-03-01"%string
  /\ isoDate (addDays (ymd 2024 2 28) 1) = "2024-02-29"%string
  /\ numberToString 0.75 = "0.75"%string /\ numberToString (-12) = "-12"%string
  /\ toFixed0 66.67 = "67"%string /\ trim (toUpperCase "  buy more ") = "BUY MORE"%string
  /\ includes "2 weeks" "week" = true.
Proof. vm_compute. repeat split. Qed.

(** The embedding gives what test/aiLearning.test.js expects of the source. *)
Example agrees_with_the_tests :
  map (fun s => normalizeAction (JStr s))
      ["Buy More"; "ADD"; "EXIT"; "keep"; "LIGHTEN"; "SOMETHING_ELSE"]%string
  = ["BUY"; "BUY"; "SELL"; "HOLD"; "TRIM"; "UNKNOWN"]%string
  /\ normalizeAction JNull = "UNKNOWN"%string
  /\ map parseProb [JNum 0.75; JNum 75; JStr "75%"; JStr "~70%"; JStr "0.65"; JNull;
                     JStr EmptyString; JStr "no probability"]
     = [Some 0.75; Some (75 / 100); Some (75 / 100); Some (70 / 100); Some 0.65;
        None; None; None]
  /\ map horizonToDays ["24h"; "1w"; "2w"; "1m"; "unknown"]%string = [1; 7; 14; 30; 1]%Z
  /\ map (fun p => (symbol p, action p, expectedDirection p, wallet p))
         (extractPredictions testDoc (ymd 2026 2 15))
     = [("AAPL", "BUY", Some "up", "Thndr US / Sheet1");
        ("MSFT", "HOLD", Some "flat", "Thndr US / Sheet1");
        ("BTC", "SELL", Some "down", "Thndr US / Crypto")]%string
  /\ map (fun p => (scenarioLabel p, expectedDirection p))
         (extractPredictions scenarioDoc (ymd 2026 2 15))
     = [(Some "bull", Some "up"); (Some "base", Some "flat");
        (Some "bear", Some "down")]%string
  /\ extractPredictions JNull (ymd 2026 2 15) = []
  /\ extractPredictions (JNum 42) (ymd 2026 2 15) = []
  /\ computeCalibration threeCallsAt07 = [band07].
Proof. vm_compute. repeat split. Qed.

(** ** Comparisons and rounding *)

Lemma Qltb_lt (a b : Q) : Qltb a b = true <-> a < b.
Proof.
  unfold Qltb. rewrite negb_true_iff. split; intro H.
  - apply Qnot_le_lt. intro Hle. apply Qle_bool_iff in Hle. congruence.
  - destruct (Qle_bool b a) eqn:E; [|reflexivity].
    apply Qle_bool_iff in E. exfalso. exact (Qlt_not_le _ _ H E).
Qed.

Lemma Qltb_ge (a b : Q) : Qltb a b = false <-> b <= a.
Proof.
  unfold Qltb. rewrite negb_false_iff. apply Qle_bool_iff.
Qed.

Lemma Qgtb_gt (a b : Q) : Qgtb a b = true <-> b < a.
Proof. apply Qltb_lt. Qed.

Lemma Qgtb_le (a b : Q) : Qgtb a b = false <-> a <= b.
Proof. apply Qltb_ge. Qed.

Lemma Qfloor_ge_iff (k : Z) (x : Q) : (k <= Qfloor x)%Z <-> inject_Z k <= x.
Proof.
  split; intro H.
  - apply Qle_trans with (inject_Z (Qfloor x)); [|apply Qfloor_le].
    rewrite <- Zle_Qle. exact H.
  - rewrite <- (Qfloor_Z k). apply Qfloor_resp_le. exact H.
Qed.

Lemma Qfloor_lt_iff (k : Z) (x : Q) : (Qfloor x < k)%Z <-> x < inject_Z k.
Proof.
  split; intro H.
  - apply Qnot_le_lt. intro Hle. apply Qfloor_ge_iff in Hle. lia.
  - destruct (Z_lt_le_dec (Qfloor x) k) as [Hlt|Hge]; [exact Hlt|].
    apply Qfloor_ge_iff in Hge. exfalso. exact (Qlt_not_le _ _ H Hge).
Qed.

(** [Math.round(x) >= k] exactly when [x >= k - 1/2]. *)
Lemma mathRound_ge_iff (k : Z) (x : Q) : (k <= mathRound x)%Z <-> inject_Z k - (1 # 2) <= x.
Proof.
  unfold mathRound. rewrite Qfloor_ge_iff. split; intro H; lra.
Qed.

Lemma mathRound_lt_iff (k : Z) (x : Q) : (mathRound x < k)%Z <-> x < inject_Z k - (1 # 2).
Proof.
  unfold mathRound. rewrite Qfloor_lt_iff. split; intro H; lra.
Qed.

(** Rounding to four decimals moves a number by at most half a unit of
    the fourth decimal. *)
Lemma round4_close (v : Q) : v - (1 # 20000) < round4 v <= v + (1 # 20000).
Proof.
  unfold round4.
  pose proof (proj1 (mathRound_ge_iff (mathRound (v * 10000)) (v * 10000)) (Z.le_refl _)) as Hlo.
  assert (Hhi : v * 10000 < inject_Z (mathRound (v * 10000) + 1) - (1 # 2)).
  { apply mathRound_lt_iff. lia. }
  rewrite inject_Z_plus in Hhi.
  set (m := mathRound (v * 10000)) in *. clearbody m.
  assert (Hm : m # 10000 == inject_Z m / 10000).
  { unfold Qeq, Qdiv, Qmult, Qinv, inject_Z. simpl. lia. }
  rewrite Hm. split.
  - apply Qlt_shift_div_l; [reflexivity|]. change (inject_Z 1) with 1 in Hhi. lra.
  - apply Qle_shift_div_r; [reflexivity|]. lra.
Qed.

Lemma round4_error (v : Q) : Qabs (round4 v - v) <= 1 # 20000.
Proof.
  destruct (round4_close v) as [Hlo Hhi].
  apply Qabs_Qle_condition. split; lra.
Qed.

Lemma mathRound_mono (x y : Q) : x <= y -> (mathRound x <= mathRound y)%Z.
Proof.
  intro H. unfold mathRound. apply Qfloor_resp_le. lra.
Qed.

Lemma mathRound_int (x : Q) (z : Z) : x == inject_Z z -> mathRound x = z.
Proof.
  intro H. apply Z.le_antisymm.
  - apply Z.lt_succ_r. apply mathRound_lt_iff. unfold Z.succ.
    rewrite inject_Z_plus. change (inject_Z 1) with 1. lra.
  - apply mathRound_ge_iff. lra.
Qed.

Lemma Qmake_10000 (m : Z) : m # 10000 == inject_Z m / 10000.
Proof.
  unfold Qeq, Qdiv, Qmult, Qinv, inject_Z. simpl. lia.
Qed.

(** ** Numbers of four decimals *)

(** What [round] stores in a snapshot has four decimals, and so has the
    zero read for a missing value. *)
Lemma round4_fourDecimals (v : Q) : fourDecimals (round4 v).
Proof.
  unfold fourDecimals. unfold round4 at 1.
  rewrite (mathRound_int (round4 v * 10000) (mathRound (v * 10000))); [reflexivity|].
  unfold round4. rewrite Qmake_10000. field.
Qed.

Lemma zero_fourDecimals : fourDecimals 0.
Proof. unfold fourDecimals. reflexivity. Qed.


Lemma directionOf_cases (x : Q) :
  (0.005 < x /\ directionOf x = "up"%string)
  \/ (x < -0.005 /\ directionOf x = "down"%string)
  \/ (-0.005 <= x <= 0.005 /\ directionOf x = "flat"%string).
Proof.
  unfold directionOf.
  destruct (Qgtb x 0.005) eqn:Hup.
  - left. split; [apply Qgtb_gt; exact Hup | reflexivity].
  - apply Qgtb_le in Hup. destruct (Qltb x (-0.005)) eqn:Hdown.
    + right; left. split; [apply Qltb_lt; exact Hdown | reflexivity].
    + right; right. apply Qltb_ge in Hdown. repeat split; assumption.
Qed.

(** ** The verdict of the resolver *)

Lemma directionOf_range (x : Q) :
  directionOf x = "up"%string \/ directionOf x = "down"%string
  \/ directionOf x = "flat"%string.
Proof.
  destruct (directionOf_cases x) as [[_ H]|[[_ H]|[_ H]]]; auto.
Qed.

(** What [resolvePrediction] returns for an unresolved position call whose
    symbol is in one of the two snapshots. *)
Lemma resolvePrediction_tracked (p : Prediction) (beforePositions afterPositions : PositionMap)
    (rd : Date) :
  resolved p = false ->
  action p <> "SCENARIO"%string ->
  isSome (map_get (symbol p) beforePositions)
  || isSome (map_get (symbol p) afterPositions) = true ->
  let before := map_get (symbol p) beforePositions in
  let after := map_get (symbol p) afterPositions in
  let change := round4 (pnlPctOf after - pnlPctOf before) in
  resolvePrediction p beforePositions afterPositions rd =
  withOutcome p
    {| resolvedDate := rd; actualDirection := directionOf change;
       pnlPctChange := change;
       mvChange := round4 (marketValueOf after - marketValueOf before);
       correct := judge p (directionOf change) after;
       stopHit := checkStop p after;
       positionExited := isSome before && negb (isSome after);
       positionEntered := negb (isSome before) && isSome after |}.
Proof.
  intros Hres Hact Htracked. unfold resolvePrediction.
  rewrite Hres. apply String.eqb_neq in Hact. rewrite Hact.
  destruct (isSome (map_get (symbol p) beforePositions));
    destruct (isSome (map_get (symbol p) afterPositions));
    simpl in *; try reflexivity; discriminate.
Qed.

(** The verdict on a call whose direction is the one its action implies. *)
Lemma judge_coherent (p : Prediction) (dir : string) (after : option Position) :
  expectedDirection p = directionOfAction (action p) ->
  dir = "up"%string \/ dir = "down"%string \/ dir = "flat"%string ->
  (expects p "up" = true -> (judge p dir after = true <-> dir = "up"%string))
  /\ (expects p "down" = true ->
      (judge p dir after = true <-> dir = "down"%string \/ after = None))
  /\ (expects p "flat" = true -> (judge p dir after = true <-> dir <> "down"%string)).
Proof.
  intros Hcoh Hdir. unfold judge, expects. rewrite Hcoh. unfold directionOfAction.
  destruct (String.eqb_spec (action p) "BUY") as [EB|EB];
  destruct (String.eqb_spec (action p) "SELL") as [ES|ES];
  destruct (String.eqb_spec (action p) "TRIM") as [ET|ET];
  destruct (String.eqb_spec (action p) "HOLD") as [EH|EH];
  try (exfalso; congruence);
  destruct after as [a|];
  destruct Hdir as [ -> | [ -> | -> ] ]; simpl;
  repeat split; intros; try discriminate; try reflexivity; try congruence;
  try (left; reflexivity); try (right; reflexivity);
  match goal with
  | H : _ \/ _ |- _ => destruct H; discriminate
  | _ => idtac
  end.
Qed.
Lemma expects_iff (p : Prediction) (d : string) :
  expects p d = true <-> expectedDirection p = Some d.
Proof.
  unfold expects. destruct (expectedDirection p) as [e|].
  - rewrite String.eqb_eq. split; congruence.
  - split; discriminate.
Qed.

(** C1. An unresolved position call (not a SCENARIO) whose symbol is in the
    "before" snapshot is resolved, and for a call whose expected direction is
    the one its action implies: an up call is correct iff the actual
    direction is up; a down call is correct iff the actual direction is down
    or the symbol is absent from the "after" snapshot; a flat call (HOLD) is
    correct iff the actual direction is not down. *)
Theorem resolvePrediction_verdict (p : Prediction)
    (beforePositions afterPositions : PositionMap) (rd : Date) (b : Position) :
  resolved p = false ->
  action p <> "SCENARIO"%string ->
  expectedDirection p = directionOfAction (action p) ->
  map_get (symbol p) beforePositions = Some b ->
  exists o : Outcome,
    resolvePrediction p beforePositions afterPositions rd = withOutcome p o
    /\ (expectedDirection p = Some "up"%string ->
        (correct o = true <-> actualDirection o = "up"%string))
    /\ (expectedDirection p = Some "down"%string ->
        (correct o = true <->
         actualDirection o = "down"%string
         \/ map_get (symbol p) afterPositions = None))
    /\ (expectedDirection p = Some "flat"%string ->
        (correct o = true <-> actualDirection o <> "down"%string)).
Proof.
  intros Hres Hact Hcoh Hb.
  assert (Htracked : isSome (map_get (symbol p) beforePositions)
                     || isSome (map_get (symbol p) afterPositions) = true)
    by (rewrite Hb; reflexivity).
  rewrite (resolvePrediction_tracked p beforePositions afterPositions rd Hres Hact Htracked).
  eexists. split; [reflexivity|]. cbn [correct actualDirection].
  set (dir := directionOf _).
  destruct (judge_coherent p dir (map_get (symbol p) afterPositions) Hcoh
              (directionOf_range _)) as (Hup & Hdown & Hflat).
  split; [|split]; intro He; apply expects_iff in He.
  - exact (Hup He).
  - exact (Hdown He).
  - exact (Hflat He).
Qed.

Lemma resolvePrediction_verdict_witness :
  exists o : Outcome,
    resolvePrediction buyAapl [("AAPL"%string, aaplPosition 3000 300 0.1)]
      [("AAPL"%string, aaplPosition 3300 600 0.2)] (ymd 2026 2 15)
    = withOutcome buyAapl o
    /\ (expectedDirection buyAapl = Some "up"%string ->
        (correct o = true <-> actualDirection o = "up"%string))
    /\ (expectedDirection buyAapl = Some "down"%string ->
        (correct o = true <->
         actualDirection o = "down"%string
         \/ map_get (symbol buyAapl) [("AAPL"%string, aaplPosition 3300 600 0.2)] = None))
    /\ (expectedDirection buyAapl = Some "flat"%string ->
        (correct o = true <-> actualDirection o <> "down"%string)).
Proof.
  apply (resolvePrediction_verdict buyAapl [("AAPL"%string, aaplPosition 3000 300 0.1)]
           [("AAPL"%string, aaplPosition 3300 600 0.2)] (ymd 2026 2 15)
           (aaplPosition 3000 300 0.1)).
  - reflexivity.
  - discriminate.
  - reflexivity.
  - reflexivity.
Defined.

(** ** The dead zone *)



(** ** Maps and tallies *)

Section AssocFacts.
Variables K V : Type.
Variable eqb : K -> K -> bool.
Hypothesis eqb_refl : forall a, eqb a a = true.
Hypothesis eqb_sym : forall a b, eqb a b = eqb b a.
Hypothesis eqb_trans : forall a b c, eqb a b = true -> eqb b c = true -> eqb a c = true.

Lemma eqb_congr (a b c : K) : eqb a b = true -> eqb a c = eqb b c.
Proof.
  intro Hab. destruct (eqb b c) eqn:Hbc.
  - exact (eqb_trans _ _ _ Hab Hbc).
  - destruct (eqb a c) eqn:Hac; [|reflexivity].
    rewrite eqb_sym in Hab. rewrite (eqb_trans _ _ _ Hab Hac) in Hbc. discriminate.
Qed.

Lemma assoc_get_set (k k' : K) (v : V) (m : list (K * V)) :
  assoc_get eqb k' (assoc_set eqb k v m)
  = if eqb k k' then Some v else assoc_get eqb k' m.
Proof.
  induction m as [|[k0 v0] rest IH]; simpl.
  - reflexivity.
  - destruct (eqb k0 k) eqn:E0; simpl.
    + rewrite (eqb_congr _ _ k' E0). destruct (eqb k k'); reflexivity.
    + rewrite IH. destruct (eqb k0 k') eqn:E1; [|reflexivity].
      destruct (eqb k k') eqn:E2; [|reflexivity].
      rewrite eqb_sym in E2. rewrite (eqb_trans _ _ _ E1 E2) in E0. discriminate.
Qed.

Lemma assoc_get_equiv (k k' : K) (m : list (K * V)) :
  eqb k k' = true -> assoc_get eqb k m = assoc_get eqb k' m.
Proof.
  intro E. induction m as [|[k0 v0] rest IH]; simpl; [reflexivity|].
  rewrite IH. rewrite (eqb_sym k0 k), (eqb_sym k0 k'), (eqb_congr _ _ k0 E).
  reflexivity.
Qed.

End AssocFacts.

Section TallyFacts.
Variable K : Type.
Variable eqb : K -> K -> bool.
Variable keyFn : Prediction -> option K.
Hypothesis eqb_refl : forall a, eqb a a = true.
Hypothesis eqb_sym : forall a b, eqb a b = eqb b a.
Hypothesis eqb_trans : forall a b c, eqb a b = true -> eqb b c = true -> eqb a c = true.

Lemma tallyStep_get (k : K) (groups : list (K * Tally)) (p : Prediction) :
  assoc_get eqb k (tallyStep eqb keyFn groups p)
  = addCounts (assoc_get eqb k groups)
      (if keyMatches eqb keyFn k p then 1 else 0)
      (if keyMatches eqb keyFn k p && isCorrect p then 1 else 0).
Proof.
  unfold tallyStep, keyMatches. destruct (keyFn p) as [kp|]; simpl.
  - rewrite (assoc_get_set K Tally eqb eqb_sym eqb_trans).
    destruct (eqb kp k) eqn:E; simpl.
    + rewrite (assoc_get_equiv K Tally eqb eqb_sym eqb_trans _ _ groups E).
      destruct (assoc_get eqb k groups) as [[t c]|]; simpl;
        destruct (isCorrect p); simpl; rewrite ?Nat.add_0_r; reflexivity.
    + destruct (assoc_get eqb k groups) as [[t c]|]; simpl; [|reflexivity].
      rewrite !Nat.add_0_r. reflexivity.
  - destruct (assoc_get eqb k groups) as [[t c]|]; simpl; [|reflexivity].
    rewrite !Nat.add_0_r. reflexivity.
Qed.

Lemma tally_fold_get (k : K) (l : list Prediction) :
  forall groups : list (K * Tally),
    assoc_get eqb k (fold_left (tallyStep eqb keyFn) l groups)
    = addCounts (assoc_get eqb k groups)
        (countIn eqb keyFn k l) (correctIn eqb keyFn k l).
Proof.
  unfold countIn, correctIn.
  induction l as [|p rest IH]; intro groups; simpl.
  - destruct (assoc_get eqb k groups) as [[t c]|]; simpl; [|reflexivity].
    rewrite !Nat.add_0_r. reflexivity.
  - rewrite IH, tallyStep_get.
    destruct (keyMatches eqb keyFn k p); simpl;
      destruct (assoc_get eqb k groups) as [[t c]|]; simpl;
      try destruct (isCorrect p); simpl;
      try reflexivity; f_equal; f_equal; lia.
Qed.

(** The tally of a key: absent when nothing fell into it, otherwise the
    two counts. *)
Lemma tallyBy_get (k : K) (l : list Prediction) :
  assoc_get eqb k (tallyBy eqb keyFn l)
  = if (countIn eqb keyFn k l =? 0)%nat then None
    else Some (mkTally (countIn eqb keyFn k l) (correctIn eqb keyFn k l)).
Proof.
  unfold tallyBy. rewrite tally_fold_get. reflexivity.
Qed.
End TallyFacts.

(** ** Grouped accuracy *)

Lemma string_eqb_trans (a b c : string) :
  String.eqb a b = true -> String.eqb b c = true -> String.eqb a c = true.
Proof.
  rewrite !String.eqb_eq. congruence.
Qed.




Lemma resolvedCount_computeAccuracy (preds : list Prediction) :
  resolvedCount (computeAccuracy preds) = List.length (filter isResolved preds).
Proof.
  unfold computeAccuracy. destruct (filter isResolved preds); reflexivity.
Qed.

Lemma overall_computeAccuracy (preds : list Prediction) :
  overall (computeAccuracy preds)
  = match filter isResolved preds with
    | [] => None
    | _ => Some (round4 (ratio (hits preds) (List.length (filter isResolved preds))))
    end.
Proof.
  unfold computeAccuracy, hits. destruct (filter isResolved preds); reflexivity.
Qed.



Lemma filter_resolved_insert (l1 l2 : list Prediction) (p : Prediction) :
  isResolved p = true ->
  filter isResolved (l1 ++ p :: l2)
  = filter isResolved l1 ++ p :: filter isResolved l2.
Proof.
  intro H. rewrite filter_app. simpl. rewrite H. reflexivity.
Qed.




(** ** What the extractor builds *)

Lemma parseActionItem_shape (item : JsValue) (d : Date) (w : string) (p : Prediction) :
  parseActionItem item d w = Some p ->
  date p = d /\ wallet p = w /\ resolved p = false /\ outcome p = None
  /\ scenarioLabel p = None
  /\ expectedDirection p = directionOfAction (action p)
  /\ confidence p
     = round4_nullable
         (parseProb (get item "confidence" ||| get item "probability" ||| get item "prob")).
Proof.
  unfold parseActionItem.
  destruct (negb (isObjectValue item)); [discriminate|].
  destruct (negb (strTruthy _)); [discriminate|].
  intro H. injection H as <-. cbn. repeat split; reflexivity.
Qed.


(** *** Keys that the result object can hold *)












(** ** Calibration insights *)

(** With a single calibration band no calibration note is written, whatever
    the gap: three resolved calls at confidence 0.9, all wrong, give the
    band (0.9, 0, 3, 0.9), an average gap of 0.9 and an overconfident band,
    and the insights hold neither note. *)
Lemma single_band_calibration_counterexample :
  let acc := computeAccuracy threeMissesAt09 in
  List.length (filter isResolved threeMissesAt09) = 3%nat
  /\ calibration acc
     = [ {| predictedProb := 9 # 10; actualRate := 0 # 10000;
            sampleSize := 3; gap := 9000 # 10000 |} ]
  /\ averageGap (calibration acc) > 0.15
  /\ existsb isOverconfident (calibration acc) = true
  /\ ~ In (miscalibrationNote (averageGap (calibration acc)))
          (generateInsights acc threeMissesAt09)
  /\ ~ In overconfidenceNote (generateInsights acc threeMissesAt09).
Proof.
  cbv zeta. split; [reflexivity|]. split; [vm_compute; reflexivity|].
  split; [vm_compute; reflexivity|]. split; [vm_compute; reflexivity|].
  split; vm_compute; intro H;
    repeat (destruct H as [H|H]; [discriminate H|]); exact H.
Qed.

Lemma filter_nonempty {A : Type} (f : A -> bool) (l : list A) (x : A) :
  In x l -> f x = true -> filter f l <> [].
Proof.
  intros Hin Hf Hnil.
  assert (Hx : In x (filter f l)) by (apply filter_In; split; assumption).
  rewrite Hnil in Hx. exact Hx.
Qed.

Lemma calibrationInsights_notes (acc : Accuracy) :
  (2 <= List.length (calibration acc))%nat ->
  (averageGap (calibration acc) > 0.15 ->
   In (miscalibrationNote (averageGap (calibration acc))) (calibrationInsights acc))
  /\ (filter isOverconfident (calibration acc) <> [] ->
      In overconfidenceNote (calibrationInsights acc))
  /\ (filter isUnderconfident (calibration acc) <> [] ->
      In underconfidenceNote (calibrationInsights acc)).
Proof.
  intro Hbands. unfold calibrationInsights.
  destruct (Nat.leb_spec 2 (List.length (calibration acc))) as [_|Hlt]; [|lia].
  split; [|split].
  - intro Hgap. apply in_or_app. left.
    apply Qgtb_gt in Hgap. rewrite Hgap. left. reflexivity.
  - intro Hne. apply in_or_app. right. apply in_or_app. left.
    destruct (filter isOverconfident (calibration acc)); [congruence | left; reflexivity].
  - intro Hne. apply in_or_app. right. apply in_or_app. right.
    destruct (filter isUnderconfident (calibration acc)); [congruence | left; reflexivity].
Qed.

(** C8 (amended). When insights are generated over at least 3 resolved
    predictions and the calibration has at least two bands: an average gap
    above 0.15 produces the miscalibration note; a band with
    predictedProb > actualRate + 0.1 and at least 3 samples produces the
    overconfidence note; a band with actualRate > predictedProb + 0.1 and at
    least 3 samples produces the under-confidence note. *)
Theorem calibration_notes (acc : Accuracy) (preds : list Prediction) :
  (3 <= List.length (filter isResolved preds))%nat ->
  (2 <= List.length (calibration acc))%nat ->
  (averageGap (calibration acc) > 0.15 ->
   In (miscalibrationNote (averageGap (calibration acc))) (generateInsights acc preds))
  /\ ((exists c : Band,
         In c (calibration acc)
         /\ predictedProb c > actualRate c + 0.1 /\ (3 <= sampleSize c)%nat) ->
      In overconfidenceNote (generateInsights acc preds))
  /\ ((exists c : Band,
         In c (calibration acc)
         /\ actualRate c > predictedProb c + 0.1 /\ (3 <= sampleSize c)%nat) ->
      In underconfidenceNote (generateInsights acc preds)).
Proof.
  intros Hres Hbands. unfold generateInsights.
  destruct (Nat.ltb_spec (List.length (filter isResolved preds)) 3) as [Hlt|_]; [lia|].
  assert (Hcal : forall s : string,
             In s (calibrationInsights acc) ->
             In s (overallInsights acc ++ actionInsights acc ++ symbolInsights acc
                   ++ calibrationInsights acc
                   ++ directionInsights (filter isResolved preds) ++ walletInsights acc)).
  { intros s Hs. rewrite !in_app_iff. tauto. }
  destruct (calibrationInsights_notes acc Hbands) as (Hmis & Hover & Hunder).
  split; [|split].
  - intro Hgap. apply Hcal, Hmis, Hgap.
  - intros (c & Hin & Hc & Hn). apply Hcal, Hover.
    apply (filter_nonempty isOverconfident _ c Hin). unfold isOverconfident.
    apply andb_true_intro. split; [apply Qgtb_gt; exact Hc | apply Nat.leb_le; exact Hn].
  - intros (c & Hin & Hc & Hn). apply Hcal, Hunder.
    apply (filter_nonempty isUnderconfident _ c Hin). unfold isUnderconfident.
    apply andb_true_intro. split; [apply Qgtb_gt; exact Hc | apply Nat.leb_le; exact Hn].
Qed.

Lemma calibration_notes_witness :
  In (miscalibrationNote (averageGap (calibration (computeAccuracy fiveMisses))))
     (generateInsights (computeAccuracy fiveMisses) fiveMisses)
  /\ In overconfidenceNote (generateInsights (computeAccuracy fiveMisses) fiveMisses).
Proof.
  destruct (calibration_notes (computeAccuracy fiveMisses) fiveMisses)
    as (Hmis & Hover & _).
  - apply Nat.leb_le. reflexivity.
  - apply Nat.leb_le. reflexivity.
  - split.
    + apply Hmis. vm_compute. reflexivity.
    + apply Hover.
      exists {| predictedProb := 9 # 10; actualRate := 0 # 10000;
                sampleSize := 3; gap := 9000 # 10000 |}.
      split; [vm_compute; right; left; reflexivity|].
      split; [vm_compute; reflexivity | apply Nat.leb_le; reflexivity].
Defined.

(** ** Sorting keeps the elements *)

Lemma In_insertBy {A : Type} (leb : A -> A -> bool) (x y : A) (l : list A) :
  In x (insertBy leb y l) <-> x = y \/ In x l.
Proof.
  induction l as [|z rest IH]; simpl.
  - intuition congruence.
  - destruct (leb y z); simpl; [intuition congruence|].
    rewrite IH. intuition congruence.
Qed.

Lemma In_sortBy {A : Type} (leb : A -> A -> bool) (x : A) (l : list A) :
  In x (sortBy leb l) <-> In x l.
Proof.
  unfold sortBy. induction l as [|y rest IH]; simpl; [tauto|].
  rewrite In_insertBy, IH. intuition congruence.
Qed.

(** ** Distinct keys *)

Section DistinctKeys.
Variables K V : Type.
Variable eqb : K -> K -> bool.
Hypothesis eqb_refl : forall a, eqb a a = true.
Hypothesis eqb_sym : forall a b, eqb a b = eqb b a.
Hypothesis eqb_trans : forall a b c, eqb a b = true -> eqb b c = true -> eqb a c = true.

Lemma existsb_assoc_set (k k' : K) (v : V) (m : list (K * V)) :
  existsb (fun e => eqb (fst e) k') (assoc_set eqb k v m)
  = eqb k k' || existsb (fun e => eqb (fst e) k') m.
Proof.
  induction m as [|[k0 v0] rest IH]; simpl.
  - reflexivity.
  - destruct (eqb k0 k) eqn:E; simpl.
    + rewrite (eqb_congr K eqb eqb_sym eqb_trans _ _ k' E).
      destruct (eqb k k'); reflexivity.
    + rewrite IH. destruct (eqb k0 k'), (eqb k k'); reflexivity.
Qed.

Lemma distinctKeys_assoc_set (k : K) (v : V) (m : list (K * V)) :
  distinctKeys eqb m -> distinctKeys eqb (assoc_set eqb k v m).
Proof.
  induction m as [|[k0 v0] rest IH]; simpl.
  - intros _. split; [reflexivity | exact I].
  - intros [Hfresh Hrest]. destruct (eqb k0 k) eqn:E; simpl.
    + split; assumption.
    + split; [|apply IH; exact Hrest].
      rewrite existsb_assoc_set, Hfresh, (eqb_sym k k0), E. reflexivity.
Qed.

Lemma distinctKeys_get (k : K) (v : V) (m : list (K * V)) :
  distinctKeys eqb m -> In (k, v) m -> assoc_get eqb k m = Some v.
Proof.
  induction m as [|[k0 v0] rest IH]; simpl; [tauto|].
  intros [Hfresh Hrest] [Heq|Hin].
  - injection Heq as -> ->. rewrite eqb_refl. reflexivity.
  - destruct (eqb k0 k) eqn:E; [|apply IH; assumption].
    exfalso. assert (Hex : existsb (fun e => eqb (fst e) k0) rest = true).
    { apply existsb_exists. exists (k, v). split; [exact Hin|].
      simpl. rewrite eqb_sym. exact E. }
    congruence.
Qed.

Lemma assoc_get_In (k : K) (v : V) (m : list (K * V)) :
  assoc_get eqb k m = Some v -> exists k', In (k', v) m /\ eqb k' k = true.
Proof.
  induction m as [|[k0 v0] rest IH]; simpl; [discriminate|].
  destruct (eqb k0 k) eqn:E.
  - intro H. injection H as ->. exists k0. split; [left; reflexivity | exact E].
  - intro H. destruct (IH H) as (k' & Hin & Hk). exists k'. split; [right|]; assumption.
Qed.
End DistinctKeys.

Section TallyKeys.
Variable K : Type.
Variable eqb : K -> K -> bool.
Variable keyFn : Prediction -> option K.
Hypothesis eqb_refl : forall a, eqb a a = true.
Hypothesis eqb_sym : forall a b, eqb a b = eqb b a.
Hypothesis eqb_trans : forall a b c, eqb a b = true -> eqb b c = true -> eqb a c = true.

Lemma tally_fold_distinct (l : list Prediction) :
  forall groups : list (K * Tally),
    distinctKeys eqb groups ->
    distinctKeys eqb (fold_left (tallyStep eqb keyFn) l groups).
Proof.
  induction l as [|p rest IH]; intros groups Hd; simpl; [exact Hd|].
  apply IH. unfold tallyStep. destruct (keyFn p); [|exact Hd].
  apply (distinctKeys_assoc_set K Tally eqb eqb_sym eqb_trans). exact Hd.
Qed.

(** An entry of the tally holds the two counts of its key, and the key was
    met at least once. *)
Lemma tallyBy_In (k : K) (t : Tally) (l : list Prediction) :
  In (k, t) (tallyBy eqb keyFn l) ->
  t = mkTally (countIn eqb keyFn k l) (correctIn eqb keyFn k l)
  /\ countIn eqb keyFn k l <> 0%nat.
Proof.
  intro Hin.
  assert (Hget : assoc_get eqb k (tallyBy eqb keyFn l) = Some t).
  { apply (distinctKeys_get K Tally eqb eqb_refl eqb_sym); [|exact Hin].
    apply tally_fold_distinct. exact I. }
  rewrite (tallyBy_get K eqb keyFn eqb_sym eqb_trans) in Hget.
  destruct (Nat.eqb_spec (countIn eqb keyFn k l) 0) as [Hz|Hnz]; [discriminate|].
  injection Hget as <-. split; [reflexivity | exact Hnz].
Qed.

(** A key that was met has its entry. *)
Lemma tallyBy_has (k : K) (l : list Prediction) :
  countIn eqb keyFn k l <> 0%nat ->
  exists k', In (k', mkTally (countIn eqb keyFn k l) (correctIn eqb keyFn k l))
                (tallyBy eqb keyFn l)
             /\ eqb k' k = true.
Proof.
  intro Hnz. apply (assoc_get_In K Tally eqb).
  rewrite (tallyBy_get K eqb keyFn eqb_sym eqb_trans).
  destruct (Nat.eqb_spec (countIn eqb keyFn k l) 0) as [Hz|_]; [contradiction|].
  reflexivity.
Qed.

Lemma countIn_positive (k : K) (l : list Prediction) :
  countIn eqb keyFn k l <> 0%nat <->
  exists p, In p l /\ keyMatches eqb keyFn k p = true.
Proof.
  unfold countIn. split.
  - intro Hnz. destruct (filter (keyMatches eqb keyFn k) l) as [|p rest] eqn:E.
    + simpl in Hnz. contradiction.
    + exists p. apply filter_In. rewrite E. left. reflexivity.
  - intros (p & Hin & Hm) Hz.
    apply (filter_nonempty (keyMatches eqb keyFn k) l p Hin Hm).
    apply length_zero_iff_nil. exact Hz.
Qed.
End TallyKeys.

(** ** Calibration bands *)

Lemma mathRound_close (x : Q) : x - (1 # 2) < inject_Z (mathRound x) <= x + (1 # 2).
Proof.
  pose proof (proj1 (mathRound_ge_iff (mathRound x) x) (Z.le_refl _)) as Hlo.
  assert (Hhi : x < inject_Z (mathRound x + 1) - (1 # 2)).
  { apply mathRound_lt_iff. lia. }
  rewrite inject_Z_plus in Hhi. change (inject_Z 1) with 1 in Hhi.
  split; lra.
Qed.

(** A confidence is put in the nearest tenth. *)
Lemma bandOf_nearest (c : Q) : Qabs (bandOf c - c) <= 0.05.
Proof.
  unfold bandOf. destruct (mathRound_close (c * 10)) as [Hlo Hhi].
  set (m := mathRound (c * 10)) in *. clearbody m.
  assert (Hm : m # 10 == inject_Z m / 10).
  { unfold Qeq, Qdiv, Qmult, Qinv, inject_Z. simpl. lia. }
  apply Qabs_Qle_condition. rewrite Hm. split.
  - apply Qle_minus_iff. setoid_replace (inject_Z m / 10 - c + - - 0.05)
      with ((inject_Z m - (c * 10 - (1 # 2))) / 10) by field.
    apply Qle_shift_div_l; [reflexivity|]. lra.
  - apply Qle_minus_iff. setoid_replace (0.05 + - (inject_Z m / 10 - c))
      with ((c * 10 + (1 # 2) - inject_Z m) / 10) by field.
    apply Qle_shift_div_l; [reflexivity|]. lra.
Qed.

Lemma calibration_computeAccuracy (preds : list Prediction) :
  calibration (computeAccuracy preds) = computeCalibration (filter isResolved preds).
Proof.
  unfold computeAccuracy. destruct (filter isResolved preds); reflexivity.
Qed.

Lemma bandKey_matches (band : Q) (p : Prediction) :
  keyMatches Qeq_bool bandKey band p = true <->
  exists conf, confidence p = Some conf /\ bandOf conf == band.
Proof.
  unfold keyMatches, bandKey. destruct (confidence p) as [conf|]; simpl.
  - rewrite Qeq_bool_iff. split.
    + intro H. exists conf. split; [reflexivity | exact H].
    + intros (c & Hc & H). injection Hc as ->. exact H.
  - split; [discriminate|]. intros (c & Hc & _). discriminate.
Qed.

(** The entries of the calibration. *)
Lemma computeCalibration_In (c : Band) (l : list Prediction) :
  In c (computeCalibration l) ->
  countBand (predictedProb c) l <> 0%nat
  /\ sampleSize c = countBand (predictedProb c) l
  /\ actualRate c = round4 (ratio (hitsBand (predictedProb c) l) (sampleSize c))
  /\ gap c = round4 (Qabs (predictedProb c
                           - ratio (hitsBand (predictedProb c) l) (sampleSize c))).
Proof.
  unfold computeCalibration. intro Hin. apply in_map_iff in Hin.
  destruct Hin as ([band data] & <- & Hin). apply In_sortBy in Hin.
  apply (tallyBy_In Q Qeq_bool bandKey Qeq_bool_refl Qeq_bool_comm Qeq_bool_trans) in Hin.
  destruct Hin as [-> Hnz]. cbn. repeat split; try reflexivity. exact Hnz.
Qed.

Lemma computeCalibration_has (band : Q) (l : list Prediction) :
  countBand band l <> 0%nat ->
  exists c, In c (computeCalibration l) /\ predictedProb c == band.
Proof.
  intro Hnz.
  destruct (tallyBy_has Q Qeq_bool bandKey Qeq_bool_comm Qeq_bool_trans band l Hnz)
    as (k' & Hin & Hk).
  eexists. split.
  - unfold computeCalibration. apply in_map_iff.
    exists (k', mkTally (countIn Qeq_bool bandKey band l) (correctIn Qeq_bool bandKey band l)).
    split; [reflexivity|]. apply In_sortBy. exact Hin.
  - cbn. apply Qeq_bool_iff. exact Hk.
Qed.

Lemma tally_skips_keyless {K : Type} (eqb : K -> K -> bool) (keyFn : Prediction -> option K)
    (l1 l2 : list Prediction) (p : Prediction) :
  keyFn p = None ->
  tallyBy eqb keyFn (l1 ++ p :: l2) = tallyBy eqb keyFn (l1 ++ l2).
Proof.
  intro Hk. unfold tallyBy. rewrite !fold_left_app. simpl.
  unfold tallyStep at 2. rewrite Hk. reflexivity.
Qed.

(** C6. The calibration of [computeAccuracy] is made of the resolved
    predictions that carry a confidence, each put in the band of the nearest
    tenth ([Math.round(confidence * 10) / 10], at most 0.05 away).  Every
    band that received a prediction is reported, with predictedProb the band
    value, sampleSize the number of predictions in the band,
    actualRate = correct / total and gap = |predictedProb - correct / total|,
    both rounded to four decimals (so within 0.00005 of the exact values).  A resolved prediction without confidence
    changes nothing in the calibration and still counts as resolved.  Three
    resolved predictions at 0.7 with two correct give the single band
    (0.7, 0.6667, 3, 0.0333). *)
Theorem calibration_bands (preds : list Prediction) :
  let resolved := filter isResolved preds in
  let cal := calibration (computeAccuracy preds) in
  (forall c : Band, In c cal ->
     (exists p conf, In p resolved /\ confidence p = Some conf
                     /\ predictedProb c == bandOf conf)
     /\ (0 < sampleSize c)%nat
     /\ sampleSize c = countBand (predictedProb c) resolved
     /\ actualRate c
        = round4 (ratio (hitsBand (predictedProb c) resolved) (sampleSize c))
     /\ gap c
        = round4 (Qabs (predictedProb c
                        - ratio (hitsBand (predictedProb c) resolved) (sampleSize c)))
     /\ Qabs (actualRate c - ratio (hitsBand (predictedProb c) resolved) (sampleSize c))
        <= 1 # 20000
     /\ Qabs (gap c
              - Qabs (predictedProb c
                      - ratio (hitsBand (predictedProb c) resolved) (sampleSize c)))
        <= 1 # 20000)
  /\ (forall p conf, In p resolved -> confidence p = Some conf ->
        exists c : Band, In c cal /\ predictedProb c == bandOf conf)
  /\ (forall conf : Q,
        bandOf conf = Qmake (mathRound (conf * 10)) 10
        /\ Qabs (bandOf conf - conf) <= 0.05)
  /\ (forall l1 l2 p, preds = l1 ++ p :: l2 -> isResolved p = true ->
        confidence p = None ->
        cal = calibration (computeAccuracy (l1 ++ l2))
        /\ resolvedCount (computeAccuracy preds)
           = S (resolvedCount (computeAccuracy (l1 ++ l2))))
  /\ calibration (computeAccuracy threeCallsAt07)
     = [ {| predictedProb := 7 # 10; actualRate := 6667 # 10000;
            sampleSize := 3; gap := 333 # 10000 |} ].
Proof.
  cbv zeta. rewrite calibration_computeAccuracy.
  split; [|split; [|split; [|split]]].
  - intros c Hin.
    destruct (computeCalibration_In c _ Hin) as (Hnz & Hn & Hrate & Hgap).
    split; [|split; [lia|]].
    2: { split; [exact Hn|]. split; [exact Hrate|]. split; [exact Hgap|].
         rewrite Hrate at 1. rewrite Hgap at 1. split; apply round4_error. }
    apply (countIn_positive Q Qeq_bool bandKey) in Hnz.
    destruct Hnz as (p & Hp & Hm). apply bandKey_matches in Hm.
    destruct Hm as (conf & Hconf & Hband).
    exists p, conf. split; [exact Hp|]. split; [exact Hconf|].
    symmetry. exact Hband.
  - intros p conf Hp Hconf. apply computeCalibration_has.
    apply (countIn_positive Q Qeq_bool bandKey). exists p. split; [exact Hp|].
    apply bandKey_matches. exists conf. split; [exact Hconf | reflexivity].
  - intro conf. split; [reflexivity | apply bandOf_nearest].
  - intros l1 l2 p -> Hres Hnone. split.
    + rewrite calibration_computeAccuracy.
      rewrite (filter_resolved_insert l1 l2 p Hres), filter_app.
      unfold computeCalibration. rewrite tally_skips_keyless; [reflexivity|].
      unfold bandKey. rewrite Hnone. reflexivity.
    + rewrite !resolvedCount_computeAccuracy.
      rewrite (filter_resolved_insert l1 l2 p Hres), filter_app, !length_app.
      simpl. lia.
  - vm_compute. reflexivity.
Qed.

Lemma calibration_bands_witness :
  sampleSize band07 = countBand (predictedProb band07) (filter isResolved threeCallsAt07)
  /\ actualRate band07 = round4 (ratio 2 3).
Proof.
  destruct (calibration_bands threeCallsAt07) as (Hbands & _).
  destruct (Hbands band07) as (_ & _ & Hn & Hrate & _).
  - vm_compute. left. reflexivity.
  - split; [exact Hn|]. rewrite Hrate. reflexivity.
Defined.

(** ** The range of parsed probabilities *)

(** A confidence of 150 is read as a percent, 1.5, and stored as such
    (150 / 100 and the rounding of 15000 are exact in doubles too). *)
Lemma confidence_above_one_counterexample :
  exists p : Prediction,
    In p (extractPredictions overconfidentDoc (ymd 2026 2 15))
    /\ confidence p = Some (15000 # 10000)
    /\ ~ confidenceInUnit p.
Proof.
  eexists. split; [vm_compute; left; reflexivity|].
  split; [reflexivity|].
  unfold confidenceInUnit. cbn [confidence]. intros [_ H].
  vm_compute in H. apply H. reflexivity.
Qed.

Lemma round4_unit_interval (v : Q) : 0 <= v <= 1 -> 0 <= round4 v <= 1.
Proof.
  intros [Hlo Hhi]. unfold round4.
  assert (H0 : (0 <= mathRound (v * 10000))%Z).
  { apply mathRound_ge_iff. change (inject_Z 0) with 0. lra. }
  assert (H1 : (mathRound (v * 10000) < 10001)%Z).
  { apply mathRound_lt_iff. change (inject_Z 10001) with 10001. lra. }
  unfold Qle. simpl. lia.
Qed.

Lemma percentToFraction_range (num : Q) :
  0 <= num <= 100 -> 0 <= percentToFraction num <= 1.
Proof.
  intros [Hlo Hhi]. unfold percentToFraction.
  destruct (Qgtb num 1) eqn:E.
  - apply Qgtb_gt in E. split.
    + apply Qle_shift_div_l; [reflexivity | lra].
    + apply Qle_shift_div_r; [reflexivity | lra].
  - apply Qgtb_le in E. split; assumption.
Qed.

Lemma digitsValue_nonneg (ds : string) :
  forall acc : Z, (0 <= acc)%Z -> (0 <= digitsValue ds acc)%Z.
Proof.
  induction ds as [|c rest IH]; intros acc Hacc; simpl; [exact Hacc|].
  apply IH. unfold digitValue. lia.
Qed.

(** A digit or a dot is neither white space nor a sign. *)
Lemma digitOrDot_plain (c : ascii) (rest : string) :
  isDigitOrDot c = true ->
  trimStart (String c rest) = String c rest
  /\ readSign (String c rest) = (false, String c rest).
Proof.
  destruct c as [[] [] [] [] [] [] [] []]; intro H;
    try discriminate H; split; reflexivity.
Qed.

Lemma firstNumericRun_head (s m : string) :
  firstNumericRun s = Some m ->
  exists c rest, isDigitOrDot c = true /\ m = String c rest.
Proof.
  induction s as [|c s' IH]; simpl; [discriminate|].
  destruct (isDigitOrDot c) eqn:E; [|exact IH].
  intro H. injection H as <-. exists c, (takeRun s'). split; [exact E | reflexivity].
Qed.

(** A run of digits and dots never reads as a negative number. *)
Lemma parseFloatString_run_nonneg (s m : string) (num : Q) :
  firstNumericRun s = Some m -> parseFloatString m = Some num -> 0 <= num.
Proof.
  intros Hrun. destruct (firstNumericRun_head s m Hrun) as (c & rest & Hc & ->).
  destruct (digitOrDot_plain c rest Hc) as [Htrim Hsign].
  unfold parseFloatString. rewrite Htrim, Hsign.
  destruct (takeDigits (String c rest)) as [ip s1].
  destruct (match s1 with
            | String "."%char r => takeDigits r
            | _ => (EmptyString, s1)
            end) as [fp s2].
  destruct (ip ++ fp)%string as [|a ds]; [discriminate|].
  intro H. injection H as <-.
  apply Qmult_le_0_compat.
  - apply Qle_shift_div_l.
    + apply Qpower_0_lt. reflexivity.
    + rewrite Qmult_0_l. change 0 with (inject_Z 0). rewrite <- Zle_Qle.
      apply digitsValue_nonneg. unfold digitValue. lia.
  - apply Qpower_0_le. discriminate.
Qed.

Lemma parseProb_range (v : JsValue) (c : Q) :
  probInRange v = true -> parseProb v = Some c -> 0 <= c <= 1.
Proof.
  destruct v as [| |b|q|s|items|fields]; simpl; try discriminate.
  - intros Hr H. injection H as <-. apply andb_prop in Hr. destruct Hr as [Hlo Hhi].
    apply Qle_bool_iff in Hlo, Hhi. apply percentToFraction_range. split; assumption.
  - unfold readsAsPercent. destruct (firstNumericRun s) as [m|] eqn:Hrun; [|discriminate].
    destruct (parseFloatString m) as [num|] eqn:Hnum; [|discriminate].
    intros Hr H. injection H as <-. apply Qle_bool_iff in Hr.
    apply percentToFraction_range. split; [|exact Hr].
    exact (parseFloatString_run_nonneg s m num Hrun Hnum).
Qed.

(** ** Bounded documents *)

Lemma probBounded_get (v : JsValue) (k : string) :
  probBounded v = true ->
  probBounded (get v k) = true
  /\ (isProbKey k = true -> probInRange (get v k) = true).
Proof.
  destruct v as [| |b|q|s|items|fields]; simpl; try (intros _; split; reflexivity).
  unfold map_get. induction fields as [|[k0 x] rest IH]; simpl.
  - intros _. split; reflexivity.
  - intro H. apply andb_prop in H. destruct H as [H0 Hrest].
    apply andb_prop in H0. destruct H0 as [Hkey Hx].
    destruct (String.eqb_spec k0 k) as [->|Hne].
    + split; [exact Hx|]. intro Hk. rewrite Hk in Hkey. exact Hkey.
    + apply IH. exact Hrest.
Qed.

Lemma probBounded_jsOr (a b : JsValue) :
  probBounded a = true -> probBounded b = true -> probBounded (a ||| b) = true.
Proof.
  intros Ha Hb. unfold jsOr. destruct (truthy a); assumption.
Qed.

Lemma probInRange_jsOr (a b : JsValue) :
  probInRange a = true -> probInRange b = true -> probInRange (a ||| b) = true.
Proof.
  intros Ha Hb. unfold jsOr. destruct (truthy a); assumption.
Qed.

Lemma probBounded_item (items : list JsValue) (x : JsValue) :
  probBounded (JArr items) = true -> In x items -> probBounded x = true.
Proof.
  simpl. intros H Hin. rewrite forallb_forall in H. exact (H x Hin).
Qed.

Lemma probBounded_value (fields : list (string * JsValue)) (x : JsValue) :
  probBounded (JObj fields) = true -> In x (map snd fields) -> probBounded x = true.
Proof.
  simpl. intros H Hin. rewrite forallb_forall in H.
  apply in_map_iff in Hin. destruct Hin as ([k y] & <- & Hin).
  specialize (H _ Hin). apply andb_prop in H. exact (proj2 H).
Qed.

Lemma round4_nullable_unit (v : option Q) :
  match v with None => True | Some c => 0 <= c <= 1 end ->
  match round4_nullable v with None => True | Some c => 0 <= c <= 1 end.
Proof.
  destruct v as [c|]; simpl; [apply round4_unit_interval | trivial].
Qed.

Lemma parseProb_sources (v : JsValue) (k1 k2 k3 : string) :
  probBounded v = true ->
  isProbKey k1 = true -> isProbKey k2 = true -> isProbKey k3 = true ->
  match parseProb (get v k1 ||| get v k2 ||| get v k3) with
  | None => True
  | Some c => 0 <= c <= 1
  end.
Proof.
  intros Hv H1 H2 H3.
  destruct (parseProb _) as [c|] eqn:E; [|trivial].
  refine (parseProb_range _ c _ E).
  repeat apply probInRange_jsOr; apply (probBounded_get v _ Hv); assumption.
Qed.

Lemma parseActionItem_confidence (item : JsValue) (d : Date) (w : string)
    (p : Prediction) :
  probBounded item = true -> parseActionItem item d w = Some p -> confidenceInUnit p.
Proof.
  intros Hb Hp. unfold confidenceInUnit.
  destruct (parseActionItem_shape item d w p Hp) as (_ & _ & _ & _ & _ & _ & ->).
  apply round4_nullable_unit. apply parseProb_sources; [exact Hb|reflexivity..].
Qed.

Lemma parseActionArray_confidence (v : JsValue) (d : Date) (w : string) (p : Prediction) :
  probBounded v = true -> In p (parseActionArray v d w) -> confidenceInUnit p.
Proof.
  intros Hb Hin. destruct v as [| |b|q|s|items|fields]; simpl in Hin; try contradiction.
  apply in_flat_map in Hin. destruct Hin as (item & Hitem & Hin).
  destruct (parseActionItem item d w) as [pred|] eqn:E; [|contradiction].
  destruct Hin as [<-|[]].
  apply (parseActionItem_confidence item d w); [|exact E].
  exact (probBounded_item items item Hb Hitem).
Qed.

Lemma scenarioOfEntry_confidence (scenario : JsValue) (d : Date) (w : string)
    (p : Prediction) :
  probBounded scenario = true -> In p (scenarioOfEntry scenario d w) -> confidenceInUnit p.
Proof.
  intros Hb. unfold scenarioOfEntry.
  destruct (negb (isObjectValue scenario)); [contradiction|].
  pose proof (parseProb_sources scenario "probability" "prob" "likelihood" Hb
                eq_refl eq_refl eq_refl) as Hr.
  destruct (parseProb _) as [pr|]; [|contradiction].
  intros [<-|[]]. unfold confidenceInUnit. cbn [confidence].
  apply round4_unit_interval. exact Hr.
Qed.

Lemma extractWalletScenarios_confidence (scenarioData : JsValue) (d : Date) (w : string)
    (p : Prediction) :
  probBounded scenarioData = true ->
  In p (extractWalletScenarios scenarioData d w) -> confidenceInUnit p.
Proof.
  intros Hb. unfold extractWalletScenarios.
  destruct (negb (isObjectValue scenarioData)); [contradiction|].
  intro Hin. apply in_flat_map in Hin. destruct Hin as (sc & Hsc & Hin).
  apply (scenarioOfEntry_confidence sc d w); [|exact Hin].
  destruct scenarioData as [| |b|q|s|items|fields]; try contradiction.
  - exact (probBounded_item items sc Hb Hsc).
  - exact (probBounded_value fields sc Hb Hsc).
Qed.

Lemma extractScenarios_confidence (data : JsValue) (d : Date) (p : Prediction) :
  probBounded data = true -> In p (extractScenarios data d) -> confidenceInUnit p.
Proof.
  intros Hb Hin. unfold extractScenarios in Hin.
  apply in_flat_map in Hin. destruct Hin as (field & _ & Hin).
  destruct (isObjectValue (get data field)); [|contradiction].
  apply (extractWalletScenarios_confidence (get data field) d "portfolio"); [|exact Hin].
  apply (probBounded_get data field Hb).
Qed.

Lemma extractActionsFromWallet_confidence (wallet : JsValue) (name : string) (d : Date)
    (p : Prediction) :
  probBounded wallet = true ->
  In p (extractActionsFromWallet wallet name d) -> confidenceInUnit p.
Proof.
  intros Hb Hin. unfold extractActionsFromWallet in Hin.
  apply in_app_or in Hin. destruct Hin as [Hin|Hin].
  - apply in_flat_map in Hin. destruct Hin as (field & _ & Hin).
    apply (parseActionArray_confidence (get wallet field) d name); [|exact Hin].
    apply (probBounded_get wallet field Hb).
  - destruct (truthy _); [|contradiction].
    refine (extractWalletScenarios_confidence _ d name p _ Hin).
    repeat apply probBounded_jsOr; apply (probBounded_get wallet _ Hb).
Qed.

Lemma findWalletSections_bounded (data : JsValue) (ws : WalletSection) :
  probBounded data = true -> In ws (findWalletSections data) ->
  probBounded (walletValue ws) = true.
Proof.
  intros Hb Hin. unfold findWalletSections in Hin.
  destruct (negb (isObjectValue data)); [contradiction|].
  apply in_app_or in Hin. destruct Hin as [Hin|Hin].
  - apply in_flat_map in Hin. destruct Hin as ([k val] & Hkv & Hin).
    destruct (looksLikeWallet k && isObjectValue val); [|contradiction].
    destruct Hin as [<-|[]]. cbn [walletValue].
    destruct data as [| |b|q|s|items|fields]; try contradiction.
    apply (probBounded_value fields val Hb).
    apply in_map_iff. exists (k, val). split; [reflexivity | exact Hkv].
  - pose proof (proj1 (probBounded_get data "wallets" Hb)) as Hw.
    destruct (get data "wallets") as [| |b|q|s|items|fields]; try contradiction.
    apply in_flat_map in Hin. destruct Hin as (w & Hitem & Hin).
    destruct (isObjectValue w); [|contradiction].
    destruct Hin as [<-|[]]. cbn [walletValue].
    exact (probBounded_item items w Hw Hitem).
Qed.

Lemma dedupe_incl (seen : list string) (l : list Prediction) (p : Prediction) :
  In p (dedupe seen l) -> In p l.
Proof.
  revert seen. induction l as [|q rest IH]; intros seen; cbn [dedupe In]; [tauto|].
  destruct (existsb _ seen); cbn [In].
  - intro H. right. exact (IH _ H).
  - intros [->|H]; [left; reflexivity | right; exact (IH _ H)].
Qed.

(** C7 (amended). The confidence of every prediction returned by the
    extractor is [null] or a number, read without clamping: a number above 1
    is divided by 100, the first run of digits and dots of a string is read
    the same way.  It lies in [0, 1] whenever every value that the document
    stores under a probability key (confidence, probability, prob,
    likelihood) is a number between 0 and 100, a string whose first numeric
    run reads as at most 100, or not a number or string at all. *)
Theorem extracted_confidence_range (aiData : JsValue) (d : Date) (p : Prediction) :
  probBounded aiData = true ->
  In p (extractPredictions aiData d) ->
  confidenceInUnit p.
Proof.
  intros Hb Hin. unfold extractPredictions in Hin.
  destruct (negb (isObjectValue aiData)); [contradiction|].
  apply dedupe_incl in Hin.
  apply in_app_or in Hin. destruct Hin as [Hin|Hin].
  - apply in_flat_map in Hin. destruct Hin as (ws & Hws & Hin).
    apply (extractActionsFromWallet_confidence (walletValue ws) (walletName ws) d);
      [|exact Hin].
    exact (findWalletSections_bounded aiData ws Hb Hws).
  - apply in_app_or in Hin. destruct Hin as [Hin|Hin].
    + apply in_flat_map in Hin. destruct Hin as (field & _ & Hin).
      apply (parseActionArray_confidence (get aiData field) d "combined"); [|exact Hin].
      apply (probBounded_get aiData field Hb).
    + exact (extractScenarios_confidence aiData d p Hb Hin).
Qed.

Lemma extracted_confidence_range_witness :
  confidenceInUnit
    {| date := ymd 2026 2 15; symbol := "BTC"; wallet := "Thndr US / Crypto";
       action := "SELL"; confidence := Some (5500 # 10000); horizon := "24h";
       expectedDirection := Some "down"%string; triggerLevel := Some 150;
       stopLevel := Some 140; sizeChangePct := Some (2 # 100);
       scenarioLabel := None; resolved := false; outcome := None |}.
Proof.
  apply (extracted_confidence_range testDoc (ymd 2026 2 15)).
  - vm_compute. reflexivity.
  - vm_compute. right. right. left. reflexivity.
Defined.

(** ** The resolution window *)

Lemma insertBy_Forall (P : Z -> Prop) (x : Z) (l : list Z) :
  P x -> Forall P l -> Forall P (insertBy Z.leb x l).
Proof.
  intros Hx Hl. induction Hl as [|y rest Hy Hrest IH]; simpl.
  - constructor; [exact Hx | constructor].
  - destruct (x <=? y)%Z; repeat constructor; assumption.
Qed.

Lemma insertBy_sorted (x : Z) (l : list Z) :
  StronglySorted Z.le l -> StronglySorted Z.le (insertBy Z.leb x l).
Proof.
  intro Hs. induction Hs as [|y rest Hrest IH Hy]; simpl.
  - repeat constructor.
  - destruct (Z.leb_spec x y) as [Hle|Hgt].
    + constructor; [constructor; assumption|].
      constructor; [exact Hle|].
      eapply Forall_impl; [|exact Hy]. intros z Hz. lia.
    + constructor; [exact IH|].
      apply insertBy_Forall; [lia | exact Hy].
Qed.

Lemma sortBy_sorted (l : list Z) : StronglySorted Z.le (sortBy Z.leb l).
Proof.
  unfold sortBy. induction l as [|x rest IH]; simpl.
  - constructor.
  - apply insertBy_sorted. exact IH.
Qed.

(** [allDates.find(d => d >= target)] on a sorted list is the least date
    from [target] on. *)
Lemma find_sorted_least (target rd : Z) (l : list Z) :
  StronglySorted Z.le l ->
  find (fun d => (target <=? d)%Z) l = Some rd ->
  In rd l /\ (target <= rd)%Z
  /\ forall d', In d' l -> (target <= d')%Z -> (rd <= d')%Z.
Proof.
  intro Hs. induction Hs as [|y rest Hrest IH Hy]; simpl; [discriminate|].
  destruct (Z.leb_spec target y) as [Hle|Hgt].
  - intro H. injection H as <-. split; [left; reflexivity|]. split; [exact Hle|].
    intros d' [<-|Hin] _; [lia|]. rewrite Forall_forall in Hy. exact (Hy d' Hin).
  - intro H. destruct (IH H) as (Hin & Hge & Hleast).
    split; [right; exact Hin|]. split; [exact Hge|].
    intros d' [<-|Hd] Ht; [lia | exact (Hleast d' Hd Ht)].
Qed.

Lemma resolvePrediction_date (p : Prediction) (b a : PositionMap) (rd : Date) :
  resolved p = false ->
  resolved (resolvePrediction p b a rd) = true ->
  exists o, outcome (resolvePrediction p b a rd) = Some o /\ resolvedDate o = rd.
Proof.
  intro Hres. unfold resolvePrediction, resolveScenarioPrediction. rewrite Hres.
  destruct (String.eqb (action p) "SCENARIO").
  - intros _. eexists. split; reflexivity.
  - destruct (negb _ && negb _).
    + rewrite Hres. discriminate.
    + intros _. eexists. split; reflexivity.
Qed.

(** What the loop body does to an unresolved prediction. *)
Lemma resolveStep_cases (st : Store) (dates : list Date) (cur : Date) (pred : Prediction) :
  resolved pred = false ->
  resolveStep st dates cur pred = pred
  \/ exists rd before after,
       find (fun d => (addDays (date pred) (horizonToDays (horizon pred)) <=? d)%Z) dates
       = Some rd
       /\ (rd <= cur)%Z
       /\ resolveStep st dates cur pred = resolvePrediction pred before after rd.
Proof.
  intro Hres. unfold resolveStep. rewrite Hres. cbv zeta.
  destruct (find (fun d => (addDays (date pred) (horizonToDays (horizon pred)) <=? d)%Z)
              dates) as [rd|]; [|left; reflexivity].
  destruct (Z.gtb_spec rd cur) as [Hgt|Hle]; [left; reflexivity|].
  destruct (loadJson (reportFiles st) (date pred)) as [b|]; [|left; reflexivity].
  destruct (loadJson (reportFiles st) rd) as [a|]; [|left; reflexivity].
  right. exists rd, (buildPositionMap b), (buildPositionMap a).
  split; [reflexivity|]. split; [exact Hle | reflexivity].
Qed.

(** C5. A prediction that the cycle resolves is resolved against the
    earliest factual snapshot dated on or after issue date plus horizon
    offset, and that snapshot is not later than the current date; when no
    snapshot lies between the target date and the current date the prediction
    is left as it was, without error, so that a later run tries again.  A call
    issued 2026-02-14 with horizon 24h stays unresolved on 2026-02-14 with
    only the 2026-02-14 snapshot (also when a snapshot dated 2026-02-16 is
    already there); the next run, on 2026-02-15 or 2026-02-16 with the
    2026-02-15 snapshot present, resolves it against 2026-02-15. *)
Theorem resolution_window (st : Store) (currentDate : Date) (pred : Prediction) :
  resolved pred = false ->
  let target := addDays (date pred) (horizonToDays (horizon pred)) in
  let snapshots := map fst (reportFiles st) in
  let after := resolveStep st (listReportDates st) currentDate pred in
  (resolved after = true ->
   exists o : Outcome,
     outcome after = Some o
     /\ In (resolvedDate o) snapshots
     /\ (target <= resolvedDate o <= currentDate)%Z
     /\ forall d', In d' snapshots -> (target <= d')%Z -> (resolvedDate o <= d')%Z)
  /\ ((forall d', In d' snapshots -> ~ (target <= d' <= currentDate)%Z) ->
      after = pred)
  /\ option_map (map resolved)
       (predictionsAfter (directoryWith feb14Only LedgerMissing) (ymd 2026 2 14))
     = Some [false]
  /\ option_map (map resolved)
       (predictionsAfter (directoryWith feb14AndFeb16 LedgerMissing) (ymd 2026 2 14))
     = Some [false]
  /\ (let stored :=
        ledgerFile (storeAfter (directoryWith feb14Only LedgerMissing) (ymd 2026 2 14)) in
      let resolvedOn p := option_map resolvedDate (outcome p) in
      option_map (map resolvedOn)
        (predictionsAfter (directoryWith feb14AndFeb15 stored) (ymd 2026 2 15))
      = Some [Some (ymd 2026 2 15)]
      /\ option_map (map resolvedOn)
           (predictionsAfter (directoryWith feb14AndFeb15 stored) (ymd 2026 2 16))
         = Some [Some (ymd 2026 2 15)]).
Proof.
  intros Hres. cbv zeta.
  destruct (resolveStep_cases st (listReportDates st) currentDate pred Hres)
    as [Hsame|(rd & b & a & Hfind & Hcur & Hstep)].
  - rewrite Hsame.
    split; [|split; [|repeat split; vm_compute; reflexivity]].
    + rewrite Hres. discriminate.
    + intros _. reflexivity.
  - destruct (find_sorted_least _ rd (listReportDates st) (sortBy_sorted _) Hfind)
      as (Hin & Hge & Hleast).
    unfold listReportDates in Hin, Hleast. apply In_sortBy in Hin.
    rewrite Hstep.
    split; [|split; [|repeat split; vm_compute; reflexivity]].
    + intro Hr.
      destruct (resolvePrediction_date pred b a rd Hres Hr) as (o & Ho & Hrd).
      exists o. rewrite Hrd. split; [exact Ho|]. split; [exact Hin|].
      split; [lia|]. intros d' Hd. apply Hleast. apply In_sortBy. exact Hd.
    + intro Hnone. exfalso. apply (Hnone rd Hin). lia.
Qed.

Lemma resolution_window_witness :
  resolveStep (directoryWith feb14Only LedgerMissing)
    (listReportDates (directoryWith feb14Only LedgerMissing)) (ymd 2026 2 14) buyAapl
  = buyAapl.
Proof.
  destruct (resolution_window (directoryWith feb14Only LedgerMissing) (ymd 2026 2 14)
              buyAapl eq_refl) as (_ & Hnone & _).
  apply Hnone. intros d' [<-|[]] [Hlo _]. vm_compute in Hlo. apply Hlo. reflexivity.
Defined.

(** ** An unreadable ledger *)

(** The ledger file is not parseable JSON, and the cycle completes: it
    returns a ledger built from the empty one and writes it over the file. *)
Lemma corrupt_ledger_counterexample :
  exists (st' : Store) (l : Ledger),
    updateLearningLedger (directoryWith feb14Only LedgerCorrupt) (ymd 2026 2 14)
    = Ok (st', (l, LEDGER_FILENAME))
    /\ ledgerFile st' = LedgerStored l
    /\ version l = 1%Z
    /\ map symbol (predictions l) = ["AAPL"%string].
Proof.
  eexists. eexists. split; [vm_compute; reflexivity|].
  repeat split.
Qed.

Lemma loadLedger_version (st : Store) : version (loadLedger st) <> 0%Z.
Proof.
  unfold loadLedger. destruct (ledgerFile st) as [| | |l]; try discriminate.
  destruct (Z.eqb_spec (version l) 0) as [_|Hne]; [discriminate | exact Hne].
Qed.

(** The cycle with its steps unfolded. *)
Lemma updateLearningLedger_result (st : Store) (cur : Date) :
  let preds := map (resolveStep st (listReportDates st) cur)
                   (ingest st (predictions (loadLedger st))) in
  let l := recompute (loadLedger st) preds cur in
  updateLearningLedger st cur
  = if writable st
    then Ok ({| reportFiles := reportFiles st; aiFiles := aiFiles st;
                ledgerFile := LedgerStored l; writable := writable st |},
             (l, LEDGER_FILENAME))
    else Throw "EACCES: permission denied, open 'ai-learning.json'".
Proof.
  cbv zeta. unfold updateLearningLedger, saveLedger.
  destruct (writable st); reflexivity.
Qed.

(** C9 (amended). A ledger file that cannot be read as prior state (it is
    missing, is not parseable JSON, or has no truthy version) is not fatal to
    the cycle: [loadLedger] returns the empty ledger of version 1 and the
    cycle runs as it does when there is no ledger file.  When it completes,
    the ledger it returns is built from the empty one and is written over the
    old file, whose content is lost. *)
Theorem unreadable_ledger_starts_fresh (st : Store) (currentDate : Date) :
  (forall l : Ledger, ledgerFile st <> LedgerStored l) ->
  loadLedger st = emptyLedger
  /\ updateLearningLedger st currentDate
     = updateLearningLedger (withLedgerFile st LedgerMissing) currentDate
  /\ forall (st' : Store) (l : Ledger) (path : string),
       updateLearningLedger st currentDate = Ok (st', (l, path)) ->
       ledgerFile st' = LedgerStored l
       /\ reportFiles st' = reportFiles st
       /\ aiFiles st' = aiFiles st
       /\ version l = 1%Z
       /\ predictions l
          = map (resolveStep st (listReportDates st) currentDate) (ingest st []).
Proof.
  intro Hunreadable.
  assert (Hfresh : loadLedger st = emptyLedger).
  { unfold loadLedger. destruct (ledgerFile st) as [| | |l] eqn:E; try reflexivity.
    exfalso. exact (Hunreadable l eq_refl). }
  split; [exact Hfresh|]. split.
  - rewrite !updateLearningLedger_result, Hfresh. reflexivity.
  - intros st' l path. rewrite updateLearningLedger_result, Hfresh.
    destruct (writable st); [|discriminate].
    intro H. injection H as <- <- _. repeat split.
Qed.

Lemma unreadable_ledger_starts_fresh_witness :
  loadLedger (directoryWith feb14Only LedgerCorrupt) = emptyLedger
  /\ exists (st' : Store) (l : Ledger),
       updateLearningLedger (directoryWith feb14Only LedgerCorrupt) (ymd 2026 2 14)
       = Ok (st', (l, LEDGER_FILENAME))
       /\ ledgerFile st' = LedgerStored l
       /\ version l = 1%Z.
Proof.
  destruct (unreadable_ledger_starts_fresh (directoryWith feb14Only LedgerCorrupt)
              (ymd 2026 2 14)) as (Hfresh & _ & Hdone).
  - intros l H. discriminate H.
  - split; [exact Hfresh|].
    eexists. eexists. split; [vm_compute; reflexivity|].
    destruct (Hdone _ _ _ eq_refl) as (Hfile & _ & _ & Hversion & _).
    split; [exact Hfile | exact Hversion].
Defined.

(** ** Fresh predictions *)

Lemma scenarioOfEntry_shape (scenario : JsValue) (d : Date) (w : string) (p : Prediction) :
  In p (scenarioOfEntry scenario d w) ->
  date p = d /\ resolved p = false /\ outcome p = None
  /\ action p = "SCENARIO"%string.
Proof.
  unfold scenarioOfEntry. destruct (negb (isObjectValue scenario)); [contradiction|].
  destruct (parseProb _); [|contradiction].
  intros [<-|[]]. repeat split.
Qed.

(** Whatever holds of the records built by [parseActionItem] and of the
    scenario records holds of every extracted prediction. *)
Lemma extractPredictions_all (P : Prediction -> Prop) (aiData : JsValue) (d : Date) :
  (forall item w p, parseActionItem item d w = Some p -> P p) ->
  (forall scenario w p, In p (scenarioOfEntry scenario d w) -> P p) ->
  forall p, In p (extractPredictions aiData d) -> P p.
Proof.
  intros Hitem Hscen.
  assert (Harr : forall v w p, In p (parseActionArray v d w) -> P p).
  { intros v w p Hin. destruct v as [| |b|q|s|items|fields]; simpl in Hin; try contradiction.
    apply in_flat_map in Hin. destruct Hin as (item & _ & Hin).
    destruct (parseActionItem item d w) as [pred|] eqn:E; [|contradiction].
    destruct Hin as [<-|[]]. exact (Hitem item w pred E). }
  assert (Hws : forall v w p, In p (extractWalletScenarios v d w) -> P p).
  { intros v w p Hin. unfold extractWalletScenarios in Hin.
    destruct (negb (isObjectValue v)); [contradiction|].
    apply in_flat_map in Hin. destruct Hin as (sc & _ & Hin). exact (Hscen sc w p Hin). }
  intros p Hin. unfold extractPredictions in Hin.
  destruct (negb (isObjectValue aiData)); [contradiction|].
  apply dedupe_incl in Hin. apply in_app_or in Hin. destruct Hin as [Hin|Hin].
  - apply in_flat_map in Hin. destruct Hin as (ws & _ & Hin).
    unfold extractActionsFromWallet in Hin. apply in_app_or in Hin.
    destruct Hin as [Hin|Hin].
    + apply in_flat_map in Hin. destruct Hin as (field & _ & Hin).
      exact (Harr _ _ p Hin).
    + destruct (truthy _); [|contradiction]. exact (Hws _ _ p Hin).
  - apply in_app_or in Hin. destruct Hin as [Hin|Hin].
    + apply in_flat_map in Hin. destruct Hin as (field & _ & Hin).
      exact (Harr _ _ p Hin).
    + unfold extractScenarios in Hin. apply in_flat_map in Hin.
      destruct Hin as (field & _ & Hin).
      destruct (isObjectValue (get aiData field)); [|contradiction].
      exact (Hws _ _ p Hin).
Qed.

(** An extracted prediction carries the date of its document and is
    unresolved, without outcome. *)
Lemma extractPredictions_fresh (aiData : JsValue) (d : Date) (p : Prediction) :
  In p (extractPredictions aiData d) ->
  date p = d /\ resolved p = false /\ outcome p = None.
Proof.
  apply (extractPredictions_all
           (fun p => date p = d /\ resolved p = false /\ outcome p = None)).
  - intros item w q Hq.
    destruct (parseActionItem_shape item d w q Hq) as (Hd & _ & Hr & Ho & _).
    repeat split; assumption.
  - intros sc w q Hq.
    destruct (scenarioOfEntry_shape sc d w q Hq) as (Hd & Hr & Ho & _).
    repeat split; assumption.
Qed.

(** The expected direction of an extracted position call is the one its
    action implies: the hypothesis of [resolvePrediction_verdict] holds of
    every call that enters the ledger. *)
Lemma extracted_calls_coherent (aiData : JsValue) (d : Date) (p : Prediction) :
  In p (extractPredictions aiData d) ->
  action p <> "SCENARIO"%string ->
  expectedDirection p = directionOfAction (action p).
Proof.
  apply (extractPredictions_all
           (fun p => action p <> "SCENARIO"%string ->
                     expectedDirection p = directionOfAction (action p))).
  - intros item w q Hq _.
    destruct (parseActionItem_shape item d w q Hq) as (_ & _ & _ & _ & _ & Hdir & _).
    exact Hdir.
  - intros sc w q Hq Hns.
    destruct (scenarioOfEntry_shape sc d w q Hq) as (_ & _ & _ & Ha).
    contradiction.
Qed.

(** ** One pass of the resolver *)

Lemma resolvePrediction_cases (p : Prediction) (b a : PositionMap) (rd : Date) :
  resolvePrediction p b a rd = p
  \/ exists o, resolvePrediction p b a rd = withOutcome p o.
Proof.
  unfold resolvePrediction, resolveScenarioPrediction.
  destruct (resolved p); [left; reflexivity|].
  destruct (String.eqb (action p) "SCENARIO").
  - right. eexists. reflexivity.
  - destruct (negb _ && negb _); [left; reflexivity|].
    right. eexists. reflexivity.
Qed.

Lemma resolveStep_outcome (st : Store) (dates : list Date) (cur : Date) (p : Prediction) :
  resolveStep st dates cur p = p
  \/ exists o, resolveStep st dates cur p = withOutcome p o.
Proof.
  destruct (resolved p) eqn:Hres.
  - left. unfold resolveStep. rewrite Hres. reflexivity.
  - destruct (resolveStep_cases st dates cur p Hres)
      as [Hsame|(rd & b & a & _ & _ & Hstep)]; [left; exact Hsame|].
    rewrite Hstep. apply resolvePrediction_cases.
Qed.

Lemma resolveStep_resolved (st : Store) (dates : list Date) (cur : Date) (p : Prediction) :
  resolved p = true -> resolveStep st dates cur p = p.
Proof.
  intro H. unfold resolveStep. rewrite H. reflexivity.
Qed.

Lemma resolveStep_date (st : Store) (dates : list Date) (cur : Date) (p : Prediction) :
  date (resolveStep st dates cur p) = date p.
Proof.
  destruct (resolveStep_outcome st dates cur p) as [->|(o & ->)]; reflexivity.
Qed.

Lemma resolveStep_idempotent (st : Store) (dates : list Date) (cur : Date) (p : Prediction) :
  resolveStep st dates cur (resolveStep st dates cur p) = resolveStep st dates cur p.
Proof.
  destruct (resolveStep_outcome st dates cur p) as [Hsame|(o & Hres)].
  - rewrite Hsame. exact Hsame.
  - rewrite Hres. apply resolveStep_resolved. reflexivity.
Qed.

Lemma resolveStep_wellFormed (st : Store) (dates : list Date) (cur : Date) (p : Prediction) :
  wellFormed p -> wellFormed (resolveStep st dates cur p).
Proof.
  intro Hwf. destruct (resolveStep_outcome st dates cur p) as [->|(o & ->)].
  - exact Hwf.
  - unfold wellFormed. simpl. split; discriminate.
Qed.

(** The loop reads the reports only. *)
Lemma resolveStep_reports (st st' : Store) (dates : list Date) (cur : Date) (p : Prediction) :
  reportFiles st' = reportFiles st ->
  resolveStep st' dates cur p = resolveStep st dates cur p.
Proof.
  intro H. unfold resolveStep. rewrite H. reflexivity.
Qed.

(** ** Ingestion *)

Lemma ingest_appended (st : Store) (ledgerPredictions : list Prediction) :
  ingest st ledgerPredictions
  = ledgerPredictions
    ++ flat_map (appended st (map date ledgerPredictions)) (listAiDates st).
Proof.
  unfold ingest.
  set (existing := map date ledgerPredictions).
  assert (H : forall dates acc,
             fold_left
               (fun preds aiDate =>
                  if existsb (Z.eqb aiDate) existing then preds
                  else match loadJson (aiFiles st) aiDate with
                       | Some aiData =>
                           if truthy aiData
                           then preds ++ extractPredictions aiData aiDate else preds
                       | None => preds
                       end) dates acc
             = acc ++ flat_map (appended st existing) dates).
  { induction dates as [|d rest IH]; intro acc; simpl.
    - rewrite app_nil_r. reflexivity.
    - rewrite IH. unfold appended at 2.
      destruct (existsb (Z.eqb d) existing); [reflexivity|].
      destruct (loadJson (aiFiles st) d) as [aiData|]; [|reflexivity].
      destruct (truthy aiData); [|reflexivity].
      rewrite app_assoc. reflexivity. }
  apply H.
Qed.

Lemma appended_fresh (st : Store) (existing : list Date) (d : Date) (p : Prediction) :
  In p (appended st existing d) ->
  date p = d /\ resolved p = false /\ outcome p = None.
Proof.
  unfold appended. destruct (existsb (Z.eqb d) existing); [contradiction|].
  destruct (loadJson (aiFiles st) d) as [aiData|]; [|contradiction].
  destruct (truthy aiData); [|contradiction].
  apply extractPredictions_fresh.
Qed.

Lemma existsb_eqb_In (d : Z) (l : list Z) : existsb (Z.eqb d) l = true <-> In d l.
Proof.
  rewrite existsb_exists. split.
  - intros (x & Hin & Hx). apply Z.eqb_eq in Hx. subst x. exact Hin.
  - intro Hin. exists d. split; [exact Hin | apply Z.eqb_refl].
Qed.

(** Once the predictions of a run are in the ledger, the same analyst files
    add nothing. *)
Lemma ingest_settled (st st' : Store) (old : list Prediction) (preds : list Prediction) :
  aiFiles st' = aiFiles st ->
  map date preds = map date (ingest st old) ->
  ingest st' preds = preds.
Proof.
  intros Hai Hdates. rewrite ingest_appended.
  assert (Hnil : forall d, In d (listAiDates st) ->
                           appended st' (map date preds) d = []).
  { intros d Hd. unfold appended.
    destruct (existsb (Z.eqb d) (map date preds)) eqn:Hex; [reflexivity|].
    rewrite Hai.
    destruct (loadJson (aiFiles st) d) as [aiData|] eqn:Hload; [|reflexivity].
    destruct (truthy aiData) eqn:Htruthy; [|reflexivity].
    destruct (extractPredictions aiData d) as [|x rest] eqn:Hx; [reflexivity|].
    exfalso.
    assert (Hnot : ~ In d (map date preds)).
    { intro Hin. apply existsb_eqb_In in Hin. congruence. }
    apply Hnot. rewrite Hdates, ingest_appended, map_app.
    apply in_or_app.
    destruct (existsb (Z.eqb d) (map date old)) eqn:Hold.
    - left. apply existsb_eqb_In. exact Hold.
    - right.
      assert (Hin : In x (appended st (map date old) d)).
      { unfold appended. rewrite Hold, Hload, Htruthy, Hx. left. reflexivity. }
      destruct (appended_fresh st _ d x Hin) as (Hdx & _).
      rewrite <- Hdx. apply in_map. apply in_flat_map. exists d. split; assumption. }
  unfold listAiDates in *. rewrite Hai.
  induction (sortBy Z.leb (map fst (aiFiles st))) as [|d rest IH]; simpl.
  - apply app_nil_r.
  - rewrite (Hnil d (or_introl eq_refl)). simpl.
    apply IH. intros d' Hd'. apply Hnil. right. exact Hd'.
Qed.

(** ** Runs of the cycle *)

(** A run that returns stored the returned ledger and left the reports and
    the analyst files as they were. *)
Lemma updateLearningLedger_ok (st : Store) (cur : Date) (st' : Store) (l : Ledger)
    (path : string) :
  updateLearningLedger st cur = Ok (st', (l, path)) ->
  writable st = true
  /\ l = recompute (loadLedger st)
           (map (resolveStep st (listReportDates st) cur)
                (ingest st (predictions (loadLedger st)))) cur
  /\ st' = {| reportFiles := reportFiles st; aiFiles := aiFiles st;
              ledgerFile := LedgerStored l; writable := true |}
  /\ path = LEDGER_FILENAME.
Proof.
  rewrite updateLearningLedger_result. destruct (writable st); [|discriminate].
  intro H. injection H as <- <- <-. repeat split.
Qed.

Lemma loadLedger_stored (st : Store) (l : Ledger) :
  ledgerFile st = LedgerStored l -> version l <> 0%Z -> loadLedger st = l.
Proof.
  intros Hfile Hv. unfold loadLedger. rewrite Hfile.
  destruct (Z.eqb_spec (version l) 0); [contradiction | reflexivity].
Qed.

Lemma recompute_again (l : Ledger) (preds : list Prediction) (cur : Date) :
  recompute (recompute l preds cur) preds cur = recompute l preds cur.
Proof. reflexivity. Qed.

(** C2. A second update cycle, run right after a successful one on the same
    reports and analyst files with the same current date, returns the same
    ledger and stores it again: the prediction list is the same, hence its
    length, its identity keys and the resolved flag and outcome of every
    prediction. *)
Theorem update_cycle_idempotent (st : Store) (currentDate : Date) (st1 : Store)
    (l1 : Ledger) (path1 : string) :
  updateLearningLedger st currentDate = Ok (st1, (l1, path1)) ->
  reportFiles st1 = reportFiles st
  /\ aiFiles st1 = aiFiles st
  /\ exists l2 : Ledger,
       updateLearningLedger st1 currentDate = Ok (st1, (l2, path1))
       /\ l2 = l1
       /\ List.length (predictions l2) = List.length (predictions l1)
       /\ map predictionKey (predictions l2) = map predictionKey (predictions l1)
       /\ map resolved (predictions l2) = map resolved (predictions l1)
       /\ map outcome (predictions l2) = map outcome (predictions l1).
Proof.
  intro Hrun.
  destruct (updateLearningLedger_ok st currentDate st1 l1 path1 Hrun)
    as (Hw & Hl & Hst & Hpath).
  split; [rewrite Hst; reflexivity|]. split; [rewrite Hst; reflexivity|].
  exists l1. split; [|repeat split].
  assert (Hv : version l1 <> 0%Z).
  { rewrite Hl. apply loadLedger_version. }
  assert (Hload : loadLedger st1 = l1).
  { apply loadLedger_stored; [rewrite Hst; reflexivity | exact Hv]. }
  assert (Hreports : reportFiles st1 = reportFiles st) by (rewrite Hst; reflexivity).
  assert (Hai : aiFiles st1 = aiFiles st) by (rewrite Hst; reflexivity).
  assert (Hdates : listReportDates st1 = listReportDates st).
  { unfold listReportDates. rewrite Hreports. reflexivity. }
  set (old := predictions (loadLedger st)) in *.
  set (R := resolveStep st (listReportDates st) currentDate) in *.
  assert (Hpreds : predictions l1 = map R (ingest st old)) by (rewrite Hl; reflexivity).
  assert (Hingest : ingest st1 (predictions l1) = predictions l1).
  { apply (ingest_settled st st1 old); [exact Hai|].
    rewrite Hpreds, map_map. apply map_ext. intro p. apply resolveStep_date. }
  assert (Hresolve : map (resolveStep st1 (listReportDates st1) currentDate) (predictions l1)
                     = predictions l1).
  { rewrite Hdates, Hpreds, map_map. apply map_ext. intro p.
    rewrite (resolveStep_reports st st1 _ _ _ Hreports).
    apply resolveStep_idempotent. }
  rewrite updateLearningLedger_result.
  assert (Hw1 : writable st1 = true) by (rewrite Hst; reflexivity).
  rewrite Hw1, Hload, Hingest, Hresolve, Hpath.
  assert (Hsame : recompute l1 (predictions l1) currentDate = l1).
  { rewrite Hpreds, Hl. apply recompute_again. }
  rewrite Hsame. do 2 f_equal. rewrite Hst. reflexivity.
Qed.

Lemma update_cycle_idempotent_witness :
  updateLearningLedger
    (storeAfter (directoryWith feb14AndFeb15 LedgerMissing) (ymd 2026 2 15))
    (ymd 2026 2 15)
  = Ok (storeAfter (directoryWith feb14AndFeb15 LedgerMissing) (ymd 2026 2 15),
        (ledgerAfter (directoryWith feb14AndFeb15 LedgerMissing) (ymd 2026 2 15),
         LEDGER_FILENAME)).
Proof.
  destruct (update_cycle_idempotent
              (directoryWith feb14AndFeb15 LedgerMissing) (ymd 2026 2 15)
              (storeAfter (directoryWith feb14AndFeb15 LedgerMissing) (ymd 2026 2 15))
              (ledgerAfter (directoryWith feb14AndFeb15 LedgerMissing) (ymd 2026 2 15))
              LEDGER_FILENAME)
    as (_ & _ & l2 & Hrun & Heq & _).
  - vm_compute. reflexivity.
  - rewrite <- Heq. exact Hrun.
Defined.

(** ** The invariant of the records *)

Lemma update_predictions (st : Store) (cur : Date) (st' : Store) (l : Ledger)
    (path : string) :
  updateLearningLedger st cur = Ok (st', (l, path)) ->
  predictions l
  = map (resolveStep st (listReportDates st) cur)
        (predictions (loadLedger st)
         ++ flat_map (appended st (map date (predictions (loadLedger st))))
                     (listAiDates st)).
Proof.
  intro Hrun.
  destruct (updateLearningLedger_ok st cur st' l path Hrun) as (_ & -> & _).
  cbn [recompute predictions]. rewrite ingest_appended. reflexivity.
Qed.

Lemma cycle_wellFormed (st : Store) (cur : Date) (st' : Store) (l : Ledger)
    (path : string) :
  Forall wellFormed (predictions (loadLedger st)) ->
  updateLearningLedger st cur = Ok (st', (l, path)) ->
  Forall wellFormed (predictions l).
Proof.
  intros Hold Hrun. rewrite (update_predictions st cur st' l path Hrun).
  apply Forall_forall. intros q Hq. apply in_map_iff in Hq.
  destruct Hq as (p & <- & Hp). apply resolveStep_wellFormed.
  apply in_app_or in Hp. destruct Hp as [Hp|Hp].
  - rewrite Forall_forall in Hold. exact (Hold p Hp).
  - apply in_flat_map in Hp. destruct Hp as (d & _ & Hp).
    destruct (appended_fresh st _ d p Hp) as (_ & Hr & Ho).
    unfold wellFormed. split; intros _; assumption.
Qed.

Lemma cycle_keeps_resolved (st : Store) (cur : Date) (st' : Store) (l : Ledger)
    (path : string) (i : nat) (p : Prediction) :
  updateLearningLedger st cur = Ok (st', (l, path)) ->
  nth_error (predictions (loadLedger st)) i = Some p ->
  resolved p = true ->
  nth_error (predictions l) i = Some p.
Proof.
  intros Hrun Hnth Hres. rewrite (update_predictions st cur st' l path Hrun).
  rewrite nth_error_map, nth_error_app1.
  - rewrite Hnth. simpl. f_equal. apply resolveStep_resolved. exact Hres.
  - apply nth_error_Some. rewrite Hnth. discriminate.
Qed.

(** C3. A record built by the extractor is unresolved and has no outcome.
    In every ledger that update cycles produce, starting from the empty
    ledger, a record is unresolved exactly when its outcome is null.  A
    resolved record of a ledger is found unchanged, at the same place, in the
    ledger of every later cycle. *)
Theorem record_invariant :
  (forall (aiData : JsValue) (d : Date) (p : Prediction),
      In p (extractPredictions aiData d) ->
      resolved p = false /\ outcome p = None /\ wellFormed p)
  /\ (forall l : Ledger, Reachable l -> Forall wellFormed (predictions l))
  /\ (forall l l' : Ledger, Later l l' ->
      forall (i : nat) (p : Prediction),
        nth_error (predictions l) i = Some p ->
        resolved p = true ->
        nth_error (predictions l') i = Some p).
Proof.
  split; [|split].
  - intros aiData d p Hin.
    destruct (extractPredictions_fresh aiData d p Hin) as (_ & Hr & Ho).
    split; [exact Hr|]. split; [exact Ho|]. unfold wellFormed. tauto.
  - intros l Hreach. induction Hreach as [st cur st' l path Hempty Hrun
                                         | l st cur st' l' path Hreach IH Hfile Hrun].
    + apply (cycle_wellFormed st cur st' l path); [|exact Hrun].
      rewrite Hempty. constructor.
    + apply (cycle_wellFormed st cur st' l' path); [|exact Hrun].
      unfold loadLedger. rewrite Hfile.
      destruct (version l =? 0)%Z; [constructor | exact IH].
  - intros l l' Hlater. induction Hlater as [l | l st cur st' l' l'' path Hload Hrun Hlater IH].
    + intros i p Hnth _. exact Hnth.
    + intros i p Hnth Hres. apply IH; [|exact Hres].
      apply (cycle_keeps_resolved st cur st' l' path i p Hrun); [|exact Hres].
      rewrite Hload. exact Hnth.
Qed.

Lemma record_invariant_witness :
  (forall p, In p (extractPredictions testDoc (ymd 2026 2 15)) -> resolved p = false)
  /\ nth_error (predictions (ledgerAfter laterRun (ymd 2026 2 16))) 0
     = Some (hd buyAapl (predictions (ledgerAfter firstRun (ymd 2026 2 15)))).
Proof.
  destruct record_invariant as (Hfresh & _ & Hkept).
  split.
  - intros p Hin. exact (proj1 (Hfresh testDoc (ymd 2026 2 15) p Hin)).
  - apply (Hkept (ledgerAfter firstRun (ymd 2026 2 15))).
    + apply (later_run (ledgerAfter firstRun (ymd 2026 2 15)) laterRun (ymd 2026 2 16)
               (storeAfter laterRun (ymd 2026 2 16))
               (ledgerAfter laterRun (ymd 2026 2 16))
               (ledgerAfter laterRun (ymd 2026 2 16)) LEDGER_FILENAME).
      * vm_compute. reflexivity.
      * vm_compute. reflexivity.
      * apply later_same.
    + vm_compute. reflexivity.
    + vm_compute. reflexivity.
Defined.

(* ================================================================== *)
(** * Further properties of the code *)

(** ** The shape of extracted predictions *)

Lemma normalizeAction_range (raw : JsValue) :
  In (normalizeAction raw) ["BUY"; "SELL"; "HOLD"; "TRIM"; "UNKNOWN"]%string.
Proof.
  unfold normalizeAction.
  repeat match goal with
         | |- context [if ?c then _ else _] => destruct c
         end; simpl; tauto.
Qed.

Lemma normalizeHorizon_range (raw : JsValue) :
  In (normalizeHorizon raw) ["24h"; "1w"; "2w"; "1m"]%string.
Proof.
  unfold normalizeHorizon.
  repeat match goal with
         | |- context [if ?c then _ else _] => destruct c
         end; simpl; tauto.
Qed.

Lemma parseLevel_nonzero (v : JsValue) (q : Q) : parseLevel v = Some q -> ~ q == 0.
Proof.
  unfold parseLevel. destruct (parseFloat v) as [x|]; [|discriminate].
  destruct (numTruthy x) eqn:E; [|discriminate].
  intro H. injection H as <-. intro Hz.
  unfold numTruthy in E. apply negb_true_iff in E.
  apply Qeq_bool_iff in Hz. congruence.
Qed.

Lemma strTruthy_nonempty (s : string) : strTruthy s = true -> s <> EmptyString.
Proof.
  destruct s; [discriminate | intros _; discriminate].
Qed.

Lemma parseActionItem_fields (item : JsValue) (d : Date) (w : string) (p : Prediction) :
  parseActionItem item d w = Some p ->
  symbol p <> EmptyString
  /\ In (action p) ["BUY"; "SELL"; "HOLD"; "TRIM"; "UNKNOWN"]%string
  /\ In (horizon p) ["24h"; "1w"; "2w"; "1m"]%string
  /\ (forall q, triggerLevel p = Some q -> ~ q == 0)
  /\ (forall q, stopLevel p = Some q -> ~ q == 0).
Proof.
  unfold parseActionItem.
  destruct (negb (isObjectValue item)); [discriminate|].
  destruct (strTruthy _) eqn:Hsym; [|discriminate].
  intro H. injection H as <-. cbn [symbol action horizon triggerLevel stopLevel negb].
  split; [apply strTruthy_nonempty; exact Hsym|].
  split; [apply normalizeAction_range|].
  split; [apply normalizeHorizon_range|].
  split; intros q Hq; exact (parseLevel_nonzero _ q Hq).
Qed.

Lemma scenarioOfEntry_fields (scenario : JsValue) (d : Date) (w : string) (p : Prediction) :
  In p (scenarioOfEntry scenario d w) ->
  symbol p = "__SCENARIO__"%string
  /\ action p = "SCENARIO"%string
  /\ In (horizon p) ["24h"; "1w"; "2w"; "1m"]%string
  /\ (exists c, confidence p = Some c)
  /\ (exists l, scenarioLabel p = Some l)
  /\ In (expectedDirection p) [Some "up"; Some "down"; Some "flat"]%string
  /\ triggerLevel p = None /\ stopLevel p = None.
Proof.
  unfold scenarioOfEntry. destruct (negb (isObjectValue scenario)); [contradiction|].
  destruct (parseProb _) as [pr|]; [|contradiction].
  intros [<-|[]]. cbn [symbol action horizon confidence scenarioLabel expectedDirection
                       triggerLevel stopLevel].
  split; [reflexivity|]. split; [reflexivity|].
  split; [apply normalizeHorizon_range|].
  split; [eexists; reflexivity|]. split; [eexists; reflexivity|].
  split; [|split; reflexivity].
  destruct (includes _ "bull"); [simpl; tauto|].
  destruct (includes _ "bear"); simpl; tauto.
Qed.

(** X1. Every prediction that [extractPredictions] returns carries the date
    it was given, a non-empty symbol and one of the four horizons.  It is
    either a scenario (symbol [__SCENARIO__], action SCENARIO, a confidence,
    a label, an expected direction among up, down and flat, no levels) or a
    position call (action among BUY, SELL, HOLD, TRIM and UNKNOWN, no
    scenario label, the expected direction of its action, and a trigger or
    stop level that is never zero: a level of 0 is stored as null). *)
Theorem extracted_prediction_shape (aiData : JsValue) (d : Date) (p : Prediction) :
  In p (extractPredictions aiData d) ->
  date p = d
  /\ symbol p <> EmptyString
  /\ In (horizon p) ["24h"; "1w"; "2w"; "1m"]%string
  /\ ((symbol p = "__SCENARIO__"%string
       /\ action p = "SCENARIO"%string
       /\ (exists c, confidence p = Some c)
       /\ (exists l, scenarioLabel p = Some l)
       /\ In (expectedDirection p) [Some "up"; Some "down"; Some "flat"]%string
       /\ triggerLevel p = None /\ stopLevel p = None)
      \/ (In (action p) ["BUY"; "SELL"; "HOLD"; "TRIM"; "UNKNOWN"]%string
          /\ scenarioLabel p = None
          /\ expectedDirection p = directionOfAction (action p)
          /\ (forall q, triggerLevel p = Some q -> ~ q == 0)
          /\ (forall q, stopLevel p = Some q -> ~ q == 0))).
Proof.
  revert p. apply extractPredictions_all.
  - intros item w p Hp.
    destruct (parseActionItem_shape item d w p Hp) as (Hd & _ & _ & _ & Hl & Hdir & _).
    destruct (parseActionItem_fields item d w p Hp) as (Hs & Ha & Hh & Ht & Hst).
    split; [exact Hd|]. split; [exact Hs|]. split; [exact Hh|].
    right. repeat split; assumption.
  - intros sc w p Hp.
    destruct (scenarioOfEntry_shape sc d w p Hp) as (Hd & _).
    destruct (scenarioOfEntry_fields sc d w p Hp)
      as (Hs & Ha & Hh & Hc & Hl & He & Ht & Hst).
    split; [exact Hd|]. split; [rewrite Hs; discriminate|]. split; [exact Hh|].
    left. repeat split; assumption.
Qed.

Lemma extracted_prediction_shape_witness :
  let p := {| date := ymd 2026 2 15; symbol := "BTC"; wallet := "Thndr US / Crypto";
              action := "SELL"; confidence := Some (5500 # 10000); horizon := "24h";
              expectedDirection := Some "down"%string; triggerLevel := Some 150;
              stopLevel := Some 140; sizeChangePct := Some (2 # 100);
              scenarioLabel := None; resolved := false; outcome := None |} in
  In p (extractPredictions testDoc (ymd 2026 2 15))
  /\ date p = ymd 2026 2 15
  /\ In (horizon p) ["24h"; "1w"; "2w"; "1m"]%string.
Proof.
  intro p.
  assert (Hin : In p (extractPredictions testDoc (ymd 2026 2 15))).
  { vm_compute. right. right. left. reflexivity. }
  destruct (extracted_prediction_shape testDoc (ymd 2026 2 15) p Hin) as (Hd & _ & Hh & _).
  split; [exact Hin|]. split; [exact Hd | exact Hh].
Defined.

(** ** Deduplication *)

Lemma existsb_string_In (k : string) (seen : list string) :
  existsb (String.eqb k) seen = true <-> In k seen.
Proof.
  rewrite existsb_exists. split.
  - intros (x & Hin & Hx). apply String.eqb_eq in Hx. subst x. exact Hin.
  - intro Hin. exists k. split; [exact Hin | apply String.eqb_refl].
Qed.

Lemma dedupe_fresh (l : list Prediction) :
  forall (seen : list string) (p : Prediction),
    In p (dedupe seen l) -> ~ In (predictionKey p) seen.
Proof.
  induction l as [|q rest IH]; intros seen p; cbn [dedupe In]; [tauto|].
  destruct (existsb (String.eqb (predictionKey q)) seen) eqn:E.
  - apply IH.
  - cbn [In]. intros [<-|Hin].
    + intro Hin. apply existsb_string_In in Hin. congruence.
    + intro Hs. apply (IH _ _ Hin). right. exact Hs.
Qed.

Lemma dedupe_NoDup (l : list Prediction) :
  forall seen : list string, NoDup (map predictionKey (dedupe seen l)).
Proof.
  induction l as [|q rest IH]; intro seen; cbn [dedupe map]; [constructor|].
  destruct (existsb (String.eqb (predictionKey q)) seen); [apply IH|].
  cbn [map]. constructor; [|apply IH].
  intro Hin. apply in_map_iff in Hin. destruct Hin as (p & Hk & Hp).
  apply (dedupe_fresh rest _ p Hp). left. symmetry. exact Hk.
Qed.

(** X2. No two predictions returned by [extractPredictions] have the same
    identity key (date, symbol, horizon, wallet and scenario label, joined
    by colons). *)
Theorem extracted_keys_distinct (aiData : JsValue) (d : Date) :
  NoDup (map predictionKey (extractPredictions aiData d)).
Proof.
  unfold extractPredictions.
  destruct (negb (isObjectValue aiData)); [constructor | apply dedupe_NoDup].
Qed.

Lemma dedupe_find (k : string) (l : list Prediction) :
  forall seen : list string,
    find (fun p => String.eqb (predictionKey p) k) (dedupe seen l)
    = if existsb (String.eqb k) seen then None
      else find (fun p => String.eqb (predictionKey p) k) l.
Proof.
  induction l as [|q rest IH]; intro seen; cbn [dedupe find].
  - destruct (existsb (String.eqb k) seen); reflexivity.
  - destruct (existsb (String.eqb (predictionKey q)) seen) eqn:Eq.
    + rewrite IH. destruct (existsb (String.eqb k) seen) eqn:Ek; [reflexivity|].
      destruct (String.eqb_spec (predictionKey q) k) as [Heq|_]; [|reflexivity].
      rewrite Heq in Eq. congruence.
    + cbn [find]. destruct (String.eqb_spec (predictionKey q) k) as [Heq|Hne].
      * rewrite <- Heq, Eq. reflexivity.
      * rewrite IH. cbn [existsb].
        destruct (String.eqb_spec k (predictionKey q)) as [Heq|_]; [congruence|].
        reflexivity.
Qed.

Lemma dedupe_distinct (l : list Prediction) :
  forall seen : list string,
    NoDup (map predictionKey l) ->
    (forall p, In p l -> ~ In (predictionKey p) seen) ->
    dedupe seen l = l.
Proof.
  induction l as [|q rest IH]; intros seen Hnd Hfresh; cbn [dedupe]; [reflexivity|].
  destruct (existsb (String.eqb (predictionKey q)) seen) eqn:E.
  - exfalso. apply existsb_string_In in E. exact (Hfresh q (or_introl eq_refl) E).
  - f_equal. cbn [map] in Hnd. inversion Hnd as [|k ks Hnotin Hnd']; subst.
    apply IH; [exact Hnd'|].
    intros p Hp [Hk|Hs].
    + apply Hnotin. rewrite Hk. apply in_map. exact Hp.
    + exact (Hfresh p (or_intror Hp) Hs).
Qed.

(** X3. The deduplication keeps, for every identity key, the first
    prediction of the list that has it: looking a key up in the result gives
    the first occurrence in the input.  A list whose keys are already
    distinct is returned as it is, so deduplicating twice changes nothing. *)
Theorem dedupe_first_wins (l : list Prediction) :
  (forall k : string,
      find (fun p => String.eqb (predictionKey p) k) (dedupe [] l)
      = find (fun p => String.eqb (predictionKey p) k) l)
  /\ (NoDup (map predictionKey l) -> dedupe [] l = l)
  /\ dedupe [] (dedupe [] l) = dedupe [] l.
Proof.
  split; [|split].
  - intro k. rewrite dedupe_find. reflexivity.
  - intro Hnd. apply dedupe_distinct; [exact Hnd|]. intros p _ [].
  - apply dedupe_distinct; [apply dedupe_NoDup|]. intros p _ [].
Qed.

(** ** Snapshots *)

Lemma find_app {A : Type} (f : A -> bool) (l1 l2 : list A) :
  find f (l1 ++ l2) = match find f l1 with Some y => Some y | None => find f l2 end.
Proof.
  induction l1 as [|x rest IH]; simpl; [reflexivity|].
  destruct (f x); [reflexivity | exact IH].
Qed.

Lemma buildPositionMap_fold (s : string) (ps : list RawPosition) :
  forall m : PositionMap,
    map_get s
      (fold_left (fun m pos =>
                    map_set (rawSymbol pos)
                      {| pos_symbol := rawSymbol pos;
                         marketValue := orZero (rawMarketValue pos);
                         pnl := orZero (rawPnl pos);
                         pnlPct := orZero (rawPnlPct pos);
                         spent := orZero (rawSpent pos);
                         quantity := orZero (rawQuantity pos) |} m) ps m)
    = match find (fun pos => String.eqb (rawSymbol pos) s) (rev ps) with
      | Some pos => Some (positionOf pos)
      | None => map_get s m
      end.
Proof.
  induction ps as [|p rest IH]; intro m; [reflexivity|].
  cbn [fold_left rev]. rewrite IH, find_app. cbn [find].
  destruct (find (fun pos => String.eqb (rawSymbol pos) s) (rev rest)); [reflexivity|].
  unfold map_get, map_set.
  rewrite (assoc_get_set string Position String.eqb String.eqb_sym string_eqb_trans).
  destruct (String.eqb (rawSymbol p) s); reflexivity.
Qed.

(** X4. Looking a symbol up in the position map of a report gives the last
    position of the report that has this symbol, each missing number read as
    0; a symbol the report does not list, or a report without
    [combined.positions], gives nothing. *)
Theorem buildPositionMap_lookup (report : Report) (s : string) :
  map_get s (buildPositionMap report)
  = match combinedPositions report with
    | None => None
    | Some positions =>
        option_map positionOf
          (find (fun pos => String.eqb (rawSymbol pos) s) (rev positions))
    end.
Proof.
  unfold buildPositionMap. destruct (combinedPositions report) as [ps|]; [|reflexivity].
  rewrite buildPositionMap_fold.
  destruct (find (fun pos => String.eqb (rawSymbol pos) s) (rev ps)); reflexivity.
Qed.

(** ** What the resolver changes *)

Lemma withOutcome_differs (p : Prediction) (o : Outcome) :
  resolved p = false -> withOutcome p o <> p.
Proof.
  intros Hres Heq. apply (f_equal resolved) in Heq. simpl in Heq. congruence.
Qed.

Lemma isSome_false {A : Type} (o : option A) : isSome o = false <-> o = None.
Proof.
  destruct o; simpl; split; intro H; congruence.
Qed.

(** X5. [resolvePrediction] returns its argument unchanged exactly when the
    prediction is already resolved, or is a position call whose symbol is in
    neither snapshot.  In every other case the result is resolved, carries an
    outcome dated with the given date whose direction is up, down or flat,
    and differs from the argument in the resolved flag and the outcome only,
    so the identity key is kept. *)
Theorem resolvePrediction_frame (p : Prediction) (beforePositions afterPositions : PositionMap)
    (rd : Date) :
  let q := resolvePrediction p beforePositions afterPositions rd in
  (q = p <->
   resolved p = true
   \/ (action p <> "SCENARIO"%string
       /\ map_get (symbol p) beforePositions = None
       /\ map_get (symbol p) afterPositions = None))
  /\ (q = p
      \/ exists o : Outcome,
           q = withOutcome p o /\ resolvedDate o = rd
           /\ In (actualDirection o) ["up"; "down"; "flat"]%string)
  /\ predictionKey q = predictionKey p.
Proof.
  assert (Hdir : forall x, In (directionOf x) ["up"; "down"; "flat"]%string).
  { intro x. destruct (directionOf_range x) as [ -> | [ -> | -> ] ]; simpl; auto. }
  cbv zeta. unfold resolvePrediction, resolveScenarioPrediction.
  destruct (resolved p) eqn:Hres.
  { split; [split; auto|]. split; [left; reflexivity | reflexivity]. }
  destruct (String.eqb_spec (action p) "SCENARIO") as [Hact|Hact].
  { split; [|split].
    - split.
      + intro Heq. exfalso. exact (withOutcome_differs p _ Hres Heq).
      + intros [H|(H & _)]; [discriminate | contradiction].
    - right. eexists. split; [reflexivity|]. split; [reflexivity | apply Hdir].
    - reflexivity. }
  destruct (map_get (symbol p) beforePositions) as [b|] eqn:Hb;
    destruct (map_get (symbol p) afterPositions) as [a|] eqn:Ha; cbn [isSome negb andb].
  4: { split; [split; auto|]. split; [left; reflexivity | reflexivity]. }
  all: split; [|split];
    [ split;
      [ intro Heq; exfalso; exact (withOutcome_differs p _ Hres Heq)
      | intros [H|(_ & H1 & H2)]; discriminate ]
    | right; eexists; split; [reflexivity|]; split; [reflexivity | apply Hdir]
    | reflexivity ].
Qed.

(** X6. A position call on a symbol that only one of the two snapshots
    lists is resolved with the missing side counted as zero.  A position that
    is gone from the later snapshot is flagged as exited, its change is the
    rounded negative of the earlier P&L percentage and market value, and its
    stop is never reported as hit; a position that only the later snapshot
    has is flagged as entered, with its own P&L percentage and market value
    as the change. *)
Theorem resolvePrediction_one_sided (p : Prediction)
    (beforePositions afterPositions : PositionMap) (rd : Date) (pos : Position) :
  resolved p = false ->
  action p <> "SCENARIO"%string ->
  (map_get (symbol p) beforePositions = Some pos ->
   map_get (symbol p) afterPositions = None ->
   exists o : Outcome,
     resolvePrediction p beforePositions afterPositions rd = withOutcome p o
     /\ positionExited o = true /\ positionEntered o = false /\ stopHit o = false
     /\ pnlPctChange o = round4 (0 - pnlPct pos)
     /\ mvChange o = round4 (0 - marketValue pos)
     /\ actualDirection o = directionOf (round4 (0 - pnlPct pos)))
  /\ (map_get (symbol p) beforePositions = None ->
      map_get (symbol p) afterPositions = Some pos ->
      exists o : Outcome,
        resolvePrediction p beforePositions afterPositions rd = withOutcome p o
        /\ positionExited o = false /\ positionEntered o = true
        /\ pnlPctChange o = round4 (pnlPct pos - 0)
        /\ mvChange o = round4 (marketValue pos - 0)
        /\ actualDirection o = directionOf (round4 (pnlPct pos - 0))).
Proof.
  intros Hres Hact. split; intros Hb Ha.
  - rewrite (resolvePrediction_tracked p _ _ rd Hres Hact)
      by (rewrite Hb; reflexivity).
    rewrite Hb, Ha. eexists. split; [reflexivity|]. cbn.
    unfold checkStop. destruct (stopLevel p); repeat split; reflexivity.
  - rewrite (resolvePrediction_tracked p _ _ rd Hres Hact)
      by (rewrite Hb, Ha; reflexivity).
    rewrite Hb, Ha. eexists. split; [reflexivity|]. cbn. repeat split; reflexivity.
Qed.

Lemma resolvePrediction_one_sided_witness :
  exists o : Outcome,
    resolvePrediction buyAapl [("AAPL"%string, aaplPosition 2750 50 0.0185)] [] (ymd 2026 2 15)
    = withOutcome buyAapl o
    /\ positionExited o = true /\ actualDirection o = "down"%string.
Proof.
  destruct (resolvePrediction_one_sided buyAapl
              [("AAPL"%string, aaplPosition 2750 50 0.0185)] [] (ymd 2026 2 15)
              (aaplPosition 2750 50 0.0185)) as (Hexit & _).
  - reflexivity.
  - vm_compute. discriminate.
  - destruct Hexit as (o & Heq & Hx & _ & _ & _ & _ & Hdir); [reflexivity | reflexivity |].
    exists o. split; [exact Heq|]. split; [exact Hx|].
    rewrite Hdir. vm_compute. reflexivity.
Defined.

(** ** Portfolio scenarios *)

Lemma Qdiv_gt_iff (x b c : Q) : 0 < b -> (c < x / b <-> c * b < x).
Proof.
  intro Hb. assert (Hx : x == (x / b) * b) by (field; lra).
  set (y := x / b) in *. clearbody y. split; intro H.
  - rewrite Hx. apply Qmult_lt_r; assumption.
  - rewrite Hx in H. apply Qmult_lt_r in H; assumption.
Qed.

Lemma Qdiv_lt_iff (x b c : Q) : 0 < b -> (x / b < c <-> x < c * b).
Proof.
  intro Hb. assert (Hx : x == (x / b) * b) by (field; lra).
  set (y := x / b) in *. clearbody y. split; intro H.
  - rewrite Hx. apply Qmult_lt_r; assumption.
  - rewrite Hx in H. apply Qmult_lt_r in H; assumption.
Qed.

(** X7. An unresolved SCENARIO prediction is always resolved, whatever the
    two snapshots hold.  Its direction compares the change of the total
    market value with half a percent of the earlier total, on the exact
    quotient (the stored change is rounded afterwards): up when the total
    grew by more than 0.5%, down when it fell by more than 0.5%, flat
    otherwise and whenever the earlier total is not positive.  It is correct
    exactly when the expected direction is that direction, and never reports
    a stop, an exit or an entry. *)
Theorem scenario_resolution (p : Prediction) (beforePositions afterPositions : PositionMap)
    (rd : Date) :
  resolved p = false ->
  action p = "SCENARIO"%string ->
  let before := portfolioValue beforePositions in
  let after := portfolioValue afterPositions in
  exists o : Outcome,
    resolvePrediction p beforePositions afterPositions rd = withOutcome p o
    /\ resolvedDate o = rd
    /\ (actualDirection o = "up"%string <->
        0 < before /\ 0.005 * before < after - before)
    /\ (actualDirection o = "down"%string <->
        0 < before /\ after - before < -0.005 * before)
    /\ (actualDirection o = "flat"%string <->
        before <= 0
        \/ (-0.005 * before <= after - before /\ after - before <= 0.005 * before))
    /\ (correct o = true <-> expectedDirection p = Some (actualDirection o))
    /\ mvChange o = round4 (after - before)
    /\ stopHit o = false /\ positionExited o = false /\ positionEntered o = false.
Proof.
  intros Hres Hact before after.
  unfold resolvePrediction, resolveScenarioPrediction. rewrite Hres, Hact.
  cbn [String.eqb Ascii.eqb Bool.eqb]. cbv zeta.
  fold (portfolioValue beforePositions) (portfolioValue afterPositions).
  fold before after.
  eexists. split; [reflexivity|]. cbn [resolvedDate actualDirection correct mvChange
                                       stopHit positionExited positionEntered].
  split; [reflexivity|].
  assert (Hcases :
            (0 < before /\ 0.005 * before < after - before
             /\ directionOf (if Qgtb before 0 then (after - before) / before else 0)
                = "up"%string)
            \/ (0 < before /\ after - before < -0.005 * before
                /\ directionOf (if Qgtb before 0 then (after - before) / before else 0)
                   = "down"%string)
            \/ ((before <= 0
                 \/ (-0.005 * before <= after - before
                     /\ after - before <= 0.005 * before))
                /\ ~ (0 < before /\ 0.005 * before < after - before)
                /\ ~ (0 < before /\ after - before < -0.005 * before)
                /\ directionOf (if Qgtb before 0 then (after - before) / before else 0)
                   = "flat"%string)).
  { clearbody before after. destruct (Qgtb before 0) eqn:Hpos.
    - apply Qgtb_gt in Hpos.
      destruct (directionOf_cases ((after - before) / before))
        as [[Hc Hd]|[[Hc Hd]|[[Hc1 Hc2] Hd]]].
      + left. split; [exact Hpos|]. split; [|exact Hd].
        apply Qdiv_gt_iff; assumption.
      + right; left. split; [exact Hpos|]. split; [|exact Hd].
        apply Qdiv_lt_iff; assumption.
      + right; right. split; [|split; [|split; [|exact Hd]]].
        * right. split.
          -- apply Qnot_lt_le. intro H. apply Qdiv_lt_iff in H; [|exact Hpos].
             exact (Qlt_not_le _ _ H Hc1).
          -- apply Qnot_lt_le. intro H. apply Qdiv_gt_iff in H; [|exact Hpos].
             exact (Qlt_not_le _ _ H Hc2).
        * intros (_ & H). apply Qdiv_gt_iff in H; [|exact Hpos].
          exact (Qlt_not_le _ _ H Hc2).
        * intros (_ & H). apply Qdiv_lt_iff in H; [|exact Hpos].
          exact (Qlt_not_le _ _ H Hc1).
    - apply Qgtb_le in Hpos. right; right.
      split; [left; exact Hpos|].
      split; [intros (H & _); exact (Qlt_not_le _ _ H Hpos)|].
      split; [intros (H & _); exact (Qlt_not_le _ _ H Hpos)|].
      reflexivity. }
  clearbody before after.
  split; [|split; [|split; [|split]]].
  - destruct Hcases as [(H1 & H2 & ->)|[(H1 & H2 & ->)|(_ & Hn & _ & ->)]].
    + split; [intros _; split; assumption | reflexivity].
    + split; [discriminate | intros (H3 & H4); exfalso; lra].
    + split; [discriminate | intro H; exfalso; exact (Hn H)].
  - destruct Hcases as [(H1 & H2 & ->)|[(H1 & H2 & ->)|(_ & _ & Hn & ->)]].
    + split; [discriminate | intros (H3 & H4); exfalso; lra].
    + split; [intros _; split; assumption | reflexivity].
    + split; [discriminate | intro H; exfalso; exact (Hn H)].
  - destruct Hcases as [(H1 & H2 & ->)|[(H1 & H2 & ->)|(H1 & _ & _ & ->)]].
    + split; [discriminate | intros [H3|(H3 & H4)]; exfalso; lra].
    + split; [discriminate | intros [H3|(H3 & H4)]; exfalso; lra].
    + split; [intros _; exact H1 | reflexivity].
  - apply expects_iff.
  - repeat split; reflexivity.
Qed.

Lemma scenario_resolution_witness :
  exists o : Outcome,
    resolvePrediction bullScenario [] [] (ymd 2026 2 21) = withOutcome bullScenario o
    /\ resolvedDate o = ymd 2026 2 21.
Proof.
  destruct (scenario_resolution bullScenario [] [] (ymd 2026 2 21))
    as (o & Heq & Hd & _).
  - reflexivity.
  - reflexivity.
  - exists o. split; [exact Heq | exact Hd].
Defined.

(** ** Counts of the accuracy report *)

Lemma ratio_unit (c t : nat) : (c <= t)%nat -> 0 <= ratio c t <= 1.
Proof.
  intro Hle. unfold ratio. destruct t as [|t'].
  - assert (c = 0%nat) by lia. subst c. split; vm_compute; discriminate.
  - assert (Hpos : 0 < inject_Z (Z.of_nat (S t'))).
    { change 0 with (inject_Z 0). rewrite <- Zlt_Qlt. lia. }
    split.
    + apply Qle_shift_div_l; [exact Hpos|]. rewrite Qmult_0_l.
      change 0 with (inject_Z 0). rewrite <- Zle_Qle. lia.
    + apply Qle_shift_div_r; [exact Hpos|]. rewrite Qmult_1_l.
      rewrite <- Zle_Qle. lia.
Qed.

Lemma filter_length_and {A : Type} (f g : A -> bool) (l : list A) :
  (List.length (filter (fun x => f x && g x) l) <= List.length (filter f l))%nat.
Proof.
  induction l as [|x rest IH]; simpl; [lia|].
  destruct (f x), (g x); simpl; lia.
Qed.

(** X8. The counts of [computeAccuracy]: every prediction is counted once,
    as resolved (flag set and outcome present) or as unresolved; the overall
    accuracy is null exactly when nothing is resolved, and otherwise is the
    share of correct outcomes among the resolved predictions, rounded to four
    decimals, a number between 0 and 1. *)
Theorem computeAccuracy_counts (preds : list Prediction) :
  let acc := computeAccuracy preds in
  totalPredictions acc = List.length preds
  /\ resolvedCount acc = List.length (filter isResolved preds)
  /\ (resolvedCount acc + unresolvedCount acc = totalPredictions acc)%nat
  /\ (overall acc = None <-> resolvedCount acc = 0%nat)
  /\ (forall o : Q, overall acc = Some o ->
        o = round4 (ratio (hits preds) (resolvedCount acc)) /\ 0 <= o <= 1).
Proof.
  cbv zeta. rewrite overall_computeAccuracy, resolvedCount_computeAccuracy.
  assert (Hlen : (List.length (filter isResolved preds) <= List.length preds)%nat)
    by apply filter_length_le.
  unfold computeAccuracy, hits.
  destruct (filter isResolved preds) as [|r rest] eqn:E;
    cbn [totalPredictions unresolvedCount].
  - split; [reflexivity|]. split; [reflexivity|]. split; [simpl; lia|].
    split; [split; reflexivity|]. intros o H. discriminate.
  - split; [reflexivity|]. split; [reflexivity|]. split; [lia|].
    split; [split; intro H; discriminate|].
    intros o H. injection H as <-. split; [reflexivity|].
    apply round4_unit_interval, ratio_unit.
    exact (filter_length_le isCorrect (r :: rest)).
Qed.

(** ** Totals of the groups *)

Section TallySums.
Variable K : Type.
Variable eqb : K -> K -> bool.
Variable keyFn : Prediction -> option K.

Lemma assoc_set_sum (f : Tally -> nat) (k : K) (v : Tally) (m : list (K * Tally)) :
  (list_sum (map (fun e => f (snd e)) (assoc_set eqb k v m))
   + match assoc_get eqb k m with Some v0 => f v0 | None => 0 end
   = list_sum (map (fun e => f (snd e)) m) + f v)%nat.
Proof.
  induction m as [|[k0 v0] rest IH]; simpl; [lia|].
  destruct (eqb k0 k); simpl; lia.
Qed.

Lemma tally_fold_totals (l : list Prediction) :
  forall groups : list (K * Tally),
    list_sum (map (fun e => tallyTotal (snd e)) (fold_left (tallyStep eqb keyFn) l groups))
    = (list_sum (map (fun e => tallyTotal (snd e)) groups)
       + List.length (filter (fun p => isSome (keyFn p)) l))%nat.
Proof.
  induction l as [|p rest IH]; intro groups; simpl; [lia|].
  rewrite IH. unfold tallyStep. destruct (keyFn p) as [k|]; simpl; [|lia].
  pose proof (assoc_set_sum tallyTotal k
                (mkTally (tallyTotal match assoc_get eqb k groups with
                                      | Some g => g | None => mkTally 0 0 end + 1)
                         (if isCorrect p
                          then tallyCorrect match assoc_get eqb k groups with
                                            | Some g => g | None => mkTally 0 0 end + 1
                          else tallyCorrect match assoc_get eqb k groups with
                                            | Some g => g | None => mkTally 0 0 end))
                groups) as H.
  destruct (assoc_get eqb k groups) as [g|]; simpl in *; lia.
Qed.

Lemma tally_fold_corrects (l : list Prediction) :
  forall groups : list (K * Tally),
    list_sum (map (fun e => tallyCorrect (snd e)) (fold_left (tallyStep eqb keyFn) l groups))
    = (list_sum (map (fun e => tallyCorrect (snd e)) groups)
       + List.length (filter (fun p => isSome (keyFn p) && isCorrect p) l))%nat.
Proof.
  induction l as [|p rest IH]; intro groups; simpl; [lia|].
  rewrite IH. unfold tallyStep. destruct (keyFn p) as [k|]; simpl; [|lia].
  pose proof (assoc_set_sum tallyCorrect k
                (mkTally (tallyTotal match assoc_get eqb k groups with
                                      | Some g => g | None => mkTally 0 0 end + 1)
                         (if isCorrect p
                          then tallyCorrect match assoc_get eqb k groups with
                                            | Some g => g | None => mkTally 0 0 end + 1
                          else tallyCorrect match assoc_get eqb k groups with
                                            | Some g => g | None => mkTally 0 0 end))
                groups) as H.
  destruct (assoc_get eqb k groups) as [g|]; destruct (isCorrect p); simpl in *; lia.
Qed.

Lemma tallyBy_totals (l : list Prediction) :
  list_sum (map (fun e => tallyTotal (snd e)) (tallyBy eqb keyFn l))
  = List.length (filter (fun p => isSome (keyFn p)) l).
Proof. unfold tallyBy. rewrite tally_fold_totals. reflexivity. Qed.

Lemma tallyBy_corrects (l : list Prediction) :
  list_sum (map (fun e => tallyCorrect (snd e)) (tallyBy eqb keyFn l))
  = List.length (filter (fun p => isSome (keyFn p) && isCorrect p) l).
Proof. unfold tallyBy. rewrite tally_fold_corrects. reflexivity. Qed.
End TallySums.

Lemma filter_true {A : Type} (l : list A) : filter (fun _ => true) l = l.
Proof. induction l as [|x rest IH]; simpl; [reflexivity | rewrite IH; reflexivity]. Qed.

Lemma distinct_string_keys {V : Type} (m : list (string * V)) :
  distinctKeys String.eqb m -> NoDup (map fst m).
Proof.
  induction m as [|[k v] rest IH]; simpl; [constructor|].
  intros [Hfresh Hrest]. constructor; [|apply IH; exact Hrest].
  intro Hin. apply in_map_iff in Hin. destruct Hin as ([k' v'] & Hk & Hin).
  simpl in Hk. subst k'.
  assert (existsb (fun e : string * V => String.eqb (fst e) k) rest = true).
  { apply existsb_exists. exists (k, v'). split; [exact Hin | apply String.eqb_refl]. }
  congruence.
Qed.

Lemma correctIn_le {K : Type} (eqb : K -> K -> bool) (keyFn : Prediction -> option K)
    (k : K) (l : list Prediction) :
  (correctIn eqb keyFn k l <= countIn eqb keyFn k l)%nat.
Proof. apply filter_length_and. Qed.






Lemma groupAccuracy_entry (resolved : list Prediction) (keyFn : Prediction -> string)
    (k : string) (st : GroupStats) :
  In (k, st) (groupAccuracy resolved keyFn) ->
  (1 <= total st)%nat /\ (correctCount st <= total st)%nat
  /\ 0 <= accuracy st <= 1
  /\ k <> "__proto__"%string
  /\ exists p, In p resolved /\ keyFn p = k.
Proof.
  unfold groupAccuracy. intro Hin. apply in_map_iff in Hin.
  destruct Hin as ([k' t] & Heq & Hin). injection Heq as -> <-.
  apply filter_In in Hin. destruct Hin as (Hin & Hown). cbn [fst] in Hown.
  destruct (tallyBy_In string String.eqb (fun p => Some (keyFn p))
              String.eqb_refl String.eqb_sym string_eqb_trans k t resolved Hin)
    as (-> & Hnz).
  pose proof (correctIn_le String.eqb (fun p => Some (keyFn p)) k resolved) as Hle.
  cbn [total correctCount accuracy tallyTotal tallyCorrect].
  split; [lia|]. split; [exact Hle|].
  split; [apply round4_unit_interval, ratio_unit; exact Hle|].
  split.
  { intro Hk. subst k. discriminate Hown. }
  apply (countIn_positive string String.eqb (fun p => Some (keyFn p))) in Hnz.
  destruct Hnz as (p & Hp & Hm). exists p. split; [exact Hp|].
  unfold keyMatches in Hm. apply String.eqb_eq. exact Hm.
Qed.

Lemma computeAccuracy_views (preds : list Prediction) :
  byAction (computeAccuracy preds) = groupAccuracy (filter isResolved preds) action
  /\ byHorizon (computeAccuracy preds) = groupAccuracy (filter isResolved preds) horizon
  /\ byWallet (computeAccuracy preds) = groupAccuracy (filter isResolved preds) wallet
  /\ bySymbol (computeAccuracy preds) = groupAccuracy (filter isResolved preds) symbol.
Proof.
  unfold computeAccuracy. destruct (filter isResolved preds); repeat split; reflexivity.
Qed.


(** ** Order of the sorted tables *)

Section StrictSort.
Variables K V : Type.
Variable eqb : K -> K -> bool.
Variable lebK : K -> K -> bool.
Variable ltK : K -> K -> Prop.
Hypothesis leb_lt : forall a b, lebK a b = true -> eqb b a = false -> ltK a b.
Hypothesis gt_lt : forall a b, lebK a b = false -> ltK b a.
Hypothesis lt_trans : forall a b c, ltK a b -> ltK b c -> ltK a c.

Lemma insertBy_strict (x : K * V) (l : list (K * V)) :
  StronglySorted (fun a b => ltK (fst a) (fst b)) l ->
  existsb (fun e => eqb (fst e) (fst x)) l = false ->
  StronglySorted (fun a b => ltK (fst a) (fst b))
                 (insertBy (fun a b => lebK (fst a) (fst b)) x l).
Proof.
  intro Hs. induction Hs as [|y rest Hrest IH Hy]; simpl; intro Hfresh.
  - repeat constructor.
  - apply orb_false_iff in Hfresh. destruct Hfresh as [Hy0 Hfresh].
    destruct (lebK (fst x) (fst y)) eqn:E.
    + assert (Hxy : ltK (fst x) (fst y)) by (apply leb_lt; assumption).
      constructor; [constructor; assumption|].
      constructor; [exact Hxy|].
      eapply Forall_impl; [|exact Hy]. intros z Hz. exact (lt_trans _ _ _ Hxy Hz).
    + constructor; [apply IH; exact Hfresh|].
      apply Forall_forall. intros z Hz. apply In_insertBy in Hz.
      destruct Hz as [->|Hz]; [apply gt_lt; exact E|].
      rewrite Forall_forall in Hy. exact (Hy z Hz).
Qed.

Lemma existsb_sortBy (f : K * V -> bool) (leb : K * V -> K * V -> bool) (l : list (K * V)) :
  existsb f (sortBy leb l) = existsb f l.
Proof.
  destruct (existsb f l) eqn:E.
  - apply existsb_exists in E. destruct E as (x & Hin & Hx).
    apply existsb_exists. exists x. split; [apply In_sortBy; exact Hin | exact Hx].
  - destruct (existsb f (sortBy leb l)) eqn:E'; [|reflexivity].
    apply existsb_exists in E'. destruct E' as (x & Hin & Hx).
    apply In_sortBy in Hin.
    assert (existsb f l = true) by (apply existsb_exists; exists x; tauto).
    congruence.
Qed.

Lemma sortBy_strict (m : list (K * V)) :
  distinctKeys eqb m ->
  StronglySorted (fun a b => ltK (fst a) (fst b))
                 (sortBy (fun a b => lebK (fst a) (fst b)) m).
Proof.
  induction m as [|[k v] rest IH]; simpl; [constructor|].
  intros [Hfresh Hrest]. apply insertBy_strict; [apply IH; exact Hrest|].
  rewrite existsb_sortBy. exact Hfresh.
Qed.
End StrictSort.

Lemma StronglySorted_map {A B : Type} (R : B -> B -> Prop) (f : A -> B) (l : list A) :
  StronglySorted (fun a b => R (f a) (f b)) l -> StronglySorted R (map f l).
Proof.
  intro Hs. induction Hs as [|x rest Hrest IH Hx]; simpl; constructor; [exact IH|].
  apply Forall_forall. intros y Hy. apply in_map_iff in Hy.
  destruct Hy as (z & <- & Hz). rewrite Forall_forall in Hx. exact (Hx z Hz).
Qed.

Lemma list_sum_insertBy {A : Type} (f : A -> nat) (leb : A -> A -> bool) (x : A)
    (l : list A) :
  list_sum (map f (insertBy leb x l)) = (f x + list_sum (map f l))%nat.
Proof.
  induction l as [|y rest IH]; simpl; [reflexivity|].
  destruct (leb x y); simpl; [reflexivity|]. rewrite IH. lia.
Qed.

Lemma list_sum_sortBy {A : Type} (f : A -> nat) (leb : A -> A -> bool) (l : list A) :
  list_sum (map f (sortBy leb l)) = list_sum (map f l).
Proof.
  unfold sortBy. induction l as [|x rest IH]; simpl; [reflexivity|].
  rewrite list_sum_insertBy, IH. reflexivity.
Qed.

(** X10. The calibration table lists its bands in strictly ascending order
    of predicted probability, so no band appears twice, and its sample sizes
    add up to the number of resolved predictions that carry a confidence. *)
Theorem calibration_ascending (preds : list Prediction) :
  let cal := calibration (computeAccuracy preds) in
  StronglySorted Qlt (map predictedProb cal)
  /\ list_sum (map sampleSize cal)
     = List.length (filter (fun p => isSome (confidence p)) (filter isResolved preds)).
Proof.
  cbv zeta. rewrite calibration_computeAccuracy. unfold computeCalibration.
  rewrite !map_map. split.
  - rewrite (map_ext _ fst) by (intros [band data]; reflexivity).
    apply StronglySorted_map.
    apply (sortBy_strict Q Tally Qeq_bool Qle_bool Qlt).
    + intros a b Hle Hne. apply Qle_bool_iff in Hle.
      apply Qle_lteq in Hle. destruct Hle as [Hlt|Heq]; [exact Hlt|].
      exfalso. symmetry in Heq. apply Qeq_bool_iff in Heq. congruence.
    + intros a b Hgt. apply Qnot_le_lt. intro Hle. apply Qle_bool_iff in Hle. congruence.
    + intros a b c. apply Qlt_trans.
    + apply (tally_fold_distinct Q Qeq_bool _ Qeq_bool_comm Qeq_bool_trans). exact I.
  - rewrite (map_ext _ (fun e => tallyTotal (snd e))) by (intros [band data]; reflexivity).
    rewrite list_sum_sortBy, tallyBy_totals. f_equal.
    apply filter_ext. intro p. destruct (confidence p); reflexivity.
Qed.

Lemma computeDailyScores_In (s : DailyScore) (preds : list Prediction) :
  In s (computeDailyScores preds) ->
  let onDate := countIn Z.eqb (fun p => Some (date p)) (scoreDate s)
                        (filter isResolved preds) in
  let hitsOnDate := correctIn Z.eqb (fun p => Some (date p)) (scoreDate s)
                              (filter isResolved preds) in
  onDate <> 0%nat /\ scoreTotal s = onDate /\ scoreCorrect s = hitsOnDate
  /\ scoreAccuracy s = round4 (ratio hitsOnDate onDate).
Proof.
  unfold computeDailyScores. intro Hin. apply in_map_iff in Hin.
  destruct Hin as ([d data] & <- & Hin). apply In_sortBy in Hin.
  apply (tallyBy_In Z Z.eqb (fun p => Some (date p)) Z.eqb_refl Z.eqb_sym) in Hin.
  - destruct Hin as [-> Hnz]. cbn. repeat split; try reflexivity. exact Hnz.
  - intros a b c. rewrite !Z.eqb_eq. congruence.
Qed.

(** X11. The daily scores of the update cycle have one entry for each issue
    date that has a resolved prediction, in strictly ascending date order.
    The entry of a date counts the resolved predictions issued that day and
    the correct ones among them, with the rounded ratio as accuracy (between
    0 and 1), and the totals of all entries add up to the number of resolved
    predictions. *)
Theorem dailyScores_by_issue_date (preds : list Prediction) :
  let resolved := filter isResolved preds in
  let scores := computeDailyScores preds in
  StronglySorted Z.lt (map scoreDate scores)
  /\ list_sum (map scoreTotal scores) = List.length resolved
  /\ list_sum (map scoreCorrect scores) = List.length (filter isCorrect resolved)
  /\ (forall s : DailyScore, In s scores ->
        (1 <= scoreTotal s)%nat
        /\ scoreTotal s
           = List.length (filter (fun p => (date p =? scoreDate s)%Z) resolved)
        /\ scoreCorrect s
           = List.length (filter (fun p => (date p =? scoreDate s)%Z && isCorrect p)
                                 resolved)
        /\ scoreAccuracy s = round4 (ratio (scoreCorrect s) (scoreTotal s))
        /\ 0 <= scoreAccuracy s <= 1)
  /\ (forall p : Prediction, In p resolved -> In (date p) (map scoreDate scores)).
Proof.
  cbv zeta.
  assert (Ztrans : forall a b c : Z, (a =? b)%Z = true -> (b =? c)%Z = true ->
                                     (a =? c)%Z = true).
  { intros a b c. rewrite !Z.eqb_eq. congruence. }
  split; [|split; [|split; [|split]]].
  - unfold computeDailyScores. rewrite map_map.
    rewrite (map_ext _ fst) by (intros [d data]; reflexivity).
    apply StronglySorted_map.
    apply (sortBy_strict Z Tally Z.eqb Z.leb Z.lt).
    + intros a b Hle Hne. apply Z.leb_le in Hle. apply Z.eqb_neq in Hne. lia.
    + intros a b Hgt. apply Z.leb_gt in Hgt. exact Hgt.
    + intros a b c. apply Z.lt_trans.
    + apply (tally_fold_distinct Z Z.eqb _ Z.eqb_sym Ztrans). exact I.
  - unfold computeDailyScores. rewrite map_map.
    rewrite (map_ext _ (fun e => tallyTotal (snd e))) by (intros [d data]; reflexivity).
    rewrite list_sum_sortBy, tallyBy_totals. f_equal. apply filter_true.
  - unfold computeDailyScores. rewrite map_map.
    rewrite (map_ext _ (fun e => tallyCorrect (snd e))) by (intros [d data]; reflexivity).
    rewrite list_sum_sortBy, tallyBy_corrects. reflexivity.
  - intros s Hin. destruct (computeDailyScores_In s preds Hin) as (Hnz & Ht & Hc & Ha).
    pose proof (correctIn_le Z.eqb (fun p => Some (date p)) (scoreDate s)
                             (filter isResolved preds)) as Hle.
    split; [lia|]. split; [exact Ht|]. split; [exact Hc|].
    split; [rewrite Ha, Hc, Ht; reflexivity|].
    rewrite Ha. apply round4_unit_interval, ratio_unit. exact Hle.
  - intros p Hp.
    destruct (tallyBy_has Z Z.eqb (fun q => Some (date q)) Z.eqb_sym Ztrans (date p)
                          (filter isResolved preds)) as (d & Hin & Hd).
    + apply (countIn_positive Z Z.eqb (fun q => Some (date q))).
      exists p. split; [exact Hp|]. unfold keyMatches. apply Z.eqb_refl.
    + apply Z.eqb_eq in Hd. subst d. apply in_map_iff.
      eexists. split; [|unfold computeDailyScores; apply in_map_iff; eexists;
                        split; [reflexivity | apply In_sortBy; exact Hin]].
      reflexivity.
Qed.

(** ** Insights and recommendations *)

(** X12. With fewer than three resolved predictions [generateInsights]
    returns the single "not enough resolved predictions" note, whatever the
    accuracy report says.  From three resolved predictions on, and with the
    accuracy report of these predictions, the list is never empty: it begins
    with the one note on the overall accuracy. *)
Theorem generateInsights_threshold (preds : list Prediction) :
  let n := List.length (filter isResolved preds) in
  ((n < 3)%nat ->
   forall acc : Accuracy, generateInsights acc preds = [notEnoughNote])
  /\ ((3 <= n)%nat ->
      exists (note : string) (others : list string),
        overallInsights (computeAccuracy preds) = [note]
        /\ generateInsights (computeAccuracy preds) preds = note :: others).
Proof.
  cbv zeta. split; intro Hn.
  - intro acc. unfold generateInsights.
    apply Nat.ltb_lt in Hn. rewrite Hn. reflexivity.
  - unfold generateInsights.
    destruct (Nat.ltb_spec (List.length (filter isResolved preds)) 3) as [Hlt|_]; [lia|].
    assert (Hov : exists note, overallInsights (computeAccuracy preds) = [note]).
    { unfold overallInsights. rewrite overall_computeAccuracy.
      destruct (filter isResolved preds) as [|r rest]; [simpl in Hn; lia|].
      destruct (Qgeb _ 0.7); [eexists; reflexivity|].
      destruct (Qgeb _ 0.5); eexists; reflexivity. }
    destruct Hov as (note & Hnote). rewrite Hnote.
    exists note. eexists. split; reflexivity.
Qed.

(** X13. [generateRecommendations] does not read its second argument.  With
    fewer than five resolved predictions it returns the single high-priority
    "data" recommendation.  Every recommendation it ever returns is either
    the critical "strategy" one or a high-priority one of category data,
    calibration or action_type; and from five resolved predictions on, the
    strategy recommendation is issued exactly when the overall accuracy is
    below one half. *)
Theorem recommendations_shape (acc : Accuracy) (ins : list string) :
  let recs := generateRecommendations acc ins in
  (forall ins' : list string, generateRecommendations acc ins' = recs)
  /\ ((resolvedCount acc < 5)%nat ->
      map category recs = ["data"%string] /\ map priority recs = ["high"%string])
  /\ (forall r : Recommendation, In r recs ->
        (category r = "strategy"%string /\ priority r = "critical"%string)
        \/ (In (category r) ["data"; "calibration"; "action_type"]%string
            /\ priority r = "high"%string))
  /\ ((5 <= resolvedCount acc)%nat ->
      ((exists r, In r recs /\ category r = "strategy"%string)
       <-> exists o : Q, overall acc = Some o /\ o < 0.5)).
Proof.
  cbv zeta. split; [reflexivity|]. unfold generateRecommendations.
  destruct (Nat.ltb_spec (resolvedCount acc) 5) as [Hlt|Hge].
  - split; [intros _; split; reflexivity|].
    split; [|intro; lia].
    intros r [<-|[]]. right. split; [left|]; reflexivity.
  - split; [intro; lia|].
    assert (Hcal : forall r,
              In r (if existsb (fun c => Qgtb (gap c) 0.2 && (3 <=? sampleSize c)%nat)
                               (calibration acc)
                    then [ {| priority := "high"; category := "calibration";
                              recommendation := "Adjust confidence levels in predictions. Large gap between stated confidence and actual accuracy detected. Use past accuracy rates as priors." |} ]
                    else []) ->
              category r = "calibration"%string /\ priority r = "high"%string).
    { intros r Hr. destruct (existsb _ (calibration acc)); [|contradiction].
      destruct Hr as [<-|[]]. split; reflexivity. }
    assert (Hact : forall r,
              In r (flat_map (fun '(action, stats) =>
                      if String.eqb action "SCENARIO" || (total stats <? 3)%nat then []
                      else if Qltb (accuracy stats) 0.4 then
                        [ {| priority := "high"; category := "action_type";
                             recommendation :=
                               ("Reduce " ++ action
                                ++ " frequency or raise conviction threshold. Current accuracy: "
                                ++ pct0 (accuracy stats) ++ "% over "
                                ++ natToString (total stats) ++ " calls.")%string |} ]
                      else [])
                      (objectEntries (byAction acc))) ->
              category r = "action_type"%string /\ priority r = "high"%string).
    { intros r Hr. apply in_flat_map in Hr. destruct Hr as ([a stats] & _ & Hr).
      destruct (String.eqb a "SCENARIO" || (total stats <? 3)%nat); [contradiction|].
      destruct (Qltb (accuracy stats) 0.4); [|contradiction].
      destruct Hr as [<-|[]]. split; reflexivity. }
    split.
    + intros r Hr. apply in_app_or in Hr. destruct Hr as [Hr|Hr].
      { destruct (Hcal r Hr) as (-> & ->). right. split; [right; left|]; reflexivity. }
      apply in_app_or in Hr. destruct Hr as [Hr|Hr].
      { destruct (Hact r Hr) as (-> & ->).
        right. split; [right; right; left|]; reflexivity. }
      destruct (overall acc) as [o|]; [|contradiction].
      destruct (Qltb o 0.5); [|contradiction].
      destruct Hr as [<-|[]]. left. split; reflexivity.
    + intros _. split.
      * intros (r & Hr & Hcat). apply in_app_or in Hr. destruct Hr as [Hr|Hr].
        { destruct (Hcal r Hr) as (Hc & _). rewrite Hc in Hcat. discriminate. }
        apply in_app_or in Hr. destruct Hr as [Hr|Hr].
        { destruct (Hact r Hr) as (Hc & _). rewrite Hc in Hcat. discriminate. }
        destruct (overall acc) as [o|]; [|contradiction].
        destruct (Qltb o 0.5) eqn:E; [|contradiction].
        exists o. split; [reflexivity | apply Qltb_lt; exact E].
      * intros (o & Ho & Hlt). rewrite Ho. apply Qltb_lt in Hlt. rewrite Hlt.
        eexists. split; [apply in_or_app; right; apply in_or_app; right; left; reflexivity|].
        reflexivity.
Qed.

(** ** What a cycle adds to the ledger *)

Lemma resolveStep_key (st : Store) (dates : list Date) (cur : Date) (p : Prediction) :
  predictionKey (resolveStep st dates cur p) = predictionKey p.
Proof.
  destruct (resolveStep_outcome st dates cur p) as [->|(o & ->)]; reflexivity.
Qed.

Lemma appended_source (st : Store) (existing : list Date) (d : Date) (p : Prediction) :
  In p (appended st existing d) ->
  ~ In d existing
  /\ exists aiData, loadJson (aiFiles st) d = Some aiData
                    /\ In p (extractPredictions aiData d).
Proof.
  unfold appended. destruct (existsb (Z.eqb d) existing) eqn:E; [contradiction|].
  destruct (loadJson (aiFiles st) d) as [aiData|]; [|contradiction].
  destruct (truthy aiData); [|contradiction].
  intro Hin. split.
  - intro Hd. apply existsb_eqb_In in Hd. congruence.
  - exists aiData. split; [reflexivity | exact Hin].
Qed.

(** X14. A successful update cycle only appends to the prediction list and
    resolves in place.  The predictions of the loaded ledger keep their
    positions and identity keys, each one unchanged or, if it was unresolved,
    completed with an outcome.  The predictions added behind them come from
    analyst files whose date no prediction of the loaded ledger has: they are
    extracted from the readable analyst file of their own date, so an analyst
    file for a date that is already in the ledger adds nothing. *)
Theorem update_cycle_appends (st : Store) (currentDate : Date) (st' : Store)
    (l : Ledger) (path : string) :
  updateLearningLedger st currentDate = Ok (st', (l, path)) ->
  let old := predictions (loadLedger st) in
  exists added : list Prediction,
    List.length (predictions l) = (List.length old + List.length added)%nat
    /\ map predictionKey (predictions l) = map predictionKey (old ++ added)
    /\ (forall (i : nat) (p : Prediction),
          nth_error (old ++ added) i = Some p ->
          exists q, nth_error (predictions l) i = Some q
                    /\ (q = p \/ (resolved p = false /\ exists o, q = withOutcome p o)))
    /\ (forall q : Prediction, In q added ->
          ~ In (date q) (map date old)
          /\ exists aiData, loadJson (aiFiles st) (date q) = Some aiData
                            /\ In q (extractPredictions aiData (date q))).
Proof.
  intros Hrun old.
  pose proof (update_predictions st currentDate st' l path Hrun) as Hpreds.
  fold old in Hpreds.
  exists (flat_map (appended st (map date old)) (listAiDates st)).
  rewrite Hpreds. split; [rewrite length_map, length_app; reflexivity|].
  split.
  - rewrite map_map. apply map_ext. intro p. apply resolveStep_key.
  - split.
    + intros i p Hnth. rewrite nth_error_map, Hnth. cbn [option_map].
      eexists. split; [reflexivity|].
      destruct (resolved p) eqn:Hres.
      * left. apply resolveStep_resolved. exact Hres.
      * destruct (resolveStep_outcome st (listReportDates st) currentDate p)
          as [Hsame|(o & Ho)]; [left; exact Hsame|].
        right. split; [reflexivity|]. exists o. exact Ho.
    + intros q Hq. apply in_flat_map in Hq. destruct Hq as (d & _ & Hq).
      destruct (appended_fresh st _ d q Hq) as (Hd & _).
      rewrite Hd. exact (appended_source st _ d q Hq).
Qed.

Lemma update_cycle_appends_witness :
  exists added : list Prediction,
    List.length (predictions (ledgerAfter firstRun (ymd 2026 2 15)))
    = (List.length (predictions (loadLedger firstRun)) + List.length added)%nat.
Proof.
  destruct (update_cycle_appends firstRun (ymd 2026 2 15)
              (storeAfter firstRun (ymd 2026 2 15))
              (ledgerAfter firstRun (ymd 2026 2 15)) LEDGER_FILENAME)
    as (added & Hlen & _).
  - vm_compute. reflexivity.
  - exists added. exact Hlen.
Defined.

(** X15. Every ledger that update cycles produce, starting from the empty
    ledger, has version 1 and a last-updated date, and its derived parts are
    those of its own prediction list: the accuracy report, the insights, the
    recommendations and the daily scores are recomputed from the predictions
    in every cycle, never carried over from the stored file. *)
Theorem reachable_ledger_consistent (l : Ledger) :
  Reachable l ->
  version l = 1%Z
  /\ (exists d : Date, lastUpdated l = Some d)
  /\ ledgerAccuracy l = Some (computeAccuracy (predictions l))
  /\ insights l = generateInsights (computeAccuracy (predictions l)) (predictions l)
  /\ recommendations l
     = generateRecommendations (computeAccuracy (predictions l)) (insights l)
  /\ dailyScores l = computeDailyScores (predictions l).
Proof.
  intro Hreach.
  induction Hreach as [st cur st' l path Hempty Hrun
                      | l st cur st' l' path Hreach IH Hfile Hrun].
  - destruct (updateLearningLedger_ok st cur st' l path Hrun) as (_ & -> & _).
    rewrite Hempty. cbn. split; [reflexivity|]. split; [eexists; reflexivity|].
    repeat split; reflexivity.
  - destruct (updateLearningLedger_ok st cur st' l' path Hrun) as (_ & -> & _).
    destruct IH as (Hv & _).
    assert (Hload : loadLedger st = l).
    { apply loadLedger_stored; [exact Hfile | rewrite Hv; discriminate]. }
    rewrite Hload. cbn. split; [exact Hv|]. split; [eexists; reflexivity|].
    repeat split; reflexivity.
Qed.

Lemma reachable_ledger_consistent_witness :
  version (ledgerAfter firstRun (ymd 2026 2 15)) = 1%Z.
Proof.
  apply (reachable_ledger_consistent (ledgerAfter firstRun (ymd 2026 2 15))).
  apply (reach_first firstRun (ymd 2026 2 15) (storeAfter firstRun (ymd 2026 2 15))
                     _ LEDGER_FILENAME).
  - vm_compute. reflexivity.
  - vm_compute. reflexivity.
Defined.

(** X16. Running the cycle later does not change a verdict: when the
    resolution step resolves a prediction for some current date, it gives the
    same result for every later current date, as long as the reports are the
    same. *)
Theorem resolveStep_later_run (st : Store) (dates : list Date) (cur cur' : Date)
    (p : Prediction) :
  resolveStep st dates cur p <> p ->
  (cur <= cur')%Z ->
  resolveStep st dates cur' p = resolveStep st dates cur p.
Proof.
  unfold resolveStep. destruct (resolved p); [reflexivity|]. cbv zeta.
  destruct (find (fun d => (addDays (date p) (horizonToDays (horizon p)) <=? d)%Z) dates)
    as [rd|]; [|reflexivity].
  destruct (Z.gtb_spec rd cur) as [Hgt|Hle]; [intro H; exfalso; apply H; reflexivity|].
  intros _ Hcur. destruct (Z.gtb_spec rd cur') as [Hgt'|_]; [lia | reflexivity].
Qed.

Lemma resolveStep_later_run_witness :
  resolveStep firstRun (listReportDates firstRun) (ymd 2026 3 1) buyAapl
  = resolveStep firstRun (listReportDates firstRun) (ymd 2026 2 15) buyAapl.
Proof.
  apply resolveStep_later_run.
  - vm_compute. discriminate.
  - vm_compute. discriminate.
Defined.

(** ** Normalisation of actions and horizons *)

Lemma toUpperChar_toLowerChar (c : ascii) : toUpperChar (toLowerChar c) = toUpperChar c.
Proof.
  destruct c as [[|] [|] [|] [|] [|] [|] [|] [|]]; vm_compute; reflexivity.
Qed.

Lemma toLowerChar_toUpperChar (c : ascii) : toLowerChar (toUpperChar c) = toLowerChar c.
Proof.
  destruct c as [[|] [|] [|] [|] [|] [|] [|] [|]]; vm_compute; reflexivity.
Qed.

Lemma toUpperChar_idem (c : ascii) : toUpperChar (toUpperChar c) = toUpperChar c.
Proof.
  destruct c as [[|] [|] [|] [|] [|] [|] [|] [|]]; vm_compute; reflexivity.
Qed.

Lemma toLowerChar_idem (c : ascii) : toLowerChar (toLowerChar c) = toLowerChar c.
Proof.
  destruct c as [[|] [|] [|] [|] [|] [|] [|] [|]]; vm_compute; reflexivity.
Qed.

Lemma mapString_compose (f g h : ascii -> ascii) (s : string) :
  (forall c, f (g c) = h c) -> mapString f (mapString g s) = mapString h s.
Proof.
  intro H. induction s as [|c rest IH]; simpl; [reflexivity|].
  rewrite H, IH. reflexivity.
Qed.

Lemma strTruthy_mapString (f : ascii -> ascii) (s : string) :
  strTruthy (mapString f s) = strTruthy s.
Proof. destruct s; reflexivity. Qed.

Lemma normalizeAction_upper (s t : string) :
  strTruthy s = strTruthy t -> toUpperCase s = toUpperCase t ->
  normalizeAction (JStr s) = normalizeAction (JStr t).
Proof.
  intros H1 H2. unfold normalizeAction. cbn [truthy jsString]. rewrite H1, H2. reflexivity.
Qed.

Lemma normalizeHorizon_lower (s t : string) :
  strTruthy s = strTruthy t -> toLowerCase s = toLowerCase t ->
  normalizeHorizon (JStr s) = normalizeHorizon (JStr t).
Proof.
  intros H1 H2. unfold normalizeHorizon. cbn [truthy jsString]. rewrite H1, H2. reflexivity.
Qed.

(** X17. The normalisation of actions and horizons does not depend on the
    letter case of the text.  An action that is already normalised is mapped
    to itself; of the four normalised horizons, 24h, 1w and 2w are mapped to
    themselves, while 1m matches none of the patterns and is read back as
    24h.  The horizon of any value counts 1, 7, 14 or 30 days. *)
Theorem normalisation_stable (raw : JsValue) (s : string) :
  normalizeAction (JStr (toLowerCase s)) = normalizeAction (JStr s)
  /\ normalizeAction (JStr (toUpperCase s)) = normalizeAction (JStr s)
  /\ normalizeHorizon (JStr (toLowerCase s)) = normalizeHorizon (JStr s)
  /\ normalizeHorizon (JStr (toUpperCase s)) = normalizeHorizon (JStr s)
  /\ normalizeAction (JStr (normalizeAction raw)) = normalizeAction raw
  /\ normalizeHorizon (JStr (normalizeHorizon raw))
     = (if String.eqb (normalizeHorizon raw) "1m" then "24h"%string
        else normalizeHorizon raw)
  /\ In (horizonToDays (normalizeHorizon raw)) [1; 7; 14; 30]%Z.
Proof.
  split; [|split; [|split; [|split; [|split; [|split]]]]].
  - apply normalizeAction_upper; [apply strTruthy_mapString|].
    apply mapString_compose, toUpperChar_toLowerChar.
  - apply normalizeAction_upper; [apply strTruthy_mapString|].
    apply mapString_compose, toUpperChar_idem.
  - apply normalizeHorizon_lower; [apply strTruthy_mapString|].
    apply mapString_compose, toLowerChar_idem.
  - apply normalizeHorizon_lower; [apply strTruthy_mapString|].
    apply mapString_compose, toLowerChar_toUpperChar.
  - destruct (normalizeAction_range raw) as [H|[H|[H|[H|[H|[]]]]]];
      rewrite <- H; vm_compute; reflexivity.
  - destruct (normalizeHorizon_range raw) as [H|[H|[H|[H|[]]]]];
      rewrite <- H; vm_compute; reflexivity.
  - destruct (normalizeHorizon_range raw) as [H|[H|[H|[H|[]]]]];
      rewrite <- H; vm_compute; tauto.
Qed.

(** ** Trend helpers *)

Lemma sliceLast_app {A : Type} (pre recent : list A) :
  Trends.sliceLast (List.length recent) (pre ++ recent)
  = match recent with [] => pre | _ => recent end.
Proof.
  unfold Trends.sliceLast. destruct recent as [|x rest].
  - rewrite app_nil_r. reflexivity.
  - cbn [List.length Nat.eqb]. rewrite length_app. cbn [List.length].
    replace (List.length pre + S (List.length rest) - S (List.length rest))%nat
      with (List.length pre + 0)%nat by lia.
    rewrite skipn_app, Nat.add_0_r, skipn_all. 
    replace (List.length pre - List.length pre)%nat with 0%nat by lia.
    reflexivity.
Qed.

Lemma sliceLast_length {A : Type} (n : nat) (values : list A) :
  (1 <= n <= List.length values)%nat ->
  List.length (Trends.sliceLast n values) = n.
Proof.
  intros [H1 H2]. unfold Trends.sliceLast.
  destruct (Nat.eqb_spec n 0) as [Hz|_]; [lia|].
  rewrite length_skipn. lia.
Qed.

Lemma sliceLast_incl {A : Type} (n : nat) (values : list A) (x : A) :
  In x (Trends.sliceLast n values) -> In x values.
Proof.
  unfold Trends.sliceLast. destruct (n =? 0)%nat; [tauto|].
  intro H. rewrite <- (firstn_skipn (List.length values - n) values).
  apply in_or_app. right. exact H.
Qed.

Lemma inject_nat_succ (n : nat) :
  inject_Z (Z.of_nat (S n)) == inject_Z (Z.of_nat n) + 1.
Proof.
  rewrite Nat2Z.inj_succ. unfold Z.succ. rewrite inject_Z_plus. reflexivity.
Qed.

Lemma fold_sum_bounds (lo hi : Q) (l : list Q) :
  (forall v, In v l -> lo <= v <= hi) ->
  forall a : Q,
    a + lo * inject_Z (Z.of_nat (List.length l)) <= fold_left Qplus l a
    /\ fold_left Qplus l a <= a + hi * inject_Z (Z.of_nat (List.length l)).
Proof.
  induction l as [|x rest IH]; intros Hall a.
  - simpl. change (inject_Z 0) with 0. split; lra.
  - cbn [fold_left List.length].
    destruct (IH (fun v Hv => Hall v (or_intror Hv)) (a + x)) as (Hlo & Hhi).
    destruct (Hall x (or_introl eq_refl)) as (Hx1 & Hx2).
    pose proof (inject_nat_succ (List.length rest)) as Hs.
    set (n := inject_Z (Z.of_nat (List.length rest))) in *.
    set (n' := inject_Z (Z.of_nat (S (List.length rest)))) in *.
    clearbody n n'. set (s := fold_left Qplus rest (a + x)) in *. clearbody s.
    rewrite Hs. split; lra.
Qed.

(** X18. The moving average over a window of at least one value is null
    exactly when there are fewer values than the window.  Otherwise it reads
    the last [window] values only, and lies between any two bounds that hold
    of these values. *)
Theorem moving_average_window (values : list Q) (window : nat) :
  (1 <= window)%nat ->
  (Trends.computeMovingAverage values window = None <->
   (List.length values < window)%nat)
  /\ (forall pre : list Q,
        List.length values = window ->
        Trends.computeMovingAverage (pre ++ values) window
        = Trends.computeMovingAverage values window)
  /\ (forall avg lo hi : Q,
        Trends.computeMovingAverage values window = Some avg ->
        (forall v, In v (Trends.sliceLast window values) -> lo <= v <= hi) ->
        lo <= avg <= hi).
Proof.
  intro Hw. unfold Trends.computeMovingAverage. split; [|split].
  - destruct (Nat.ltb_spec (List.length values) window) as [Hlt|Hge].
    + split; [intros _; exact Hlt | reflexivity].
    + pose proof (sliceLast_length window values (conj Hw Hge)) as Hlen.
      destruct (Trends.sliceLast window values) as [|x rest].
      * simpl in Hlen. lia.
      * split; [discriminate | lia].
  - intros pre Hlen. subst window.
    destruct (Nat.ltb_spec (List.length (pre ++ values)) (List.length values)) as [Hlt|_].
    { rewrite length_app in Hlt. lia. }
    rewrite Nat.ltb_irrefl.
    rewrite sliceLast_app.
    pose proof (sliceLast_app [] values) as Hself. cbn [app] in Hself. rewrite Hself.
    destruct values as [|x rest]; [simpl in Hw; lia | reflexivity].
  - intros avg lo hi Havg Hall.
    destruct (Nat.ltb_spec (List.length values) window) as [Hlt|Hge]; [discriminate|].
    pose proof (sliceLast_length window values (conj Hw Hge)) as Hlen.
    destruct (fold_sum_bounds lo hi _ Hall 0) as (Hlo & Hhi).
    fold (sumQ (Trends.sliceLast window values)) in Hlo, Hhi.
    destruct (Trends.sliceLast window values) as [|x rest] eqn:E; [discriminate|].
    injection Havg as <-.
    change (lo <= sumQ (x :: rest) / inject_Z (Z.of_nat (List.length (x :: rest))) <= hi).
    assert (Hpos : 0 < inject_Z (Z.of_nat (List.length (x :: rest)))).
    { change 0 with (inject_Z 0). rewrite <- Zlt_Qlt. simpl List.length. lia. }
    set (n := inject_Z (Z.of_nat (List.length (x :: rest)))) in *. clearbody n.
    set (s := sumQ (x :: rest)) in *. clearbody s.
    split.
    + apply Qle_shift_div_l; [exact Hpos | lra].
    + apply Qle_shift_div_r; [exact Hpos | lra].
Qed.

Lemma moving_average_window_witness :
  Trends.computeMovingAverage [1; 5; 3; 4] 3 = Trends.computeMovingAverage [5; 3; 4] 3.
Proof.
  destruct (moving_average_window [5; 3; 4] 3) as (_ & Hlast & _).
  - lia.
  - exact (Hlast [1] eq_refl).
Defined.

Lemma last_two (pre : list Q) (previous recent : Q) :
  nth (List.length (pre ++ [previous; recent]) - 1) (pre ++ [previous; recent]) 0 = recent
  /\ nth (List.length (pre ++ [previous; recent]) - 2) (pre ++ [previous; recent]) 0
     = previous.
Proof.
  rewrite length_app. cbn [List.length]. split.
  - rewrite app_nth2 by lia.
    replace (List.length pre + 2 - 1 - List.length pre)%nat with 1%nat by lia.
    reflexivity.
  - rewrite app_nth2 by lia.
    replace (List.length pre + 2 - 2 - List.length pre)%nat with 0%nat by lia.
    reflexivity.
Qed.

(** X19. The momentum of a series is the change from the value before the
    last to the last one, relative to the absolute value of the former: it is
    positive exactly when the series rose and negative exactly when it fell,
    also below zero.  When the value before the last is 0 the momentum is 0,
    whatever the last value is, and a series of fewer than two values has
    momentum 0. *)
Theorem momentum_sign (pre : list Q) (previous recent : Q) :
  let m := Trends.computeMomentum (pre ++ [previous; recent]) in
  (previous == 0 -> m = 0)
  /\ (~ previous == 0 ->
      m * Qabs previous == recent - previous
      /\ (0 < m <-> previous < recent)
      /\ (m < 0 <-> recent < previous))
  /\ Trends.computeMomentum [] = 0
  /\ Trends.computeMomentum [recent] = 0.
Proof.
  cbv zeta. unfold Trends.computeMomentum.
  destruct (last_two pre previous recent) as (-> & ->).
  destruct (Nat.ltb_spec (List.length (pre ++ [previous; recent])) 2) as [Hlt|_].
  { rewrite length_app in Hlt. simpl in Hlt. lia. }
  split; [|split; [|split; reflexivity]].
  - intro Hz. apply Qeq_bool_iff in Hz. rewrite Hz. reflexivity.
  - intro Hnz. destruct (Qeq_bool previous 0) eqn:E.
    { apply Qeq_bool_iff in E. contradiction. }
    assert (Hpos : 0 < Qabs previous).
    { apply Qabs_case; intro H.
      - apply Qle_lteq in H. destruct H as [H|H]; [exact H|].
        exfalso. apply Hnz. symmetry. exact H.
      - apply Qle_lteq in H. destruct H as [H|H]; [lra|].
        exfalso. apply Hnz. exact H. }
    set (a := Qabs previous) in *. clearbody a.
    assert (Hm : (recent - previous) / a * a == recent - previous) by (field; lra).
    set (m := (recent - previous) / a) in *. clearbody m.
    split; [exact Hm|]. split; split; intro H; nra.
Qed.

Lemma everyStep3 (rel : Q -> Q -> bool) (a b c : Q) :
  Trends.everyStep rel [a; b; c] = rel b a && rel c b.
Proof. simpl. rewrite andb_true_r. reflexivity. Qed.

(** X20. [classifyTrend] answers "insufficient_data" exactly for fewer than
    three values, and otherwise looks at the last three values a, b, c only:
    "uptrend" when a <= b <= c, which includes a flat series; "downtrend"
    when a >= b >= c and the three are not all equal; "sideways" in every
    other case. *)
Theorem classifyTrend_last_three (values pre : list Q) (a b c : Q) :
  (Trends.classifyTrend values = "insufficient_data"%string <->
   (List.length values < 3)%nat)
  /\ (let t := Trends.classifyTrend (pre ++ [a; b; c]) in
      (t = "uptrend"%string <-> a <= b /\ b <= c)
      /\ (t = "downtrend"%string <-> (c <= b /\ b <= a) /\ ~ (a == b /\ b == c))
      /\ (t = "sideways"%string <-> ~ (a <= b /\ b <= c) /\ ~ (c <= b /\ b <= a))).
Proof.
  split.
  - unfold Trends.classifyTrend.
    destruct (Nat.ltb_spec (List.length values) 3) as [Hlt|Hge].
    + split; [intros _; exact Hlt | reflexivity].
    + split; [|lia]. cbv zeta.
      destruct (Trends.everyStep Qgeb _); [discriminate|].
      destruct (Trends.everyStep Qle_bool _); discriminate.
  - cbv zeta. unfold Trends.classifyTrend.
    destruct (Nat.ltb_spec (List.length (pre ++ [a; b; c])) 3) as [Hlt|_].
    { rewrite length_app in Hlt. simpl in Hlt. lia. }
    cbv zeta. change 3%nat with (List.length [a; b; c]).
    rewrite sliceLast_app, !everyStep3. unfold Qgeb.
    assert (Hup : Qle_bool a b && Qle_bool b c = true <-> a <= b /\ b <= c).
    { rewrite andb_true_iff, !Qle_bool_iff. tauto. }
    assert (Hdown : Qle_bool b a && Qle_bool c b = true <-> c <= b /\ b <= a).
    { rewrite andb_true_iff, !Qle_bool_iff. tauto. }
    destruct (Qle_bool a b && Qle_bool b c) eqn:Eup;
      [|destruct (Qle_bool b a && Qle_bool c b) eqn:Edown].
    + destruct (proj1 Hup eq_refl) as (Hab & Hbc).
      split; [split; [intros _; split; assumption | reflexivity]|].
      split; split; try discriminate.
      * intros ((Hcb & Hba) & Hn). exfalso. apply Hn. split; lra.
      * intros (Hn & _). exfalso. apply Hn. split; assumption.
    + destruct (proj1 Hdown eq_refl) as (Hcb & Hba).
      assert (Hnup : ~ (a <= b /\ b <= c)).
      { intro H. apply Hup in H. discriminate. }
      split; [split; [discriminate | intro H; exfalso; exact (Hnup H)]|].
      split; split; try discriminate.
      * intros _. split; [split; assumption|].
        intros (Heq1 & Heq2). apply Hnup. split; lra.
      * reflexivity.
      * intros (_ & Hn). exfalso. apply Hn. split; assumption.
    + assert (Hnup : ~ (a <= b /\ b <= c)).
      { intro H. apply Hup in H. discriminate. }
      assert (Hndown : ~ (c <= b /\ b <= a)).
      { intro H. apply Hdown in H. discriminate. }
      split; [split; [discriminate | intro H; exfalso; exact (Hnup H)]|].
      split; split; try discriminate.
      * intros (H & _). exfalso. exact (Hndown H).
      * intros _. split; assumption.
      * reflexivity.
Qed.

(** ** The health score *)

Lemma Qle_bool_false (a b : Q) : Qle_bool a b = false -> b < a.
Proof.
  intro H. apply Qnot_le_lt. intro Hle. apply Qle_bool_iff in Hle. congruence.
Qed.

Lemma clamp_range (v lo hi : Q) : lo <= hi -> lo <= Health.clamp v lo hi <= hi.
Proof.
  intro H. unfold Health.clamp, Health.mathMax, Health.mathMin.
  destruct (Qle_bool hi v) eqn:E1.
  - apply Qle_bool_iff in E1. destruct (Qle_bool lo hi) eqn:E2.
    + split; lra.
    + apply Qle_bool_false in E2. lra.
  - apply Qle_bool_false in E1. destruct (Qle_bool lo v) eqn:E2.
    + apply Qle_bool_iff in E2. split; lra.
    + apply Qle_bool_false in E2. split; lra.
Qed.

Lemma clamp_mono (v w lo hi : Q) : v <= w -> Health.clamp v lo hi <= Health.clamp w lo hi.
Proof.
  intro H. unfold Health.clamp, Health.mathMax, Health.mathMin.
  destruct (Qle_bool hi v) eqn:E1; destruct (Qle_bool hi w) eqn:E2;
    [apply Qle_bool_iff in E1 | apply Qle_bool_iff in E1 | apply Qle_bool_false in E1
     | apply Qle_bool_false in E1];
    [apply Qle_bool_iff in E2 | apply Qle_bool_false in E2 | apply Qle_bool_iff in E2
     | apply Qle_bool_false in E2];
    repeat match goal with
           | |- context [Qle_bool ?a ?b] =>
               let E := fresh "E" in
               destruct (Qle_bool a b) eqn:E;
               [apply Qle_bool_iff in E | apply Qle_bool_false in E]
           end; lra.
Qed.

Lemma round_clamp_range (v : Q) : (0 <= mathRound (Health.clamp v 0 25) <= 25)%Z.
Proof.
  assert (H : 0 <= Health.clamp v 0 25 <= 25) by (apply clamp_range; lra).
  destruct H as (Hlo & Hhi). split.
  - change 0%Z with (mathRound 0). apply mathRound_mono. exact Hlo.
  - change 25%Z with (mathRound 25). apply mathRound_mono. exact Hhi.
Qed.

Lemma round_clamp_int (x : Q) (z : Z) :
  x == inject_Z z -> mathRound (Health.clamp x 0 25) = Z.max 0 (Z.min 25 z).
Proof.
  intro H. apply mathRound_int.
  unfold Health.clamp, Health.mathMax, Health.mathMin.
  destruct (Qle_bool 25 x) eqn:E1.
  - apply Qle_bool_iff in E1. cbn.
    assert (25 <= z)%Z by (rewrite Zle_Qle; change (inject_Z 25) with 25; lra).
    rewrite Z.min_l, Z.max_r by lia. reflexivity.
  - apply Qle_bool_false in E1.
    assert (z < 25)%Z by (rewrite Zlt_Qlt; change (inject_Z 25) with 25; lra).
    rewrite Z.min_r by lia.
    destruct (Qle_bool 0 x) eqn:E2.
    + apply Qle_bool_iff in E2.
      assert (0 <= z)%Z by (rewrite Zle_Qle; change (inject_Z 0) with 0; lra).
      rewrite Z.max_r by lia. exact H.
    + apply Qle_bool_false in E2.
      assert (z < 0)%Z by (rewrite Zlt_Qlt; change (inject_Z 0) with 0; lra).
      rewrite Z.max_l by lia. reflexivity.
Qed.

Lemma scoreDiversification_range (analysis : Health.Analysis) (cfg : Health.RiskConfig) :
  (0 <= Health.scoreDiversification analysis cfg <= 25)%Z.
Proof.
  unfold Health.scoreDiversification.
  destruct (Health.positions analysis) as [[|p ps]|]; try lia.
  destruct (Qle_bool _ 0); [lia|]. apply round_clamp_range.
Qed.

Lemma healthLabel_data (score : Z) : Health.healthLabel score <> "No Data"%string.
Proof.
  unfold Health.healthLabel.
  repeat match goal with
         | |- context [if ?c then _ else _] => destruct c
         end; discriminate.
Qed.

Lemma healthBar_ok (score : Z) :
  (0 <= score <= 100)%Z ->
  (0 <= mathRound (inject_Z score / 5) <= 20)%Z
  /\ Health.healthBar score
     = Ok ("[" ++ Health.repeatString Health.fullBlock
                    (Z.to_nat (mathRound (inject_Z score / 5)))
           ++ Health.repeatString Health.lightShade
                (Z.to_nat (20 - mathRound (inject_Z score / 5)))
           ++ "] " ++ intToString score ++ "/100")%string.
Proof.
  intros [Hlo Hhi].
  assert (Hf : (0 <= mathRound (inject_Z score / 5) <= 20)%Z).
  { split.
    - change 0%Z with (mathRound (inject_Z 0 / 5)). apply mathRound_mono.
      apply Qmult_le_compat_r; [rewrite <- Zle_Qle; exact Hlo | discriminate].
    - change 20%Z with (mathRound (inject_Z 100 / 5)). apply mathRound_mono.
      apply Qmult_le_compat_r; [rewrite <- Zle_Qle; exact Hhi | discriminate]. }
  split; [exact Hf|]. unfold Health.healthBar, Health.repeat. cbv zeta.
  destruct (Z.ltb_spec (mathRound (inject_Z score / 5)) 0) as [H|_]; [lia|].
  destruct (Z.ltb_spec (20 - mathRound (inject_Z score / 5)) 0) as [H|_]; [lia|].
  reflexivity.
Qed.

(** X21. [computeHealthScore] never throws.  Each of the four dimensions is
    an integer from 0 to 25 and the score is their sum, from 0 to 100, so the
    bar is always drawn: twenty cells, as many filled as the score divided by
    five, rounded.  The label is "No Data" exactly when the report has no
    combined analysis, and then the score and all dimensions are 0. *)
Theorem health_score_range (dailyReport : Health.DailyReport) :
  exists h : Health.HealthScore,
    Health.computeHealthScore dailyReport = Ok h
    /\ (0 <= Health.diversification (Health.dimensions h) <= 25)%Z
    /\ (0 <= Health.riskExposure (Health.dimensions h) <= 25)%Z
    /\ (0 <= Health.performance (Health.dimensions h) <= 25)%Z
    /\ (0 <= Health.dataQuality (Health.dimensions h) <= 25)%Z
    /\ Health.score h
       = (Health.diversification (Health.dimensions h)
          + Health.riskExposure (Health.dimensions h)
          + Health.performance (Health.dimensions h)
          + Health.dataQuality (Health.dimensions h))%Z
    /\ (0 <= Health.score h <= 100)%Z
    /\ (Health.label h = "No Data"%string <-> Health.combined dailyReport = None)
    /\ (Health.combined dailyReport = None -> Health.score h = 0%Z)
    /\ (Health.combined dailyReport <> None ->
        Health.label h = Health.healthLabel (Health.score h))
    /\ exists filled : Z,
         filled = mathRound (inject_Z (Health.score h) / 5)
         /\ (0 <= filled <= 20)%Z
         /\ Health.bar h
            = ("[" ++ Health.repeatString Health.fullBlock (Z.to_nat filled)
               ++ Health.repeatString Health.lightShade (Z.to_nat (20 - filled))
               ++ "] " ++ intToString (Health.score h) ++ "/100")%string.
Proof.
  unfold Health.computeHealthScore.
  destruct (Health.combined dailyReport) as [analysis|].
  - cbv zeta.
    set (cfg := match Health.configUsedRisk dailyReport with
                | Some r => r | None => Health.defaultRisk end).
    set (fs := match Health.failures dailyReport with Some f => f | None => [] end).
    pose proof (scoreDiversification_range analysis cfg) as H1.
    assert (H2 : (0 <= Health.scoreRiskExposure analysis cfg <= 25)%Z)
      by apply round_clamp_range.
    assert (H3 : (0 <= Health.scorePerformance analysis <= 25)%Z)
      by apply round_clamp_range.
    assert (H4 : (0 <= Health.scoreDataQuality analysis fs <= 25)%Z)
      by apply round_clamp_range.
    set (d1 := Health.scoreDiversification analysis cfg) in *.
    set (d2 := Health.scoreRiskExposure analysis cfg) in *.
    set (d3 := Health.scorePerformance analysis) in *.
    set (d4 := Health.scoreDataQuality analysis fs) in *.
    clearbody d1 d2 d3 d4.
    destruct (healthBar_ok (d1 + d2 + d3 + d4)) as (Hf & Hbar); [lia|].
    rewrite Hbar. eexists. split; [reflexivity|].
    cbn [Health.score Health.label Health.bar Health.dimensions Health.diversification
         Health.riskExposure Health.performance Health.dataQuality].
    do 4 (split; [assumption|]). split; [reflexivity|]. split; [lia|].
    split; [split; [intro H; exfalso; exact (healthLabel_data _ H) | discriminate]|].
    split; [discriminate|]. split; [reflexivity|].
    eexists. split; [reflexivity|]. split; [exact Hf | reflexivity].
  - eexists. split; [vm_compute; reflexivity|].
    cbn [Health.score Health.label Health.bar Health.dimensions Health.diversification
         Health.riskExposure Health.performance Health.dataQuality].
    do 4 (split; [lia|]). split; [reflexivity|]. split; [lia|].
    split; [split; reflexivity|]. split; [reflexivity|].
    split; [intro H; exfalso; apply H; reflexivity|].
    exists 0%Z. split; [reflexivity|]. split; [lia | reflexivity].
Qed.

Lemma scorePerformance_curve (analysis : Health.Analysis) :
  Health.scorePerformance analysis
  = mathRound (Health.clamp (performanceCurve (pnlPctRead analysis)) 0 25).
Proof. reflexivity. Qed.

Ltac split_comparisons :=
  repeat match goal with
         | |- context [Qgeb ?a ?b] =>
             let E := fresh "E" in
             destruct (Qgeb a b) eqn:E;
             [apply Qle_bool_iff in E | apply Qle_bool_false in E]
         | |- context [Qle_bool ?a ?b] =>
             let E := fresh "E" in
             destruct (Qle_bool a b) eqn:E;
             [apply Qle_bool_iff in E | apply Qle_bool_false in E]
         end.

Lemma performanceCurve_mono (p q : Q) :
  p <= q -> performanceCurve p <= performanceCurve q.
Proof.
  intro H. unfold performanceCurve, Health.mathMax. split_comparisons; lra.
Qed.

(** X22. The performance dimension never falls when the total P&L
    percentage of the snapshot rises.  It is 25 from +15% on, 15 at zero and
    for a report without the figure, and 0 from -40% down. *)
Theorem scorePerformance_monotone (a1 a2 : Health.Analysis) :
  (pnlPctRead a1 <= pnlPctRead a2 ->
   (Health.scorePerformance a1 <= Health.scorePerformance a2)%Z)
  /\ (0.15 <= pnlPctRead a1 -> Health.scorePerformance a1 = 25%Z)
  /\ (pnlPctRead a1 == 0 -> Health.scorePerformance a1 = 15%Z)
  /\ (Health.snapshot a1 = None -> Health.scorePerformance a1 = 15%Z)
  /\ (pnlPctRead a1 <= -0.4 -> Health.scorePerformance a1 = 0%Z).
Proof.
  rewrite !scorePerformance_curve. split; [|split; [|split; [|split]]].
  - intro H. apply mathRound_mono, clamp_mono, performanceCurve_mono. exact H.
  - intro H. apply (round_clamp_int _ 25).
    unfold performanceCurve, inject_Z. split_comparisons; lra.
  - intro H. apply (round_clamp_int _ 15).
    unfold performanceCurve, Health.mathMax, inject_Z. split_comparisons; lra.
  - intro H. unfold pnlPctRead. rewrite H. vm_compute. reflexivity.
  - intro H. apply (round_clamp_int _ 0).
    unfold performanceCurve, Health.mathMax, inject_Z. split_comparisons; lra.
Qed.

Lemma lengthOrZero_entries (xs : option (list JsValue)) :
  Health.lengthOrZero xs = inject_Z (entries xs).
Proof. destruct xs; reflexivity. Qed.

Lemma entries_nonneg (xs : option (list JsValue)) : (0 <= entries xs)%Z.
Proof. destruct xs; simpl; lia. Qed.

Lemma mathMin_int (w : Z) :
  Health.mathMin (inject_Z w * 1) 10 == inject_Z (Z.min w 10).
Proof.
  unfold Health.mathMin. destruct (Qle_bool (inject_Z w * 1) 10) eqn:E.
  - apply Qle_bool_iff in E.
    assert (w <= 10)%Z by (rewrite Zle_Qle; change (inject_Z 10) with 10; lra).
    rewrite Z.min_l by lia. ring.
  - apply Qle_bool_false in E.
    assert (10 < w)%Z by (rewrite Zlt_Qlt; change (inject_Z 10) with 10; lra).
    rewrite Z.min_r by lia. reflexivity.
Qed.

Ltac inject_ring :=
  unfold Z.sub; rewrite ?inject_Z_plus, ?inject_Z_opp, ?inject_Z_mult;
  unfold inject_Z; ring.

(** X23. The two deduction scores are exact integers, so that rounding and
    the upper bound do nothing.  Risk exposure is 25 less 3 for each
    overweight position, less 2 for each big loser, less 8 when the top-3
    concentration is breached or else less 3 when it exceeds 80% of the
    warning level, and not below 0.  Data quality is 25 less 1 for each weird
    value up to 10, less 5 for each failure, less 15 when no position was
    counted, and not below 0.  An analysis without risk section reads as one
    with empty lists. *)
Theorem deduction_scores (analysis : Health.Analysis) (cfg : Health.RiskConfig)
    (failures : list JsValue) :
  let field {A : Type} (f : Health.Risk -> option A) : option A :=
    match Health.risk analysis with Some r => f r | None => None end in
  let breached :=
    match Health.risk analysis with
    | Some r => Health.top3ConcentrationBreached r
    | None => false
    end in
  let near :=
    Qgtb (orZero (field Health.top3Concentration))
         (Health.top3ConcentrationWarn cfg * 0.8) in
  Health.scoreRiskExposure analysis cfg
  = Z.max 0 (25 - 3 * entries (field Health.overweightPositions)
             - (if breached then 8 else if near then 3 else 0)
             - 2 * entries (field Health.bigLosers))
  /\ Health.scoreDataQuality analysis failures
     = Z.max 0 (25 - Z.min (entries (field Health.weirdValues)) 10
                - 5 * Z.of_nat (List.length failures)
                - (if Qeq_bool (orZero (Health.positionCount analysis)) 0 then 15 else 0)).
Proof.
  cbv zeta. split.
  - unfold Health.scoreRiskExposure. cbv zeta.
    destruct (Health.risk analysis) as [r|]; cbv beta iota.
    + rewrite !lengthOrZero_entries.
      pose proof (entries_nonneg (Health.overweightPositions r)) as How.
      pose proof (entries_nonneg (Health.bigLosers r)) as Hbl.
      set (ow := entries (Health.overweightPositions r)) in *.
      set (bl := entries (Health.bigLosers r)) in *. clearbody ow bl.
      destruct (Health.top3ConcentrationBreached r); cbn [negb andb];
        [|destruct (Qgtb (orZero (Health.top3Concentration r))
                         (Health.top3ConcentrationWarn cfg * 0.8)); cbv iota].
      * rewrite (round_clamp_int _ (25 - 3 * ow - 8 - 2 * bl)); [lia | inject_ring].
      * rewrite (round_clamp_int _ (25 - 3 * ow - 3 - 2 * bl)); [lia | inject_ring].
      * rewrite (round_clamp_int _ (25 - 3 * ow - 0 - 2 * bl)); [lia | inject_ring].
    + cbn [negb andb orZero entries].
      destruct (Qgtb 0 (Health.top3ConcentrationWarn cfg * 0.8)); cbv iota.
      * rewrite (round_clamp_int _ 22); [reflexivity | inject_ring].
      * rewrite (round_clamp_int _ 25); [reflexivity | inject_ring].
  - unfold Health.scoreDataQuality. cbv zeta.
    set (w := entries match Health.risk analysis with
                      | Some r => Health.weirdValues r | None => None end).
    assert (Hw : match Health.risk analysis with
                 | Some r => Health.lengthOrZero (Health.weirdValues r)
                 | None => 0
                 end = inject_Z w).
    { subst w. destruct (Health.risk analysis) as [r|]; [apply lengthOrZero_entries|].
      reflexivity. }
    assert (Hw0 : (0 <= w)%Z) by apply entries_nonneg.
    rewrite Hw. clearbody w.
    set (f := Z.of_nat (List.length failures)).
    destruct (Qeq_bool (orZero (Health.positionCount analysis)) 0); cbv iota.
    + rewrite (round_clamp_int _ (25 - Z.min w 10 - 5 * f - 15)); [lia|].
      rewrite mathMin_int. inject_ring.
    + rewrite (round_clamp_int _ (25 - Z.min w 10 - 5 * f - 0)); [lia|].
      rewrite mathMin_int. inject_ring.
Qed.

(** ** The diff report *)

Lemma last_greatest (l : list Z) :
  StronglySorted Z.le l ->
  forall d, nth_error l (List.length l - 1) = Some d ->
            In d l /\ forall x, In x l -> (x <= d)%Z.
Proof.
  intro Hs. induction Hs as [|y rest Hrest IH Hy]; intros d Hd.
  - discriminate.
  - destruct rest as [|z rest'].
    + simpl in Hd. injection Hd as <-. split; [left; reflexivity|].
      intros x [<-|[]]. lia.
    + assert (Hnth : nth_error (z :: rest') (List.length (z :: rest') - 1) = Some d).
      { simpl in Hd |- *. rewrite Nat.sub_0_r. exact Hd. }
      destruct (IH d Hnth) as (Hin & Hmax). split; [right; exact Hin|].
      intros x [<-|Hx]; [|exact (Hmax x Hx)].
      rewrite Forall_forall in Hy. exact (Hy d Hin).
Qed.

(** X24. [findPreviousDate] returns the latest report date that lies
    strictly before the current date, or nothing when every report is dated
    on or after the current date. *)
Theorem findPreviousDate_greatest (dir : Diff.Directory) (currentDate : Date) :
  match Diff.findPreviousDate dir currentDate with
  | Some d =>
      In d (map fst dir) /\ (d < currentDate)%Z
      /\ forall d', In d' (map fst dir) -> (d' < currentDate)%Z -> (d' <= d)%Z
  | None => forall d', In d' (map fst dir) -> (currentDate <= d')%Z
  end.
Proof.
  unfold Diff.findPreviousDate. cbv zeta.
  set (earlier := filter (fun d => (d <? currentDate)%Z) (map fst dir)).
  assert (Hmem : forall d, In d (sortBy Z.leb earlier)
                           <-> In d (map fst dir) /\ (d < currentDate)%Z).
  { intro d. rewrite In_sortBy. unfold earlier. rewrite filter_In, Z.ltb_lt. tauto. }
  pose proof (sortBy_sorted earlier) as Hsorted.
  destruct (sortBy Z.leb earlier) as [|x rest] eqn:E.
  - cbn. intros d' Hin. destruct (Z.lt_ge_cases d' currentDate) as [Hlt|Hge]; [|exact Hge].
    exfalso. exact (proj2 (Hmem d') (conj Hin Hlt)).
  - cbn [List.length Nat.ltb Nat.leb].
    destruct (nth_error (x :: rest) (List.length (x :: rest) - 1)) as [d|] eqn:Hd.
    + destruct (last_greatest _ Hsorted d Hd) as (Hin & Hmax).
      cbn [List.length] in Hd. rewrite Hd.
      destruct (proj1 (Hmem d) Hin) as (Hdir & Hlt).
      split; [exact Hdir|]. split; [exact Hlt|].
      intros d' Hd' Hlt'. apply Hmax. apply Hmem. split; assumption.
    + exfalso. apply nth_error_None in Hd. simpl in Hd. lia.
Qed.

(** X25. The diff report is unavailable exactly when there is no previous
    date, or when the report of the current or of the previous date cannot be
    read; otherwise it is available and carries the two dates.  A compare
    date given by the caller is taken as it is, whether or not a report has
    that date and also when it is not before the current date; without one,
    the previous date is the one that [findPreviousDate] returns. *)
Theorem diff_availability (dir : Diff.Directory) (currentDate : Date)
    (compareDate : option Date) :
  let prev :=
    match compareDate with
    | Some d => Some d
    | None => Diff.findPreviousDate dir currentDate
    end in
  let result := Diff.buildDiffReport dir currentDate compareDate in
  (result = Diff.Unavailable "no previous report found" <-> prev = None)
  /\ (result = Diff.Unavailable "could not load one or both reports" <->
      exists p, prev = Some p
                /\ (Diff.loadReport dir currentDate = None \/ Diff.loadReport dir p = None))
  /\ (forall d : Diff.DiffReport, result = Diff.Available d ->
        Diff.currentDate d = currentDate
        /\ prev = Some (Diff.previousDate d)
        /\ Diff.loadReport dir currentDate <> None
        /\ Diff.loadReport dir (Diff.previousDate d) <> None).
Proof.
  cbv zeta. unfold Diff.buildDiffReport. cbv zeta.
  set (prev := match compareDate with
               | Some d => Some d
               | None => Diff.findPreviousDate dir currentDate
               end) in *.
  destruct prev as [p|] eqn:Ep.
  - destruct (Diff.loadReport dir currentDate) as [c|] eqn:Ec;
      [destruct (Diff.loadReport dir p) as [r|] eqn:Er|].
    + split; [split; discriminate|]. split.
      * split; [discriminate|]. intros (p' & Hp' & [H|H]); [discriminate|].
        injection Hp' as <-. congruence.
      * intros d Hd. injection Hd as <-. cbn [Diff.currentDate Diff.previousDate].
        split; [reflexivity|]. split; [reflexivity|]. split; [discriminate|].
        congruence.
    + split; [split; discriminate|]. split.
      * split; [|reflexivity]. intros _. exists p. split; [reflexivity | right; exact Er].
      * intros d Hd. discriminate.
    + split; [split; discriminate|]. split.
      * split; [|reflexivity]. intros _. exists p. split; [reflexivity | left; reflexivity].
      * intros d Hd. discriminate.
  - split; [split; reflexivity|]. split.
    + split; [discriminate|]. intros (p & Hp & _). discriminate.
    + intros d Hd. discriminate.
Qed.

Lemma setOf_In (keys : list string) :
  forall (seen : list string) (s : string),
    In s (Diff.setOf seen keys) <-> In s keys /\ ~ In s seen.
Proof.
  induction keys as [|k rest IH]; intros seen s; cbn [Diff.setOf In]; [tauto|].
  destruct (existsb (String.eqb k) seen) eqn:E.
  - rewrite IH. apply existsb_string_In in E. split.
    + intros (H1 & H2). tauto.
    + intros ([<-|H1] & H2); [contradiction | tauto].
  - assert (Hk : ~ In k seen).
    { intro H. apply existsb_string_In in H. congruence. }
    cbn [In]. rewrite IH. cbn [In]. split.
    + intros [<-|(H1 & H2)]; [tauto|]. split; [right; exact H1 | tauto].
    + intros ([<-|H1] & H2); [left; reflexivity|].
      destruct (string_dec k s) as [Heq|Hne]; [left; exact Heq|].
      right. split; [exact H1|]. intros [H|H]; contradiction.
Qed.

Lemma setOf_NoDup (keys : list string) :
  forall seen : list string, NoDup (Diff.setOf seen keys).
Proof.
  induction keys as [|k rest IH]; intro seen; cbn [Diff.setOf]; [constructor|].
  destruct (existsb (String.eqb k) seen); [apply IH|].
  constructor; [|apply IH]. intro H. apply setOf_In in H.
  destruct H as (_ & H). apply H. left. reflexivity.
Qed.

Lemma map_get_keys {V : Type} (m : list (string * V)) (s : string) :
  In s (map fst m) <-> isSome (map_get s m) = true.
Proof.
  unfold map_get. induction m as [|[k v] rest IH]; simpl.
  - split; [contradiction | discriminate].
  - destruct (String.eqb_spec k s) as [->|Hne]; simpl.
    + split; [reflexivity | left; reflexivity].
    + rewrite <- IH. split; [intros [H|H]; [contradiction | exact H] | right; assumption].
Qed.

Lemma NoDup_filter {A : Type} (f : A -> bool) (l : list A) :
  NoDup l -> NoDup (filter f l).
Proof.
  intro H. induction H as [|x rest Hx Hrest IH]; simpl; [constructor|].
  destruct (f x); [|exact IH]. constructor; [|exact IH].
  intro Hin. apply filter_In in Hin. tauto.
Qed.

(** The three buckets after the loop, by symbol. *)
Lemma classify_fold (currMap prevMap : list (string * Diff.Entry)) (symbols : list string) :
  forall acc : Diff.Buckets,
    let b := fold_left (Diff.classify currMap prevMap) symbols acc in
    map Diff.np_symbol (Diff.bucketNew b)
    = map Diff.np_symbol (Diff.bucketNew acc)
      ++ filter (fun s => isSome (map_get s currMap) && negb (isSome (map_get s prevMap)))
                symbols
    /\ map Diff.cp_symbol (Diff.bucketClosed b)
       = map Diff.cp_symbol (Diff.bucketClosed acc)
         ++ filter (fun s => negb (isSome (map_get s currMap)) && isSome (map_get s prevMap))
                   symbols
    /\ map Diff.ch_symbol (Diff.bucketChanges b)
       = map Diff.ch_symbol (Diff.bucketChanges acc)
         ++ filter (fun s => isSome (map_get s currMap) && isSome (map_get s prevMap))
                   symbols.
Proof.
  induction symbols as [|s rest IH]; intro acc; cbn [fold_left filter].
  - rewrite !app_nil_r. repeat split; reflexivity.
  - cbv zeta in IH |- *.
    destruct (IH (Diff.classify currMap prevMap acc s)) as (H1 & H2 & H3).
    rewrite H1, H2, H3. unfold Diff.classify.
    destruct (map_get s currMap) as [c|]; destruct (map_get s prevMap) as [p|];
      cbn [isSome negb andb Diff.bucketNew Diff.bucketClosed Diff.bucketChanges];
      rewrite ?map_app; cbn [map Diff.np_symbol Diff.cp_symbol Diff.ch_symbol];
      rewrite <- ?app_assoc; repeat split; reflexivity.
Qed.

Lemma classify_fold_changes (currMap prevMap : list (string * Diff.Entry))
    (symbols : list string) :
  forall (acc : Diff.Buckets) (c : Diff.Change),
    In c (Diff.bucketChanges (fold_left (Diff.classify currMap prevMap) symbols acc)) ->
    In c (Diff.bucketChanges acc) \/ changeOf currMap prevMap c.
Proof.
  induction symbols as [|s rest IH]; intros acc c; cbn [fold_left]; [tauto|].
  intro Hin. destruct (IH _ c Hin) as [Hacc|Hc]; [|right; exact Hc].
  unfold Diff.classify in Hacc.
  destruct (map_get s currMap) as [curr|] eqn:Ec;
    destruct (map_get s prevMap) as [prev|] eqn:Ep;
    cbn [Diff.bucketChanges] in Hacc; try (left; exact Hacc).
  apply in_app_or in Hacc. destruct Hacc as [Hacc|[<-|[]]]; [left; exact Hacc|].
  right. exists curr, prev. cbn. repeat split; assumption.
Qed.

Section SortedBy.
Variable A : Type.
Variable leb : A -> A -> bool.
Hypothesis leb_total : forall a b, leb a b = false -> leb b a = true.
Hypothesis leb_trans : forall a b c, leb a b = true -> leb b c = true -> leb a c = true.

Lemma insertBy_ordered (x : A) (l : list A) :
  StronglySorted (fun a b => leb a b = true) l ->
  StronglySorted (fun a b => leb a b = true) (insertBy leb x l).
Proof.
  intro Hs. induction Hs as [|y rest Hrest IH Hy]; simpl.
  - repeat constructor.
  - destruct (leb x y) eqn:E.
    + constructor; [constructor; assumption|].
      constructor; [exact E|].
      eapply Forall_impl; [|exact Hy]. intros z Hz. exact (leb_trans _ _ _ E Hz).
    + constructor; [exact IH|].
      apply Forall_forall. intros z Hz. apply In_insertBy in Hz.
      destruct Hz as [->|Hz]; [apply leb_total; exact E|].
      rewrite Forall_forall in Hy. exact (Hy z Hz).
Qed.

Lemma sortBy_ordered (l : list A) :
  StronglySorted (fun a b => leb a b = true) (sortBy leb l).
Proof.
  unfold sortBy. induction l as [|x rest IH]; simpl; [constructor|].
  apply insertBy_ordered. exact IH.
Qed.
End SortedBy.

Lemma StronglySorted_firstn {A : Type} (R : A -> A -> Prop) (n : nat) (l : list A) :
  StronglySorted R l -> StronglySorted R (firstn n l).
Proof.
  intro Hs. revert n. induction Hs as [|x rest Hrest IH Hx]; intro n.
  - rewrite firstn_nil. constructor.
  - destruct n as [|n']; cbn [firstn]; constructor; [apply IH|].
    apply Forall_forall. intros y Hy. rewrite Forall_forall in Hx. apply Hx.
    rewrite <- (firstn_skipn n' rest). apply in_or_app. left. exact Hy.
Qed.

Lemma In_firstn_own {A : Type} (n : nat) (l : list A) (x : A) :
  In x (firstn n l) -> In x l.
Proof.
  intro H. rewrite <- (firstn_skipn n l). apply in_or_app. left. exact H.
Qed.

Lemma NoDup_firstn_own {A : Type} (n : nat) (l : list A) :
  NoDup l -> NoDup (firstn n l).
Proof.
  intro H. revert n. induction H as [|x rest Hx Hrest IH]; intro n.
  - rewrite firstn_nil. constructor.
  - destruct n as [|n']; cbn [firstn]; constructor; [|apply IH].
    intro Hin. apply Hx. exact (In_firstn_own _ _ _ Hin).
Qed.

Lemma NoDup_map_insertBy {A B : Type} (f : A -> B) (leb : A -> A -> bool) (x : A)
    (l : list A) :
  NoDup (map f (x :: l)) -> NoDup (map f (insertBy leb x l)).
Proof.
  induction l as [|y rest IH]; intro H; [exact H|].
  cbn [insertBy]. destruct (leb x y); [exact H|].
  cbn [map] in H |- *. inversion H as [|a l' Hx Hrest]; subst.
  inversion Hrest as [|a l' Hy Hrest']; subst.
  constructor.
  - intro Hin. apply in_map_iff in Hin. destruct Hin as (z & Hz & Hin).
    apply In_insertBy in Hin. destruct Hin as [->|Hin].
    + apply Hx. left. symmetry. exact Hz.
    + apply Hy. rewrite <- Hz. apply in_map. exact Hin.
  - apply IH. cbn [map]. constructor; [|exact Hrest'].
    intro Hin. apply Hx. right. exact Hin.
Qed.

Lemma NoDup_map_sortBy {A B : Type} (f : A -> B) (leb : A -> A -> bool) (l : list A) :
  NoDup (map f l) -> NoDup (map f (sortBy leb l)).
Proof.
  unfold sortBy. induction l as [|x rest IH]; intro H; [exact H|].
  cbn [fold_right]. apply NoDup_map_insertBy. cbn [map] in H |- *.
  inversion H as [|a l' Hx Hrest]; subst. constructor; [|apply IH; exact Hrest].
  intro Hin. apply Hx. apply in_map_iff in Hin. destruct Hin as (z & Hz & Hin).
  rewrite <- Hz. apply in_map. apply (In_sortBy leb). exact Hin.
Qed.

Lemma length_sortBy {A : Type} (leb : A -> A -> bool) (l : list A) :
  List.length (sortBy leb l) = List.length l.
Proof.
  rewrite <- (length_map (fun _ => tt) (sortBy leb l)), <- (length_map (fun _ => tt) l).
  assert (H : forall l' : list unit, List.length l' = list_sum (map (fun _ => 1%nat) l')).
  { induction l' as [|u r IH]; simpl; [reflexivity | rewrite IH; reflexivity]. }
  rewrite !H, !map_map. apply list_sum_sortBy.
Qed.

(** X26. An available diff sorts every symbol of the two reports into one
    list.  The new positions are the symbols that only the current report
    holds, the closed positions those that only the previous report holds,
    each listed once.  The changes are symbols that both reports hold, each
    at most once, with the figures of its two entries and the deltas rounded
    to four decimals; they are ordered by falling absolute weight change and
    cut to twenty, so all of them are listed when at most twenty symbols are
    in both reports. *)
Theorem diff_classification (dir : Diff.Directory) (currentDate : Date)
    (compareDate : option Date) (d : Diff.DiffReport) :
  Diff.buildDiffReport dir currentDate compareDate = Diff.Available d ->
  exists currentReport previousReport : Diff.Report,
    Diff.loadReport dir currentDate = Some currentReport
    /\ Diff.loadReport dir (Diff.previousDate d) = Some previousReport
    /\ let currMap := Diff.positionMap currentReport in
       let prevMap := Diff.positionMap previousReport in
       NoDup (map Diff.np_symbol (Diff.newPositions d))
       /\ (forall s, In s (map Diff.np_symbol (Diff.newPositions d))
                     <-> held currMap s = true /\ held prevMap s = false)
       /\ NoDup (map Diff.cp_symbol (Diff.closedPositions d))
       /\ (forall s, In s (map Diff.cp_symbol (Diff.closedPositions d))
                     <-> held currMap s = false /\ held prevMap s = true)
       /\ NoDup (map Diff.ch_symbol (Diff.changes d))
       /\ (forall c, In c (Diff.changes d) -> changeOf currMap prevMap c)
       /\ (List.length (Diff.changes d) <= 20)%nat
       /\ StronglySorted
            (fun a b => Qabs (Diff.weightDelta b) <= Qabs (Diff.weightDelta a))
            (Diff.changes d)
       /\ ((List.length (filter (held prevMap) (map fst currMap)) <= 20)%nat ->
           forall s, held currMap s = true -> held prevMap s = true ->
                     In s (map Diff.ch_symbol (Diff.changes d))).
Proof.
  unfold Diff.buildDiffReport. cbv zeta.
  destruct (match compareDate with
            | Some d0 => Some d0
            | None => Diff.findPreviousDate dir currentDate
            end) as [p|]; [|discriminate].
  destruct (Diff.loadReport dir currentDate) as [cr|]; [|discriminate].
  destruct (Diff.loadReport dir p) as [pr|] eqn:Ep; [|discriminate].
  set (currMap := Diff.positionMap cr). set (prevMap := Diff.positionMap pr).
  set (allSymbols := Diff.setOf [] (map fst currMap ++ map fst prevMap)).
  set (b := fold_left (Diff.classify currMap prevMap) allSymbols (Diff.mkBuckets [] [] [])).
  set (byWeight := fun a0 b0 : Diff.Change =>
                     Qle_bool (Qabs (Diff.weightDelta b0)) (Qabs (Diff.weightDelta a0))).
  remember (firstn 20 (sortBy byWeight (Diff.bucketChanges b))) as shown eqn:Hshown.
  intro H. injection H as <-.
  cbn [Diff.previousDate Diff.newPositions Diff.closedPositions Diff.changes].
  exists cr, pr. split; [reflexivity|]. split; [exact Ep|]. cbv zeta.
  fold currMap prevMap. subst shown.
  destruct (classify_fold currMap prevMap allSymbols (Diff.mkBuckets [] [] []))
    as (Hnew & Hclosed & Hchanges).
  cbn [Diff.bucketNew Diff.bucketClosed Diff.bucketChanges map app] in Hnew, Hclosed, Hchanges.
  fold b in Hnew, Hclosed, Hchanges.
  assert (Hall : forall s, In s allSymbols <-> held currMap s = true \/ held prevMap s = true).
  { intro s. unfold allSymbols, held. rewrite setOf_In, in_app_iff, !map_get_keys.
    cbn [In]. tauto. }
  assert (Hnd : NoDup allSymbols) by apply setOf_NoDup.
  split; [rewrite Hnew; apply NoDup_filter; exact Hnd|].
  split.
  { intro s. rewrite Hnew, filter_In, Hall. unfold held.
    destruct (isSome (map_get s currMap)), (isSome (map_get s prevMap)); cbn;
      intuition congruence. }
  split; [rewrite Hclosed; apply NoDup_filter; exact Hnd|].
  split.
  { intro s. rewrite Hclosed, filter_In, Hall. unfold held.
    destruct (isSome (map_get s currMap)), (isSome (map_get s prevMap)); cbn;
      intuition congruence. }
  split.
  { rewrite <- firstn_map. apply NoDup_firstn_own. apply NoDup_map_sortBy.
    rewrite Hchanges. apply NoDup_filter. exact Hnd. }
  split.
  { intros c Hc. apply In_firstn_own in Hc. apply In_sortBy in Hc.
    destruct (classify_fold_changes currMap prevMap allSymbols _ c Hc) as [[]|Hok].
    exact Hok. }
  split; [apply firstn_le_length|].
  split.
  { apply StronglySorted_firstn.
    assert (Hs : StronglySorted (fun a0 b0 => byWeight a0 b0 = true)
                                (sortBy byWeight (Diff.bucketChanges b))).
    { apply sortBy_ordered.
      - intros a0 b0 Hf. unfold byWeight in *. apply Qle_bool_false in Hf.
        apply Qle_bool_iff. lra.
      - intros a0 b0 c0 H1 H2. unfold byWeight in *.
        apply Qle_bool_iff in H1, H2. apply Qle_bool_iff. lra. }
    clear -Hs. induction Hs as [|x rest Hrest IH Hx]; constructor; [exact IH|].
    eapply Forall_impl; [|exact Hx]. intros y Hy. apply Qle_bool_iff. exact Hy. }
  intros Hfew s Hc Hp.
  assert (Hlen : (List.length (Diff.bucketChanges b) <= 20)%nat).
  { rewrite <- (length_map Diff.ch_symbol), Hchanges.
    eapply Nat.le_trans; [|exact Hfew].
    apply NoDup_incl_length; [apply NoDup_filter; exact Hnd|].
    intros x Hx. apply filter_In in Hx. destruct Hx as (_ & Hx).
    apply andb_true_iff in Hx. destruct Hx as (Hx1 & Hx2).
    apply filter_In. split; [apply map_get_keys; exact Hx1 | exact Hx2]. }
  rewrite firstn_all2 by (rewrite length_sortBy; exact Hlen).
  apply in_map_iff.
  assert (Hin : In s (map Diff.ch_symbol (Diff.bucketChanges b))).
  { rewrite Hchanges. apply filter_In. split; [apply Hall; left; exact Hc|].
    unfold held in Hc, Hp. rewrite Hc, Hp. reflexivity. }
  apply in_map_iff in Hin. destruct Hin as (c & Hsym & Hin).
  exists c. split; [exact Hsym | apply In_sortBy; exact Hin].
Qed.

Lemma diff_classification_witness :
  option_map (fun d => map Diff.np_symbol (Diff.newPositions d))
             (diffOf twoDays (ymd 2026 2 15) None)
  = Some ["BTC"%string]
  /\ exists d currentReport previousReport,
       diffOf twoDays (ymd 2026 2 15) None = Some d
       /\ Diff.loadReport twoDays (ymd 2026 2 15) = Some currentReport
       /\ Diff.loadReport twoDays (Diff.previousDate d) = Some previousReport
       /\ NoDup (map Diff.ch_symbol (Diff.changes d)).
Proof.
  split; [vm_compute; reflexivity|].
  destruct (Diff.buildDiffReport twoDays (ymd 2026 2 15) None) as [reason|d] eqn:E;
    [vm_compute in E; discriminate|].
  destruct (diff_classification twoDays (ymd 2026 2 15) None d E)
    as (cr & pr & Hc & Hp & _ & _ & _ & _ & Hnd & _).
  exists d, cr, pr. unfold diffOf. rewrite E.
  split; [reflexivity|]. split; [exact Hc|]. split; [exact Hp | exact Hnd].
Defined.

(** ** Bars of the scorecard *)

Lemma accuracyBar_unit (a : Q) (width : Z) :
  0 <= a <= 1 -> (0 <= width)%Z ->
  (0 <= mathRound (a * inject_Z width) <= width)%Z
  /\ Scorecard.accuracyBar (Some a) width
     = Ok (Health.repeatString Health.fullBlock (Z.to_nat (mathRound (a * inject_Z width)))
           ++ Health.repeatString Health.lightShade
                (Z.to_nat (width - mathRound (a * inject_Z width))))%string.
Proof.
  intros [Hlo Hhi] Hw.
  assert (Hwq : 0 <= inject_Z width).
  { change 0 with (inject_Z 0). rewrite <- Zle_Qle. exact Hw. }
  assert (Hf : (0 <= mathRound (a * inject_Z width) <= width)%Z).
  { split.
    - change 0%Z with (mathRound 0). apply mathRound_mono.
      apply Qmult_le_0_compat; assumption.
    - rewrite <- (mathRound_int (inject_Z width) width) at 2 by reflexivity.
      apply mathRound_mono.
      rewrite <- (Qmult_1_l (inject_Z width)) at 2.
      apply Qmult_le_compat_r; assumption. }
  split; [exact Hf|]. unfold Scorecard.accuracyBar, Health.repeat. cbv zeta.
  destruct (Z.ltb_spec (mathRound (a * inject_Z width)) 0) as [H|_]; [lia|].
  destruct (Z.ltb_spec (width - mathRound (a * inject_Z width)) 0) as [H|_]; [lia|].
  reflexivity.
Qed.

(** X27. For an accuracy between 0 and 1 and a width that is not negative,
    [accuracyBar] draws exactly [width] cells, as many filled as the accuracy
    times the width, rounded; it throws a RangeError when that product rounds
    to more than the width or to less than zero.  The accuracies of
    [computeAccuracy] and the daily scores are between 0 and 1, so the bars
    that the scorecard draws for them, ten cells wide, are always drawn. *)
Theorem accuracyBar_cells (preds : list Prediction) :
  (forall (a : Q) (width : Z),
      0 <= a <= 1 -> (0 <= width)%Z ->
      exists filled : Z,
        filled = mathRound (a * inject_Z width)
        /\ (0 <= filled <= width)%Z
        /\ Scorecard.accuracyBar (Some a) width
           = Ok (Health.repeatString Health.fullBlock (Z.to_nat filled)
                 ++ Health.repeatString Health.lightShade (Z.to_nat (width - filled)))%string)
  /\ (forall (a : Q) (width : Z),
        (mathRound (a * inject_Z width) < 0
         \/ width < mathRound (a * inject_Z width))%Z ->
        Scorecard.accuracyBar (Some a) width = Throw "RangeError: Invalid count value")
  /\ (forall (k : string) (st : GroupStats),
        In (k, st) (byAction (computeAccuracy preds)) ->
        exists b : string, Scorecard.accuracyBar (Some (accuracy st)) 10 = Ok b)
  /\ (forall s : DailyScore,
        In s (computeDailyScores preds) ->
        exists b : string, Scorecard.accuracyBar (Some (scoreAccuracy s)) 10 = Ok b).
Proof.
  split; [|split; [|split]].
  - intros a width Ha Hw. destruct (accuracyBar_unit a width Ha Hw) as (Hf & Hbar).
    eexists. split; [reflexivity|]. split; [exact Hf | exact Hbar].
  - intros a width H. unfold Scorecard.accuracyBar, Health.repeat. cbv zeta.
    destruct (Z.ltb_spec (mathRound (a * inject_Z width)) 0) as [_|H0]; [reflexivity|].
    destruct (Z.ltb_spec (width - mathRound (a * inject_Z width)) 0) as [_|H1];
      [reflexivity | lia].
  - intros k st Hin.
    destruct (computeAccuracy_views preds) as (Hview & _). rewrite Hview in Hin.
    destruct (groupAccuracy_entry _ action k st Hin) as (_ & _ & Hacc & _).
    destruct (accuracyBar_unit (accuracy st) 10 Hacc) as (_ & Hbar); [lia|].
    eexists. exact Hbar.
  - intros s Hin.
    destruct (computeDailyScores_In s preds Hin) as (_ & _ & _ & Ha).
    assert (Hacc : 0 <= scoreAccuracy s <= 1).
    { rewrite Ha. apply round4_unit_interval, ratio_unit, correctIn_le. }
    destruct (accuracyBar_unit (scoreAccuracy s) 10 Hacc) as (_ & Hbar); [lia|].
    eexists. exact Hbar.
Qed.

(** ** The trend report *)

Lemma loaded_dates (dir : Diff.Directory) (cutoff : list Date) :
  map fst (flat_map (fun date =>
                       match Diff.loadReport dir date with
                       | Some report => [(date, report)]
                       | None => []
                       end) cutoff)
  = filter (fun d => isSome (Diff.loadReport dir d)) cutoff.
Proof.
  induction cutoff as [|d rest IH]; [reflexivity|].
  cbn [flat_map filter]. rewrite map_app, IH.
  destruct (Diff.loadReport dir d); reflexivity.
Qed.

Lemma StronglySorted_filter {A : Type} (R : A -> A -> Prop) (f : A -> bool) (l : list A) :
  StronglySorted R l -> StronglySorted R (filter f l).
Proof.
  intro Hs. induction Hs as [|x rest Hrest IH Hx]; simpl; [constructor|].
  destruct (f x); [|exact IH]. constructor; [exact IH|].
  apply Forall_forall. intros y Hy. apply filter_In in Hy.
  rewrite Forall_forall in Hx. apply Hx. tauto.
Qed.

Lemma StronglySorted_skipn {A : Type} (R : A -> A -> Prop) (n : nat) (l : list A) :
  StronglySorted R l -> StronglySorted R (skipn n l).
Proof.
  revert l. induction n as [|n' IH]; intros l Hs; [exact Hs|].
  destruct l as [|x rest]; [constructor|]. cbn [skipn]. apply IH.
  inversion Hs; assumption.
Qed.

Lemma StronglySorted_sliceLast {A : Type} (R : A -> A -> Prop) (n : nat) (l : list A) :
  StronglySorted R l -> StronglySorted R (Trends.sliceLast n l).
Proof.
  intro Hs. unfold Trends.sliceLast. destruct (n =? 0)%nat; [exact Hs|].
  apply StronglySorted_skipn. exact Hs.
Qed.

Lemma sliceLast_short {A : Type} (n : nat) (l : list A) :
  (1 <= n)%nat -> (List.length (Trends.sliceLast n l) <= n)%nat.
Proof.
  intro Hn. unfold Trends.sliceLast.
  destruct (Nat.eqb_spec n 0) as [Hz|_]; [lia|].
  rewrite length_skipn. lia.
Qed.

Lemma assoc_set_In {V : Type} (k k' : string) (v v' : V) (m : list (string * V)) :
  In (k', v') (map_set k v m) -> v' = v \/ In (k', v') m.
Proof.
  unfold map_set. induction m as [|[k0 v0] rest IH]; simpl.
  - intros [H|[]]. injection H as _ <-. left. reflexivity.
  - destruct (String.eqb k0 k); simpl.
    + intros [H|H]; [injection H as _ <-; left; reflexivity | right; right; exact H].
    + intros [H|H]; [right; left; exact H|].
      destruct (IH H) as [Hv|Hin]; [left; exact Hv | right; right; exact Hin].
Qed.

Lemma map_get_In {V : Type} (k : string) (v : V) (m : list (string * V)) :
  map_get k m = Some v -> exists k', In (k', v) m.
Proof.
  unfold map_get. induction m as [|[k0 v0] rest IH]; simpl; [discriminate|].
  destruct (String.eqb k0 k).
  - intro H. injection H as <-. exists k0. left. reflexivity.
  - intro H. destruct (IH H) as (k' & Hin). exists k'. right. exact Hin.
Qed.

Lemma pushHistory_over (D : list Date) (date : Date)
    (symbolHistory : list (string * Trends.History)) (entry : string * Trends.PositionData) :
  In date D -> historiesOver D symbolHistory ->
  historiesOver D (Trends.pushHistory date symbolHistory entry).
Proof.
  intros Hd (Hkeys & Hall). unfold Trends.pushHistory. cbv zeta. split.
  - apply (distinctKeys_assoc_set string Trends.History String.eqb
                                  String.eqb_sym string_eqb_trans).
    exact Hkeys.
  - intros s h Hin. apply assoc_set_In in Hin. destruct Hin as [->|Hin]; [|exact (Hall s h Hin)].
    split; [intro H; apply app_eq_nil in H; destruct H; discriminate|].
    rewrite map_app. apply incl_app.
    + destruct (map_get (fst entry) symbolHistory) as [h0|] eqn:E.
      * destruct (map_get_In _ _ _ E) as (k' & Hk'). exact (proj2 (Hall k' h0 Hk')).
      * intros x [].
    + intros x [<-|[]]. exact Hd.
Qed.

Lemma pushHistory_fold (D : list Date) (date : Date)
    (entries : list (string * Trends.PositionData)) :
  In date D ->
  forall symbolHistory : list (string * Trends.History),
    historiesOver D symbolHistory ->
    historiesOver D (fold_left (Trends.pushHistory date) entries symbolHistory).
Proof.
  intro Hd. induction entries as [|e rest IH]; intros h Hh; [exact Hh|].
  cbn [fold_left]. apply IH. apply pushHistory_over; assumption.
Qed.

Lemma track_fold (D : list Date) (reports : list (Date * Diff.Report)) :
  incl (map fst reports) D ->
  forall acc : list (string * Trends.History) * list Trends.PortfolioPoint,
    historiesOver D (fst acc) ->
    historiesOver D (fst (fold_left Trends.track reports acc)).
Proof.
  induction reports as [|[date report] rest IH]; intros Hincl acc Hacc; [exact Hacc|].
  cbn [fold_left]. apply IH.
  - intros x Hx. apply Hincl. right. exact Hx.
  - unfold Trends.track. cbn [fst]. apply pushHistory_fold; [|exact Hacc].
    apply Hincl. left. reflexivity.
Qed.

(** X29. The trend report is unavailable exactly when fewer than two of the
    dates in its window have a readable report; the window holds the last
    [lookbackDays] report dates up to the current date (all of them when
    [lookbackDays] is 0).  In an available report the dates used are the
    readable dates of the window, in ascending order; no symbol has two
    entries, and an entry has at least one data point, dates taken from the
    dates used, the trend of its P&L history and the rounded momentum of its
    market values; the entries are ordered by falling absolute momentum. *)
Theorem historical_trends_report (dir : Diff.Directory) (currentDate : Date)
    (lookbackDays : nat) :
  let window :=
    Trends.sliceLast lookbackDays
      (filter (fun d => (d <=? currentDate)%Z) (sortBy Z.leb (map fst dir))) in
  let readable := filter (fun d => isSome (Diff.loadReport dir d)) window in
  ((1 <= lookbackDays)%nat -> (List.length window <= lookbackDays)%nat)
  /\ StronglySorted Z.le window
  /\ (forall d, In d window -> In d (map fst dir) /\ (d <= currentDate)%Z)
  /\ match Trends.buildHistoricalTrends dir currentDate lookbackDays with
     | Trends.Unavailable reason dates =>
         dates = window /\ (List.length readable < 2)%nat
     | Trends.Available t =>
         (2 <= List.length readable)%nat
         /\ Trends.datesUsed t = readable
         /\ NoDup (map Trends.pt_symbol (Trends.positions t))
         /\ StronglySorted
              (fun a b => Qabs (Trends.momentum b) <= Qabs (Trends.momentum a))
              (Trends.positions t)
         /\ forall p : Trends.PositionTrend, In p (Trends.positions t) ->
              (1 <= Trends.dataPoints p)%nat
              /\ List.length (Trends.dates p) = Trends.dataPoints p
              /\ List.length (Trends.pnlHistory p) = Trends.dataPoints p
              /\ List.length (Trends.marketValueHistory p) = Trends.dataPoints p
              /\ incl (Trends.dates p) (Trends.datesUsed t)
              /\ Trends.trend p = Trends.classifyTrend (Trends.pnlHistory p)
              /\ Trends.momentum p
                 = round4 (Trends.computeMomentum (Trends.marketValueHistory p))
     end.
Proof.
  cbv zeta.
  set (window := Trends.sliceLast lookbackDays
                   (filter (fun d => (d <=? currentDate)%Z) (sortBy Z.leb (map fst dir)))).
  split; [intro Hn; apply sliceLast_short; exact Hn|].
  split.
  { apply StronglySorted_sliceLast, StronglySorted_filter, sortBy_sorted. }
  split.
  { intros d Hd. apply sliceLast_incl in Hd. apply filter_In in Hd.
    destruct Hd as (Hd & Hle). split; [apply (In_sortBy Z.leb); exact Hd|].
    apply Z.leb_le. exact Hle. }
  unfold Trends.buildHistoricalTrends. cbv zeta. fold window.
  set (reports := flat_map (fun date =>
                              match Diff.loadReport dir date with
                              | Some report => [(date, report)]
                              | None => []
                              end) window).
  assert (Hdates : map fst reports = filter (fun d => isSome (Diff.loadReport dir d)) window)
    by apply loaded_dates.
  assert (Hlen : List.length reports
                 = List.length (filter (fun d => isSome (Diff.loadReport dir d)) window)).
  { rewrite <- Hdates, length_map. reflexivity. }
  destruct (Nat.ltb_spec (List.length window) 2) as [Hshort|Hlong].
  { split; [reflexivity|].
    eapply Nat.le_lt_trans; [apply filter_length_le | exact Hshort]. }
  destruct (Nat.ltb_spec (List.length reports) 2) as [Hfew|Henough].
  { split; [reflexivity | rewrite <- Hlen; exact Hfew]. }
  cbn [Trends.datesUsed Trends.positions].
  split; [rewrite <- Hlen; exact Henough|]. split; [exact Hdates|].
  assert (Hover : historiesOver (map fst reports)
                                (fst (fold_left Trends.track reports ([], [])))).
  { apply track_fold; [apply incl_refl|]. split; [exact I | intros s h []]. }
  destruct Hover as (Hkeys & Hall).
  set (symbolHistory := fst (fold_left Trends.track reports ([], []))) in *.
  set (byMomentum := fun a b : Trends.PositionTrend =>
                       Qle_bool (Qabs (Trends.momentum b)) (Qabs (Trends.momentum a))).
  split.
  { apply NoDup_map_sortBy. rewrite map_map. cbn [Trends.positionTrend Trends.pt_symbol].
    apply distinct_string_keys. exact Hkeys. }
  split.
  { assert (Hs : StronglySorted (fun a b => byMomentum a b = true)
                                (sortBy byMomentum (map Trends.positionTrend symbolHistory))).
    { apply sortBy_ordered.
      - intros a b Hf. unfold byMomentum in *. apply Qle_bool_false in Hf.
        apply Qle_bool_iff. lra.
      - intros a b c H1 H2. unfold byMomentum in *.
        apply Qle_bool_iff in H1, H2. apply Qle_bool_iff. lra. }
    induction Hs as [|x rest Hrest IH Hx]; constructor; [exact IH|].
    eapply Forall_impl; [|exact Hx]. intros y Hy. apply Qle_bool_iff. exact Hy. }
  intros p Hp. apply In_sortBy in Hp. apply in_map_iff in Hp.
  destruct Hp as ([s h] & <- & Hin). destruct (Hall s h Hin) as (Hne & Hincl).
  cbn [Trends.positionTrend Trends.dataPoints Trends.dates Trends.pnlHistory
       Trends.marketValueHistory Trends.trend Trends.momentum fst snd].
  rewrite !length_map.
  split; [destruct h; [contradiction | simpl; lia]|].
  repeat (split; [reflexivity|]).
  split; [exact Hincl|]. split; reflexivity.
Qed.
